(** * HAR extraction and URL aggregation: a shallow embedding

    The development follows the two Python programs of the repository:

    - [extract_har_json.py]: classifies the entries of a browser capture,
      recovers JSON payloads from response and request bodies, and emits one
      summary row per included entry;
    - [url_aggregate.py]: groups the rows of the summary table by URL.

    Python values are embedded as they are at run time: the capture is what
    [json.load] returns, every field access is a dynamic [.get], and a method
    call on a value of the wrong type raises.  Exceptions are explicit
    ([exc]); the per-entry [try]/[except] of the main loop is a handler over
    a state-and-exception monad.

    What the programs take from the standard library is defined here where
    their results depend on it ([str] methods, [base64], the UTF-8 codec,
    [json.loads], [os.path] on POSIX, [sorted]); [urlparse], [sha1], [str]
    and [int] of arbitrary values and the file system are parameters
    ([ExtractHarJson.Lib]), so the properties hold whatever they do.  What
    is printed and what is written to the summary is modelled as far as it
    can fail: the standard output and the files encode as UTF-8 with the
    strict handler, which refuses a lone surrogate.  Argument parsing, the
    creation of the output directories and the layout of the CSV files are
    outside the model. *)

From Stdlib Require Import ZArith List Bool Lia String Ascii.
From Stdlib Require Import Permutation Sorted.
From Stdlib Require Import Floats.SpecFloat.
Import ListNotations.
Open Scope Z_scope.
Set Warnings "-register-all".

(* ================================================================== *)
(** * The Python runtime the programs rely on *)
(* ================================================================== *)

Module Py.

(** ** Strings

    A Python [str] is a sequence of Unicode code points. *)

Definition pystr := list Z.

Definition ch (a : ascii) : Z := Z.of_N (N_of_ascii a).

Definition str (s : string) : pystr := map ch (list_ascii_of_string s).

Definition DQUOTE : Z := 34.
Definition BACKSLASH : Z := 92.
Definition LF : pystr := [10].

Fixpoint str_eqb (a b : pystr) : bool :=
  match a, b with
  | [], [] => true
  | x :: a', y :: b' => (x =? y) && str_eqb a' b'
  | _, _ => false
  end.

(** [str.isspace] on one code point: the characters [str.strip()] removes. *)
Definition is_space (c : Z) : bool :=
  ((9 <=? c) && (c <=? 13)) || ((28 <=? c) && (c <=? 32))
  || (c =? 133) || (c =? 160) || (c =? 5760)
  || ((8192 <=? c) && (c <=? 8202))
  || (c =? 8232) || (c =? 8233) || (c =? 8239) || (c =? 8287) || (c =? 12288).

Fixpoint lstrip (s : pystr) : pystr :=
  match s with
  | c :: r => if is_space c then lstrip r else s
  | [] => []
  end.

Definition rstrip (s : pystr) : pystr := rev (lstrip (rev s)).

Definition strip (s : pystr) : pystr := rstrip (lstrip s).

(** [s.rstrip(chars)]. *)
Fixpoint lstrip_chars (chars : pystr) (s : pystr) : pystr :=
  match s with
  | c :: r => if existsb (Z.eqb c) chars then lstrip_chars chars r else s
  | [] => []
  end.

Definition rstrip_chars (chars : pystr) (s : pystr) : pystr :=
  rev (lstrip_chars chars (rev s)).

(** Case mapping.  The program only compares the mapped text with ASCII
    words, or replaces what is not ASCII: the model maps the ASCII letters
    and the code points whose image holds an ASCII letter, and leaves every
    other code point as it is. *)
Definition lower_cp (c : Z) : pystr :=
  if (65 <=? c) && (c <=? 90) then [c + 32]
  else if c =? 8490 then [107]
  else if c =? 304 then [105; 775]
  else [c].

Definition upper_cp (c : Z) : pystr :=
  if (97 <=? c) && (c <=? 122) then [c - 32]
  else if c =? 223 then [83; 83]
  else if c =? 305 then [73]
  else if c =? 383 then [83]
  else if c =? 329 then [700; 78]
  else if c =? 496 then [74; 780]
  else if c =? 7830 then [72; 817]
  else if c =? 7831 then [84; 776]
  else if c =? 7832 then [87; 778]
  else if c =? 7833 then [89; 778]
  else if c =? 7834 then [65; 702]
  else if c =? 64256 then [70; 70]
  else if c =? 64257 then [70; 73]
  else if c =? 64258 then [70; 76]
  else if c =? 64259 then [70; 70; 73]
  else if c =? 64260 then [70; 70; 76]
  else if (c =? 64261) || (c =? 64262) then [83; 84]
  else [c].

Definition lower (s : pystr) : pystr := flat_map lower_cp s.
Definition upper (s : pystr) : pystr := flat_map upper_cp s.

Fixpoint startswith (s p : pystr) : bool :=
  match p, s with
  | [], _ => true
  | x :: p', y :: s' => (x =? y) && startswith s' p'
  | _ :: _, [] => false
  end.

Definition endswith (s p : pystr) : bool := startswith (rev s) (rev p).

(** [p in s]. *)
Fixpoint contains (s p : pystr) : bool :=
  startswith s p ||
  match s with
  | [] => false
  | _ :: s' => contains s' p
  end.

(** [s.replace(a, b)] for one-character [a] and [b]. *)
Definition replace_char (a b : Z) (s : pystr) : pystr :=
  map (fun c => if c =? a then b else c) s.

(** [sep.join(l)]. *)
Fixpoint join (sep : pystr) (l : list pystr) : pystr :=
  match l with
  | [] => []
  | [x] => x
  | x :: r => x ++ sep ++ join sep r
  end.

(** Comparison of strings: code point by code point. *)
Fixpoint str_compare (a b : pystr) : comparison :=
  match a, b with
  | [], [] => Eq
  | [], _ :: _ => Lt
  | _ :: _, [] => Gt
  | x :: a', y :: b' =>
      match x ?= y with
      | Eq => str_compare a' b'
      | c => c
      end
  end.

Definition str_leb (a b : pystr) : bool :=
  match str_compare a b with Gt => false | _ => true end.

(** [str(n)] for an integer. *)
Fixpoint digits_of_pos (fuel : nat) (n : Z) (acc : pystr) : pystr :=
  match fuel with
  | O => acc
  | S f =>
      let acc' := (48 + n mod 10) :: acc in
      if n <? 10 then acc' else digits_of_pos f (n / 10) acc'
  end.

Definition str_of_int (n : Z) : pystr :=
  if n <? 0 then 45 :: digits_of_pos (Z.to_nat (- n)) (- n) []
  else digits_of_pos (S (Z.to_nat n)) n [].

(** [s.zfill(width)] for a string without sign. *)
Definition zfill (width : nat) (s : pystr) : pystr :=
  List.repeat 48 (width - List.length s)%nat ++ s.

(** ** Exceptions *)

(** The exceptions of the programs, by their class.  The text of an
    exception matters where it is printed: it is ASCII, or quotes data
    through [repr], for every exception but [ValueErrorOf text], a
    [ValueError] whose text [text] quotes data as it stands (the error of
    [urlparse] for a host that is not valid under NFKC). *)
Inductive exn :=
| AttributeError | TypeError | ValueError | OverflowError
| UnicodeError | BinasciiError | OSError
| ValueErrorOf (text : pystr).

Inductive exc (A : Type) :=
| Ok (a : A)
| Raise (e : exn).
Arguments Ok {A} a.
Arguments Raise {A} e.

Definition bind {A B} (c : exc A) (k : A -> exc B) : exc B :=
  match c with
  | Ok a => k a
  | Raise e => Raise e
  end.

(** [try: c except Exception: h]. *)
Definition try_except {A} (c : exc A) (h : A) : A :=
  match c with
  | Ok a => a
  | Raise _ => h
  end.

Definition raises {A} (c : exc A) : bool :=
  match c with Ok _ => false | Raise _ => true end.

(** ** Values

    What [json.load] builds: [None], [bool], [int], [float], [str], [list]
    and [dict].  A [dict] keeps its keys in insertion order. *)

Inductive json :=
| JNull
| JBool (b : bool)
| JInt (z : Z)
| JFloat (f : spec_float)
| JStr (s : pystr)
| JList (l : list json)
| JDict (d : list (json * json)).

(** Truth value of an object. *)
Definition truthy (v : json) : bool :=
  match v with
  | JNull => false
  | JBool b => b
  | JInt z => negb (z =? 0)
  | JFloat (S754_zero _) => false
  | JFloat _ => true
  | JStr s => match s with [] => false | _ => true end
  | JList l => match l with [] => false | _ => true end
  | JDict d => match d with [] => false | _ => true end
  end.

(** [a or b]. *)
Definition or_ (a b : json) : json := if truthy a then a else b.

(** Whether a float equals an integer. *)
Definition float_eq_int (f : spec_float) (z : Z) : bool :=
  match f with
  | S754_zero _ => z =? 0
  | S754_finite s m e =>
      let sm := if s then Z.neg m else Z.pos m in
      if 0 <=? e then z =? sm * 2 ^ e else sm =? z * 2 ^ (- e)
  | _ => false
  end.

Definition float_eqb (f g : spec_float) : bool :=
  match f, g with
  | S754_zero _, S754_zero _ => true
  | S754_infinity s, S754_infinity t => Bool.eqb s t
  | S754_nan, S754_nan => true
  | S754_finite s m e, S754_finite t n k =>
      Bool.eqb s t &&
      (if e <=? k then Z.pos m =? Z.pos n * 2 ^ (k - e)
       else Z.pos n =? Z.pos m * 2 ^ (e - k))
  | _, _ => false
  end.

Definition Z_of_bool (b : bool) : Z := if b then 1 else 0.

(** Equality of two dictionary keys: strings by content, numbers (with
    [True] and [False]) by value; the one [NaN] object of [json] is a key
    equal to itself. *)
Definition key_eqb (a b : json) : bool :=
  match a, b with
  | JNull, JNull => true
  | JStr s, JStr t => str_eqb s t
  | JBool x, JBool y => Bool.eqb x y
  | JBool x, JInt z | JInt z, JBool x => Z_of_bool x =? z
  | JBool x, JFloat f | JFloat f, JBool x => float_eq_int f (Z_of_bool x)
  | JInt x, JInt y => x =? y
  | JInt z, JFloat f | JFloat f, JInt z => float_eq_int f z
  | JFloat f, JFloat g => float_eqb f g
  | _, _ => false
  end.

Definition hashable (v : json) : bool :=
  match v with
  | JList _ | JDict _ => false
  | _ => true
  end.

Fixpoint dict_lookup (d : list (json * json)) (k : json) : option json :=
  match d with
  | [] => None
  | (k', v) :: r => if key_eqb k' k then Some v else dict_lookup r k
  end.

(** [d[k] = v]: an existing key keeps its place (and its key object). *)
Fixpoint dict_set (d : list (json * json)) (k v : json) : list (json * json) :=
  match d with
  | [] => [(k, v)]
  | (k', v') :: r =>
      if key_eqb k' k then (k', v) :: r else (k', v') :: dict_set r k v
  end.

(** [o.get(k, dflt)].  Only a [dict] has the method. *)
Definition get_default (o : json) (k : pystr) (dflt : json) : exc json :=
  match o with
  | JDict d =>
      Ok match dict_lookup d (JStr k) with Some v => v | None => dflt end
  | _ => Raise AttributeError
  end.

Definition get (o : json) (k : pystr) : exc json := get_default o k JNull.

(** [v == s] for a string [s]. *)
Definition eq_str (v : json) (s : pystr) : bool :=
  match v with
  | JStr t => str_eqb t s
  | _ => false
  end.

(** The receiver of a [str] method ([.lower()], [.strip()], ...). *)
Definition as_str (v : json) : exc pystr :=
  match v with
  | JStr s => Ok s
  | _ => Raise AttributeError
  end.

(** ** [base64.b64decode]

    The text is first encoded as ASCII (a [ValueError] on any other
    character); [binascii.a2b_base64] then skips every character outside the
    alphabet, stops at the padding that completes a quad, and raises
    [binascii.Error] when the data ends inside a quad. *)

Definition b64_value (c : Z) : option Z :=
  if (65 <=? c) && (c <=? 90) then Some (c - 65)
  else if (97 <=? c) && (c <=? 122) then Some (c - 71)
  else if (48 <=? c) && (c <=? 57) then Some (c + 4)
  else if c =? 43 then Some 62
  else if c =? 47 then Some 63
  else None.

Fixpoint a2b_base64 (data : list Z) (quad_pos leftchar pads : Z)
    (out : list Z) : exc (list Z) :=
  match data with
  | [] => if quad_pos =? 0 then Ok (rev out) else Raise BinasciiError
  | c :: rest =>
      if c =? 61 then
        if 2 <=? quad_pos then
          if 4 <=? quad_pos + (pads + 1) then Ok (rev out)
          else a2b_base64 rest quad_pos leftchar (pads + 1) out
        else a2b_base64 rest quad_pos leftchar pads out
      else
        match b64_value c with
        | None => a2b_base64 rest quad_pos leftchar pads out
        | Some v =>
            if quad_pos =? 0 then a2b_base64 rest 1 v 0 out
            else if quad_pos =? 1 then
              a2b_base64 rest 2 (Z.land v 15) 0
                (Z.lor (Z.shiftl leftchar 2) (Z.shiftr v 4) :: out)
            else if quad_pos =? 2 then
              a2b_base64 rest 3 (Z.land v 3) 0
                (Z.lor (Z.shiftl leftchar 4) (Z.shiftr v 2) :: out)
            else
              a2b_base64 rest 0 0 0 (Z.lor (Z.shiftl leftchar 6) v :: out)
        end
  end.

Definition b64decode (s : pystr) : exc (list Z) :=
  if forallb (fun c => c <? 128) s then a2b_base64 s 0 0 0 []
  else Raise ValueError.

(** ** [bytes.decode("utf-8", errors=...)]

    An ill-formed sequence is reported as the lead byte alone (an invalid
    start byte), as the well-formed bytes before the first bad continuation
    byte, or as everything up to the end of the data (a sequence cut short).
    The handler decides what stands for the reported bytes. *)

Inductive errors := Strict | Ignore | Replace.

Definition REPLACEMENT_CHARACTER : Z := 65533.

Definition is_cont (b : Z) : bool := (128 <=? b) && (b <? 192).

Definition second_ok3 (b1 b2 : Z) : bool :=
  is_cont b2 && negb (if b2 <? 160 then b1 =? 224 else b1 =? 237).

Definition second_ok4 (b1 b2 : Z) : bool :=
  is_cont b2 && negb (if b2 <? 144 then b1 =? 240 else b1 =? 244).

Definition on_error (h : errors) (k : exc pystr) : exc pystr :=
  match h with
  | Strict => Raise UnicodeError
  | Ignore => k
  | Replace => bind k (fun s => Ok (REPLACEMENT_CHARACTER :: s))
  end.

Definition emit (c : Z) (k : exc pystr) : exc pystr :=
  bind k (fun s => Ok (c :: s)).

Fixpoint utf8_decode (h : errors) (bs : list Z) : exc pystr :=
  match bs with
  | [] => Ok []
  | b1 :: t1 =>
      if b1 <? 128 then emit b1 (utf8_decode h t1)
      else if b1 <? 194 then on_error h (utf8_decode h t1)
      else if b1 <? 224 then
        match t1 with
        | [] => on_error h (Ok [])
        | b2 :: t2 =>
            if is_cont b2 then
              emit (Z.lor (Z.shiftl (Z.land b1 31) 6) (Z.land b2 63))
                   (utf8_decode h t2)
            else on_error h (utf8_decode h t1)
        end
      else if b1 <? 240 then
        match t1 with
        | [] => on_error h (Ok [])
        | b2 :: t2 =>
            if second_ok3 b1 b2 then
              match t2 with
              | [] => on_error h (Ok [])
              | b3 :: t3 =>
                  if is_cont b3 then
                    emit (Z.lor (Z.shiftl (Z.land b1 15) 12)
                            (Z.lor (Z.shiftl (Z.land b2 63) 6) (Z.land b3 63)))
                         (utf8_decode h t3)
                  else on_error h (utf8_decode h t2)
              end
            else on_error h (utf8_decode h t1)
        end
      else if b1 <? 245 then
        match t1 with
        | [] => on_error h (Ok [])
        | b2 :: t2 =>
            if second_ok4 b1 b2 then
              match t2 with
              | [] => on_error h (Ok [])
              | b3 :: t3 =>
                  if is_cont b3 then
                    match t3 with
                    | [] => on_error h (Ok [])
                    | b4 :: t4 =>
                        if is_cont b4 then
                          emit (Z.lor (Z.shiftl (Z.land b1 7) 18)
                                  (Z.lor (Z.shiftl (Z.land b2 63) 12)
                                     (Z.lor (Z.shiftl (Z.land b3 63) 6)
                                        (Z.land b4 63))))
                               (utf8_decode h t4)
                        else on_error h (utf8_decode h t3)
                    end
                  else on_error h (utf8_decode h t2)
              end
            else on_error h (utf8_decode h t1)
        end
      else on_error h (utf8_decode h t1)
  end.

(** [s.encode("utf-8")] raises on a lone surrogate; that is all the programs
    need of it. *)
Definition is_surrogate (c : Z) : bool := (55296 <=? c) && (c <=? 57343).

Definition utf8_encodable (s : pystr) : bool :=
  forallb (fun c => negb (is_surrogate c)) s.

(** ** [json.loads]

    The scanner of the [json] module with its default settings: strings are
    scanned strictly, [NaN], [Infinity] and [-Infinity] are accepted, a
    repeated key of an object keeps its last value, and a number with a
    fraction or an exponent is the nearest double.  The recursion limit of
    the interpreter and its limit on the digits of an integer are not
    modelled. *)

Definition float_of_decimal (neg : bool) (m e : Z) : spec_float :=
  match m with
  | Zpos p =>
      if 0 <=? e then binary_round 53 1024 neg (Z.to_pos (m * 10 ^ e)) 0
      else
        let '(q, e', l) := SFdiv_core_binary 53 1024 m 0 (10 ^ (- e)) 0 in
        binary_round_aux 53 1024 neg q e' l
  | _ => S754_zero neg
  end.

Definition is_ws (c : Z) : bool :=
  (c =? 32) || (c =? 9) || (c =? 10) || (c =? 13).

Fixpoint skip_ws (s : pystr) : pystr :=
  match s with
  | c :: r => if is_ws c then skip_ws r else s
  | [] => []
  end.

Definition is_digit (c : Z) : bool := (48 <=? c) && (c <=? 57).

Fixpoint span_digits (s : pystr) : pystr * pystr :=
  match s with
  | c :: r =>
      if is_digit c then let '(d, r') := span_digits r in (c :: d, r')
      else ([], s)
  | [] => ([], [])
  end.

Definition Z_of_digits (d : pystr) : Z :=
  fold_left (fun acc c => acc * 10 + (c - 48)) d 0.

Definition hex_val (c : Z) : option Z :=
  if is_digit c then Some (c - 48)
  else if (97 <=? c) && (c <=? 102) then Some (c - 87)
  else if (65 <=? c) && (c <=? 70) then Some (c - 55)
  else None.

Definition hex4 (s : pystr) : option (Z * pystr) :=
  match s with
  | a :: b :: c :: d :: r =>
      match hex_val a, hex_val b, hex_val c, hex_val d with
      | Some a, Some b, Some c, Some d =>
          Some (((a * 16 + b) * 16 + c) * 16 + d, r)
      | _, _, _, _ => None
      end
  | _ => None
  end.

Definition escape_char (e : Z) : option Z :=
  if (e =? 34) || (e =? 92) || (e =? 47) then Some e
  else if e =? 98 then Some 8
  else if e =? 102 then Some 12
  else if e =? 110 then Some 10
  else if e =? 114 then Some 13
  else if e =? 116 then Some 9
  else None.

Definition is_high_surrogate (c : Z) : bool := (55296 <=? c) && (c <=? 56319).
Definition is_low_surrogate (c : Z) : bool := (56320 <=? c) && (c <=? 57343).

Definition join_surrogates (hi lo : Z) : Z :=
  65536 + Z.lor (Z.shiftl (Z.land hi 1023) 10) (Z.land lo 1023).

(** The characters of a string after its opening quote, and what follows its
    closing quote. *)
Fixpoint scanstring (fuel : nat) (s : pystr) (acc : pystr)
    : option (pystr * pystr) :=
  match fuel with
  | O => None
  | S fuel =>
      match s with
      | [] => None
      | c :: r =>
          if c =? DQUOTE then Some (rev acc, r)
          else if c =? BACKSLASH then
            match r with
            | [] => None
            | e :: r2 =>
                if e =? 117 then
                  match hex4 r2 with
                  | None => None
                  | Some (c1, r3) =>
                      if is_high_surrogate c1 && startswith r3 [BACKSLASH; 117]
                      then
                        match hex4 (skipn 2 r3) with
                        | None => None
                        | Some (c2, r4) =>
                            if is_low_surrogate c2
                            then scanstring fuel r4 (join_surrogates c1 c2 :: acc)
                            else scanstring fuel r3 (c1 :: acc)
                        end
                      else scanstring fuel r3 (c1 :: acc)
                  end
                else
                  match escape_char e with
                  | Some x => scanstring fuel r2 (x :: acc)
                  | None => None
                  end
            end
          else if c <=? 31 then None
          else scanstring fuel r (c :: acc)
      end
  end.

(** An optional sign of an exponent. *)
Definition exponent_sign (s : pystr) : bool * pystr :=
  match s with
  | sg :: t =>
      if sg =? 45 then (true, t)
      else if sg =? 43 then (false, t)
      else (false, s)
  | [] => (false, s)
  end.

Definition match_number (s : pystr) : option (json * pystr) :=
  let '(neg, s1) :=
    match s with
    | c :: r => if c =? 45 then (true, r) else (false, s)
    | [] => (false, s)
    end in
  match s1 with
  | [] => None
  | c :: r =>
      let int_part :=
        if (49 <=? c) && (c <=? 57)
        then let '(d, r') := span_digits r in Some (c :: d, r')
        else if c =? 48 then Some ([c], r)
        else None in
      match int_part with
      | None => None
      | Some (int_digits, r1) =>
          let '(frac_digits, r2) :=
            match r1 with
            | dot :: after_dot =>
                if dot =? 46 then
                  match span_digits after_dot with
                  | ([], _) => ([], r1)
                  | (fd, after_frac) => (fd, after_frac)
                  end
                else ([], r1)
            | [] => ([], r1)
            end in
          let '(exponent, r3) :=
            match r2 with
            | e :: after_e =>
                if (e =? 101) || (e =? 69) then
                  let '(eneg, after_sign) := exponent_sign after_e in
                  match span_digits after_sign with
                  | ([], _) => (None, r2)
                  | (ed, after_exp) =>
                      (Some (if eneg then - Z_of_digits ed else Z_of_digits ed),
                       after_exp)
                  end
                else (None, r2)
            | [] => (None, r2)
            end in
          match frac_digits, exponent with
          | [], None =>
              let n := Z_of_digits int_digits in
              Some (JInt (if neg then - n else n), r3)
          | _, _ =>
              let ex := match exponent with Some x => x | None => 0 end in
              Some (JFloat (float_of_decimal neg
                              (Z_of_digits (int_digits ++ frac_digits))
                              (ex - Z.of_nat (List.length frac_digits))),
                    r3)
          end
      end
  end.

(** The members of an object, from its first key on. *)
Fixpoint parse_object_items (scan : pystr -> option (json * pystr))
    (fuel : nat) (s : pystr) (acc : list (json * json))
    : option (json * pystr) :=
  match fuel with
  | O => None
  | S fuel =>
      match s with
      | [] => None
      | q :: r =>
          if q =? DQUOTE then
            match scanstring (S (List.length r)) r [] with
            | None => None
            | Some (k, r1) =>
                match skip_ws r1 with
                | [] => None
                | colon :: r2 =>
                    if colon =? 58 then
                      match scan (skip_ws r2) with
                      | None => None
                      | Some (v, r3) =>
                          let acc' := dict_set acc (JStr k) v in
                          match skip_ws r3 with
                          | [] => None
                          | d :: r4 =>
                              if d =? 125 then Some (JDict acc', r4)
                              else if d =? 44
                              then parse_object_items scan fuel (skip_ws r4) acc'
                              else None
                          end
                      end
                    else None
                end
            end
          else None
      end
  end.

(** The elements of an array, from its first element on. *)
Fixpoint parse_array_items (scan : pystr -> option (json * pystr))
    (fuel : nat) (s : pystr) (acc : list json) : option (json * pystr) :=
  match fuel with
  | O => None
  | S fuel =>
      match scan s with
      | None => None
      | Some (v, r1) =>
          match skip_ws r1 with
          | [] => None
          | d :: r2 =>
              if d =? 93 then Some (JList (rev (v :: acc)), r2)
              else if d =? 44
              then parse_array_items scan fuel (skip_ws r2) (v :: acc)
              else None
          end
      end
  end.

Fixpoint scan_once (fuel : nat) (s : pystr) : option (json * pystr) :=
  match fuel with
  | O => None
  | S fuel =>
      match s with
      | [] => None
      | c :: r =>
          if c =? DQUOTE then
            match scanstring (S (List.length r)) r [] with
            | Some (k, r') => Some (JStr k, r')
            | None => None
            end
          else if c =? 123 then
            match skip_ws r with
            | [] => None
            | d :: r' =>
                if d =? 125 then Some (JDict [], r')
                else parse_object_items (scan_once fuel)
                       (S (List.length r)) (d :: r') []
            end
          else if c =? 91 then
            match skip_ws r with
            | [] => None
            | d :: r' =>
                if d =? 93 then Some (JList [], r')
                else parse_array_items (scan_once fuel)
                       (S (List.length r)) (d :: r') []
            end
          else if startswith s (str "null") then Some (JNull, skipn 4 s)
          else if startswith s (str "true") then Some (JBool true, skipn 4 s)
          else if startswith s (str "false") then Some (JBool false, skipn 5 s)
          else if startswith s (str "NaN") then Some (JFloat S754_nan, skipn 3 s)
          else if startswith s (str "Infinity")
          then Some (JFloat (S754_infinity false), skipn 8 s)
          else if startswith s (str "-Infinity")
          then Some (JFloat (S754_infinity true), skipn 9 s)
          else match_number s
      end
  end.

(** [json.loads(s)]; [None] stands for the [JSONDecodeError]. *)
Definition json_loads (s : pystr) : option json :=
  match scan_once (S (List.length s)) (skip_ws s) with
  | Some (v, r) =>
      match skip_ws r with
      | [] => Some v
      | _ :: _ => None
      end
  | None => None
  end.

End Py.


(* ================================================================== *)
(** * extract_har_json.py *)
(* ================================================================== *)

Module ExtractHarJson.
Import Py.

Declare Scope exc_scope.
Delimit Scope exc_scope with exc.
Notation "x <- c ;; k" := (bind c (fun x => k))
  (at level 61, c at next level, right associativity) : exc_scope.
Notation "' pat <- c ;; k" := (bind c (fun x => match x with pat => k end))
  (at level 61, pat pattern, c at next level, right associativity) : exc_scope.

(** What [urlparse] returns, as far as the program reads it. *)
Record ParseResult := { path : pystr; hostname : option pystr }.

(** The library and the file system, where this development does not define
    them: the program is verified for every behaviour of these. *)
Class Lib := {
  (** [urllib.parse.urlparse(url)] on a [str]; it may raise [ValueError],
      and [ValueErrorOf text] where the text of the error quotes the URL. *)
  urlparse : pystr -> exc ParseResult;
  (** [hashlib.sha1(s.encode("utf-8")).hexdigest()] on an encodable [s]. *)
  sha1_hexdigest : pystr -> pystr;
  (** [str(v)] for a value that is not a [str]. *)
  str_of_value : json -> pystr;
  (** [int(s)] on a [str]. *)
  int_of_str : pystr -> exc Z;
  (** Whether [open(path, "w", encoding="utf-8")] succeeds. *)
  open_w : pystr -> bool
}.

(** [slugify]. *)

Definition slug_char (c : Z) : bool :=
  ((97 <=? c) && (c <=? 122)) || ((48 <=? c) && (c <=? 57))
  || (c =? 45) || (c =? 95) || (c =? 46) || (c =? 58) || (c =? 47).

(** [re.sub(r"[-]+", "-", text)]. *)
Fixpoint collapse_hyphens (s : pystr) : pystr :=
  match s with
  | c :: r =>
      if c =? 45 then
        match r with
        | d :: _ => if d =? 45 then collapse_hyphens r else c :: collapse_hyphens r
        | [] => [c]
        end
      else c :: collapse_hyphens r
  | [] => []
  end.

(** [s[:n]]: a negative [n] counts from the end. *)
Definition slice_to (n : Z) (s : pystr) : pystr :=
  if 0 <=? n then firstn (Z.to_nat n) s
  else firstn (List.length s - Z.to_nat (- n)) s.

Definition slugify (text : pystr) (max_len : Z) : pystr :=
  let text := lower (strip text) in
  let text := map (fun c => if slug_char c then c else 45) text in
  let text := collapse_hyphens text in
  let text :=
    if max_len <? Z.of_nat (List.length text)
    then rstrip_chars (str "-_.:") (slice_to max_len text)
    else text in
  match text with
  | [] => str "untitled"
  | _ => text
  end.

(** [int(v)]. *)
Definition int_of_float (f : spec_float) : exc Z :=
  match f with
  | S754_zero _ => Ok 0
  | S754_finite s m e =>
      let a := if 0 <=? e then Z.pos m * 2 ^ e else Z.pos m / 2 ^ (- e) in
      Ok (if s then - a else a)
  | S754_infinity _ => Raise OverflowError
  | S754_nan => Raise ValueError
  end.

Section WithLib.
Context {L : Lib}.
Local Open Scope exc_scope.

Definition int_ (v : json) : exc Z :=
  match v with
  | JInt z => Ok z
  | JBool b => Ok (Z_of_bool b)
  | JFloat f => int_of_float f
  | JStr s => int_of_str s
  | JNull | JList _ | JDict _ => Raise TypeError
  end.

(** [str(v)], and [v] formatted in an f-string. *)
Definition str_ (v : json) : pystr :=
  match v with
  | JStr s => s
  | _ => str_of_value v
  end.

(** [urlparse(url)]: a value that is not a [str] has no [decode]. *)
Definition urlparse_value (url : json) : exc ParseResult :=
  match url with
  | JStr s => urlparse s
  | _ => Raise AttributeError
  end.

Definition get_entry_fields (entry : json)
    : exc (json * json * json * Z * json) :=
  req <- get_default entry (str "request") (JDict []) ;;
  res <- get_default entry (str "response") (JDict []) ;;
  url <- get req (str "url") ;;
  let url := or_ url (JStr []) in
  method <- get req (str "method") ;;
  let method := or_ method (JStr []) in
  started <- get entry (str "startedDateTime") ;;
  let started := or_ started (JStr []) in
  status <- get res (str "status") ;;
  status <- int_ (or_ status (JInt 0)) ;;
  content <- get res (str "content") ;;
  let content := or_ content (JDict []) in
  Ok (method, url, started, status, content).

(** [os.path.splitext] (POSIX). *)

Fixpoint rfind_from (c : Z) (s : pystr) (i : Z) (found : Z) : Z :=
  match s with
  | [] => found
  | x :: r => rfind_from c r (i + 1) (if x =? c then i else found)
  end.

(** [s.rfind(c)] for a one-character [c]. *)
Definition rfind (c : Z) (s : pystr) : Z := rfind_from c s 0 (-1).

(** [s[i:j]] for [0 <= i]. *)
Definition slice (s : pystr) (i j : Z) : pystr :=
  firstn (Z.to_nat (j - i)) (skipn (Z.to_nat i) s).

Definition splitext (p : pystr) : pystr * pystr :=
  let sepIndex := rfind 47 p in
  let dotIndex := rfind 46 p in
  if (sepIndex <? dotIndex)
     && existsb (fun c => negb (c =? 46)) (slice p (sepIndex + 1) dotIndex)
  then (firstn (Z.to_nat dotIndex) p, skipn (Z.to_nat dotIndex) p)
  else (p, []).

Definition ext_block : list pystr :=
  map str
    [".js"; ".css"; ".png"; ".jpg"; ".jpeg"; ".gif"; ".svg"; ".ico";
     ".woff"; ".woff2"; ".ttf"; ".otf"; ".map"; ".mp4"; ".webm"; ".mp3";
     ".wav"; ".ogg"; ".pdf"; ".zip"; ".gz"; ".br"; ".webp"; ".avif"; ".heic";
     ".eot"]%string.

Definition mem (s : pystr) (l : list pystr) : bool := existsb (str_eqb s) l.

Definition api_segments : list pystr :=
  map str ["/api/"; "/v1/"; "/v2/"; "/graphql"; "/wp-json/"]%string.

Definition write_methods : list pystr :=
  map str ["POST"; "PUT"; "PATCH"; "DELETE"]%string.

(** [base64.b64decode(text).decode("utf-8", errors="ignore")]. *)
Definition b64_text (text : json) : exc pystr :=
  match text with
  | JStr s => bytes <- b64decode s ;; utf8_decode Ignore bytes
  | _ => Raise TypeError
  end.

(** The body of the [try] in the fallback of [is_probable_api]. *)
Definition looks_like_json (text encoding : json) : exc bool :=
  s <- (if eq_str encoding (str "base64")
        then b64_text text
        else as_str text) ;;
  let s := strip s in
  Ok (startswith s (str "{") || startswith s (str "[")).

Definition is_probable_api (entry : json) : exc bool :=
  req <- get_default entry (str "request") (JDict []) ;;
  res <- get_default entry (str "response") (JDict []) ;;
  url <- get req (str "url") ;;
  let url := or_ url (JStr []) in
  method <- get req (str "method") ;;
  method <- as_str (or_ method (JStr [])) ;;
  let method := upper method in
  content <- get res (str "content") ;;
  let content := or_ content (JDict []) in
  cmime <- get content (str "mimeType") ;;
  rmime <- get res (str "mimeType") ;;
  mime <- as_str (or_ (or_ cmime rmime) (JStr [])) ;;
  let mime := lower mime in
  parsed <- urlparse_value url ;;
  let path := path parsed in
  let ext := lower (snd (splitext path)) in
  if mem ext ext_block then Ok false
  else if contains mime (str "json") then Ok true
  else if endswith path (str ".json") then Ok true
  else if existsb (contains (lower path)) api_segments then Ok true
  else if mem method write_methods then Ok true
  else
    text <- get content (str "text") ;;
    if truthy text then
      encoding <- get content (str "encoding") ;;
      Ok (try_except (looks_like_json text encoding) false)
    else Ok false.

Definition decode_body_text (content : json) : exc (option pystr) :=
  text <- get content (str "text") ;;
  match text with
  | JNull => Ok None
  | _ =>
      encoding <- get content (str "encoding") ;;
      Ok (try_except
            (if eq_str encoding (str "base64")
             then s <- b64_text text ;; Ok (Some s)
             else Ok (Some (str_ text)))
            None)
  end.

End WithLib.

Definition hardening_prefixes : list pystr :=
  [ str ")]}'," ++ LF; str ")]}',";
    str "while(1);" ++ LF; str "while(1);";
    str "for(;;);" ++ LF; str "for(;;);" ].

(** The [for] loop of [strip_json_hardening_prefix]: the text after the first
    prefix that [s2] starts with. *)
Fixpoint strip_first_prefix (s2 : pystr) (prefixes : list pystr)
    : option pystr :=
  match prefixes with
  | [] => None
  | p :: rest =>
      if startswith s2 p then Some (lstrip (skipn (List.length p) s2))
      else strip_first_prefix s2 rest
  end.

Definition strip_json_hardening_prefix (s : pystr) : pystr :=
  let s2 := lstrip s in
  match strip_first_prefix s2 hardening_prefixes with
  | Some r => r
  | None => s
  end.

(** [try_parse_json]: the pair [(value, ok)], with [JNull] for [None]. *)
Definition try_parse_json (text : json) : exc (json * bool) :=
  if negb (truthy text) then Ok (JNull, false)
  else
    bind (as_str text) (fun t =>
    let s := strip (strip_json_hardening_prefix t) in
    match s with
    | [] => Ok (JNull, false)
    | _ =>
        match json_loads s with
        | Some v => Ok (v, true)
        | None => Ok (JNull, false)
        end
    end).

(** The dictionary comprehension over [params]. *)
Fixpoint form_fields (params : list json) (acc : list (json * json))
    : exc (list (json * json)) :=
  match params with
  | [] => Ok acc
  | p :: rest =>
      bind (get p (str "name")) (fun name =>
      if truthy name then
        bind (get p (str "value")) (fun value =>
        if hashable name then form_fields rest (dict_set acc name value)
        else Raise TypeError)
      else form_fields rest acc)
  end.

Definition try_extract_request_json (entry : json) : exc (json * bool) :=
  (req <- get_default entry (str "request") (JDict []) ;;
   post <- get req (str "postData") ;;
   let post := or_ post (JDict []) in
   mime <- get post (str "mimeType") ;;
   mime <- as_str (or_ mime (JStr [])) ;;
   let mime := lower mime in
   text <- get post (str "text") ;;
   if negb (truthy text) then Ok (JNull, false)
   else
     first <- (if contains mime (str "json") then try_parse_json text
               else Ok (JNull, false)) ;;
     if snd first then Ok (fst first, true)
     else
       form <- (if contains mime (str "x-www-form-urlencoded") then
                  params <- get post (str "params") ;;
                  match params with
                  | JList ps => obj <- form_fields ps [] ;; Ok (Some (JDict obj))
                  | _ => Ok None
                  end
                else Ok None) ;;
       match form with
       | Some obj => Ok (obj, true)
       | None =>
           last <- try_parse_json text ;;
           if snd last then Ok last else Ok (JNull, false)
       end)%exc.

(** ** The run: summary rows, counters and written files *)

(** One row of [api_calls_summary.csv], with the values the program puts in
    the [dict]. *)
Record row := {
  row_index : Z;
  row_startedDateTime : json;
  row_method : json;
  row_url : json;
  row_status : Z;
  row_response_mimeType : json;
  row_is_probable_api : bool;
  row_response_is_json : bool;
  row_response_json_file : pystr;
  row_request_is_json : bool;
  row_request_json_file : pystr
}.

(** The variables of [main] that the loop updates, and the files written so
    far (latest first; [None] for a file opened and not written to its
    end). *)
Record state := {
  summary_rows : list row;
  total_api : Z;
  total_json_saved : Z;
  total_req_json_saved : Z;
  files : list (pystr * option json);
  warnings : list Z
}.

Definition initial : state :=
  {| summary_rows := []; total_api := 0; total_json_saved := 0;
     total_req_json_saved := 0; files := []; warnings := [] |}.

Definition incr_total_api (st : state) : state :=
  {| summary_rows := summary_rows st; total_api := total_api st + 1;
     total_json_saved := total_json_saved st;
     total_req_json_saved := total_req_json_saved st;
     files := files st; warnings := warnings st |}.

Definition incr_total_json_saved (st : state) : state :=
  {| summary_rows := summary_rows st; total_api := total_api st;
     total_json_saved := total_json_saved st + 1;
     total_req_json_saved := total_req_json_saved st;
     files := files st; warnings := warnings st |}.

Definition incr_total_req_json_saved (st : state) : state :=
  {| summary_rows := summary_rows st; total_api := total_api st;
     total_json_saved := total_json_saved st;
     total_req_json_saved := total_req_json_saved st + 1;
     files := files st; warnings := warnings st |}.

Definition append_row (r : row) (st : state) : state :=
  {| summary_rows := summary_rows st ++ [r]; total_api := total_api st;
     total_json_saved := total_json_saved st;
     total_req_json_saved := total_req_json_saved st;
     files := files st; warnings := warnings st |}.

Definition add_file (f : pystr * option json) (st : state) : state :=
  {| summary_rows := summary_rows st; total_api := total_api st;
     total_json_saved := total_json_saved st;
     total_req_json_saved := total_req_json_saved st;
     files := f :: files st; warnings := warnings st |}.

Definition add_warning (idx : Z) (st : state) : state :=
  {| summary_rows := summary_rows st; total_api := total_api st;
     total_json_saved := total_json_saved st;
     total_req_json_saved := total_req_json_saved st;
     files := files st; warnings := warnings st ++ [idx] |}.

(** Statements that update the state and may raise: what was updated before
    an exception stays updated. *)
Definition M (A : Type) : Type := state -> exc A * state.

Definition ret {A} (a : A) : M A := fun st => (Ok a, st).

Definition mbind {A B} (c : M A) (k : A -> M B) : M B :=
  fun st =>
    match c st with
    | (Ok a, st') => k a st'
    | (Raise e, st') => (Raise e, st')
    end.

Definition lift {A} (c : exc A) : M A := fun st => (c, st).

Definition modify (f : state -> state) : M unit := fun st => (Ok tt, f st).

Declare Scope run_scope.
Delimit Scope run_scope with run.
Notation "x <- c ;; k" := (mbind c (fun x => k))
  (at level 61, c at next level, right associativity) : run_scope.
Notation "' pat <- c ;; k" := (mbind c (fun x => match x with pat => k end))
  (at level 61, pat pattern, c at next level, right associativity) : run_scope.
Notation "c ;;; k" := (mbind c (fun _ => k))
  (at level 61, right associativity) : run_scope.

(** Whether [json.dump(obj, f, ensure_ascii=False)] can be written to a file
    opened as UTF-8. *)
Fixpoint json_encodable (v : json) : bool :=
  match v with
  | JStr s => utf8_encodable s
  | JList l => forallb json_encodable l
  | JDict d =>
      forallb (fun kv => let '(k, x) := kv in
                         json_encodable k && json_encodable x) d
  | _ => true
  end.

(** [os.path.join(a, b)] (POSIX). *)
Definition path_join (a b : pystr) : pystr :=
  if startswith b (str "/") then b
  else if match a with [] => true | _ => endswith a (str "/") end then a ++ b
  else a ++ str "/" ++ b.

(** The decision of the loop body: the [if]/[elif] that sets [include]. *)
Definition include_decision
    (probable_api response_is_json include_nonjson : bool) : bool :=
  if probable_api && (response_is_json || include_nonjson) then true
  else if response_is_json then true
  else false.

(** How one pass of the loop body ends when it does not raise. *)
Inductive pass := Skipped | Appended.

(** Whether [print] can write a text that quotes the exception [e]: the
    standard output encodes as UTF-8 with the strict handler, which refuses a
    lone surrogate. *)
Definition printable (e : exn) : bool :=
  match e with
  | ValueErrorOf text => utf8_encodable text
  | _ => true
  end.

Definition is_none (v : json) : bool :=
  match v with JNull => true | _ => false end.

Section Run.
Context {L : Lib}.
(** [os.path.abspath(args.out)] and [args.include_nonjson]. *)
Variable out_dir : pystr.
Variable include_nonjson : bool.
Local Open Scope run_scope.

Definition responses_dir : pystr := path_join out_dir (str "responses").
Definition requests_dir : pystr := path_join out_dir (str "requests").

Definition write_json (path : pystr) (obj : json) : M unit :=
  fun st =>
    if open_w path then
      if json_encodable obj then (Ok tt, add_file (path, Some obj) st)
      else (Raise UnicodeError, add_file (path, None) st)
    else (Raise OSError, st).

(** The body of the [try] for the entry at position [idx].  ([stamp] is
    computed inside a [try] of its own and never read; it is left out.) *)
Definition process_entry (idx : Z) (entry : json) : M pass :=
  '(method, url, started, status, content) <- lift (get_entry_fields entry) ;;
  probable_api <- lift (is_probable_api entry) ;;
  body <- lift (decode_body_text content) ;;
  let response_text := match body with Some s => s | None => [] end in
  '(response_obj, response_is_json) <- lift (try_parse_json (JStr response_text)) ;;
  if negb (include_decision probable_api response_is_json include_nonjson)
  then ret Skipped
  else
    modify incr_total_api ;;;
    parsed <- lift (urlparse_value url) ;;
    let host :=
      match hostname parsed with
      | Some (c :: h) => c :: h
      | _ => str "host"
      end in
    let path := match path parsed with [] => str "/" | p => p end in
    let safe_path := slugify (replace_char 47 45 path) 60 in
    let hash_src :=
      str_ method ++ str "|" ++ str_ url ++ str "|" ++ str_ started
      ++ str "|" ++ str_of_int status in
    lift (if utf8_encodable hash_src then Ok tt else Raise UnicodeError) ;;;
    let short_hash := firstn 8 (sha1_hexdigest hash_src) in
    let base_name :=
      zfill 5 (str_of_int idx) ++ str "_" ++ str_ method ++ str "_"
      ++ slugify host 60 ++ str "_" ++ safe_path ++ str "_" ++ short_hash in
    response_json_path <-
      (if response_is_json && negb (is_none response_obj) then
         let p := path_join responses_dir (base_name ++ str ".response.json") in
         write_json p response_obj ;;;
         modify incr_total_json_saved ;;;
         ret p
       else ret []) ;;
    '(req_obj, req_is_json) <- lift (try_extract_request_json entry) ;;
    request_json_path <-
      (if req_is_json && negb (is_none req_obj) then
         let p := path_join requests_dir (base_name ++ str ".request.json") in
         write_json p req_obj ;;;
         modify incr_total_req_json_saved ;;;
         ret p
       else ret []) ;;
    mime <- lift (get content (str "mimeType")) ;;
    modify (append_row
      {| row_index := idx;
         row_startedDateTime := started;
         row_method := method;
         row_url := url;
         row_status := status;
         row_response_mimeType := or_ mime (JStr []);
         row_is_probable_api := probable_api;
         row_response_is_json := response_is_json;
         row_response_json_file := response_json_path;
         row_request_is_json := req_is_json;
         row_request_json_file := request_json_path |}) ;;;
    ret Appended.

(** [try: ... except Exception as e: print(f"Warning: ... {e}"); continue].
    The [print] of the handler raises [UnicodeEncodeError] when the text of
    [e] cannot be encoded, and nothing catches that: the run ends there. *)
Definition handle_entry (idx : Z) (entry : json) : M unit :=
  fun st =>
    match process_entry idx entry st with
    | (Ok _, st') => (Ok tt, st')
    | (Raise e, st') =>
        if printable e then (Ok tt, add_warning idx st')
        else (Raise UnicodeError, st')
    end.

(** [for idx, entry in enumerate(entries, start=idx)]. *)
Fixpoint process_entries (idx : Z) (entries : list json) : M unit :=
  fun st =>
    match entries with
    | [] => (Ok tt, st)
    | entry :: rest =>
        match handle_entry idx entry st with
        | (Ok _, st') => process_entries (idx + 1) rest st'
        | (Raise e, st') => (Raise e, st')
        end
    end.

(** [os.path.join(out_dir, "api_calls_summary.csv")]. *)
Definition summary_path : pystr :=
  path_join out_dir (str "api_calls_summary.csv").

(** The text that [main] prints at its end, for [n] entries. *)
Definition closing_message (n : nat) (st : state) : pystr :=
  str "Processed " ++ str_of_int (Z.of_nat n)
  ++ str " entries. Included "
  ++ str_of_int (Z.of_nat (List.length (summary_rows st)))
  ++ str " API-like calls." ++ LF
  ++ str "Saved " ++ str_of_int (total_json_saved st)
  ++ str " response JSON files and "
  ++ str_of_int (total_req_json_saved st)
  ++ str " request JSON files." ++ LF
  ++ str "Summary: " ++ summary_path ++ LF
  ++ str "Responses dir: " ++ responses_dir ++ LF
  ++ str "Requests dir: " ++ requests_dir.

End Run.

(** The cells of a row as [csv.DictWriter] writes them: a string as it is,
    another value through [str]. *)
Definition bool_text (b : bool) : pystr :=
  if b then str "True" else str "False".

Definition row_cells {L : Lib} (r : row) : list pystr :=
  [ str_of_int (row_index r);
    str_ (row_startedDateTime r);
    str_ (row_method r);
    str_ (row_url r);
    str_of_int (row_status r);
    str_ (row_response_mimeType r);
    bool_text (row_is_probable_api r);
    bool_text (row_response_is_json r);
    row_response_json_file r;
    bool_text (row_request_is_json r);
    row_request_json_file r ].

(** Whether [writer.writerow(row)] can write the row to a file opened with
    [encoding="utf-8"]. *)
Definition row_encodable {L : Lib} (r : row) : bool :=
  forallb utf8_encodable (row_cells r).

(** The rows that the loop over [summary_rows] writes: all of them, or those
    before the first that cannot be encoded. *)
Fixpoint written_rows {L : Lib} (rows : list row) : list row :=
  match rows with
  | [] => []
  | r :: rest => if row_encodable r then r :: written_rows rest else []
  end.

(** What a [for] loop iterates over. *)
Definition iterate (v : json) : exc (list json) :=
  match v with
  | JList l => Ok l
  | JDict d => Ok (map fst d)
  | JStr s => Ok (map (fun c => JStr [c]) s)
  | JNull | JBool _ | JInt _ | JFloat _ => Raise TypeError
  end.

(** The input path: not a regular file, or a file with its bytes. *)
Inductive input_file := NotAFile | File (bytes : list Z).

(** How the process ends: [sys.exit(main())], or a traceback. *)
Inductive ending := Exit (code : Z) | Uncaught (e : exn).

Record run := {
  ending_of : ending;
  (** the rows written to [api_calls_summary.csv], when it is written *)
  summary_csv : option (list row);
  final : state
}.

(** [json.load(f)] on a file opened with [encoding="utf-8"]. *)
Definition json_load (bytes : list Z) : exc json :=
  bind (utf8_decode Strict bytes) (fun s =>
  match json_loads s with
  | Some v => Ok v
  | None => Raise ValueError
  end).

(** [(((har or {}).get("log") or {}).get("entries") or [])]. *)
Definition entries_of (har : json) : exc json :=
  (log <- get (or_ har (JDict [])) (str "log") ;;
   entries <- get (or_ log (JDict [])) (str "entries") ;;
   Ok (or_ entries (JList [])))%exc.

(** [main], after the arguments are parsed and the output directories made.
    The summary is written after the loop, outside any [try]: a summary that
    cannot be opened, a row that cannot be encoded and a closing message that
    cannot be printed end the run with an uncaught exception. *)
Definition main {L : Lib} (har_file : input_file) (out_dir : pystr)
    (include_nonjson : bool) : run :=
  match har_file with
  | NotAFile =>
      {| ending_of := Exit 2; summary_csv := None; final := initial |}
  | File bytes =>
      match json_load bytes with
      | Raise _ =>
          {| ending_of := Exit 2; summary_csv := None; final := initial |}
      | Ok har =>
          match entries_of har with
          | Raise e =>
              {| ending_of := Uncaught e; summary_csv := None; final := initial |}
          | Ok entries =>
              if negb (truthy entries) then
                {| ending_of := Exit 0; summary_csv := None; final := initial |}
              else
                match iterate entries with
                | Raise e =>
                    {| ending_of := Uncaught e; summary_csv := None;
                       final := initial |}
                | Ok l =>
                    match process_entries out_dir include_nonjson 1 l initial with
                    | (Raise e, st) =>
                        {| ending_of := Uncaught e; summary_csv := None;
                           final := st |}
                    | (Ok _, st) =>
                        if open_w (summary_path out_dir) then
                          if forallb row_encodable (summary_rows st) then
                            {| ending_of :=
                                 if utf8_encodable
                                      (closing_message out_dir (List.length l) st)
                                 then Exit 0
                                 else Uncaught UnicodeError;
                               summary_csv := Some (summary_rows st);
                               final := st |}
                          else
                            {| ending_of := Uncaught UnicodeError;
                               summary_csv :=
                                 Some (written_rows (summary_rows st));
                               final := st |}
                        else
                          {| ending_of := Uncaught OSError;
                             summary_csv := None; final := st |}
                    end
                end
          end
      end
  end.

(** ** Views of an entry, used to state its properties *)

Section Views.
Context {L : Lib}.
Local Open Scope exc_scope.

(** [req.get("postData") or {}]. *)
Definition post_data (entry : json) : exc json :=
  req <- get_default entry (str "request") (JDict []) ;;
  post <- get req (str "postData") ;;
  Ok (or_ post (JDict [])).

(** [(post.get("mimeType") or "").lower()]. *)
Definition post_mime (post : json) : exc pystr :=
  mime <- get post (str "mimeType") ;;
  mime <- as_str (or_ mime (JStr [])) ;;
  Ok (lower mime).

(** [urlparse(url).path or ""] for the URL of the entry. *)
Definition entry_path (entry : json) : exc pystr :=
  req <- get_default entry (str "request") (JDict []) ;;
  url <- get req (str "url") ;;
  parsed <- urlparse_value (or_ url (JStr [])) ;;
  Ok (path parsed).

(** [(req.get("method") or "").upper()]. *)
Definition entry_method (entry : json) : exc pystr :=
  req <- get_default entry (str "request") (JDict []) ;;
  method <- get req (str "method") ;;
  method <- as_str (or_ method (JStr [])) ;;
  Ok (upper method).

(** [res.get("content") or {}]. *)
Definition entry_content (entry : json) : exc json :=
  res <- get_default entry (str "response") (JDict []) ;;
  content <- get res (str "content") ;;
  Ok (or_ content (JDict [])).

(** The lower-cased mime type of the response. *)
Definition entry_mime (entry : json) : exc pystr :=
  res <- get_default entry (str "response") (JDict []) ;;
  content <- entry_content entry ;;
  cmime <- get content (str "mimeType") ;;
  rmime <- get res (str "mimeType") ;;
  mime <- as_str (or_ (or_ cmime rmime) (JStr [])) ;;
  Ok (lower mime).

(** [response_is_json] of the loop body. *)
Definition response_is_json (entry : json) : exc bool :=
  content <- entry_content entry ;;
  body <- decode_body_text content ;;
  r <- try_parse_json (JStr match body with Some s => s | None => [] end) ;;
  Ok (snd r).

End Views.

(** The entries the loop of [main] iterates over. *)
Definition capture_entries (har_file : input_file) : option (list json) :=
  match har_file with
  | NotAFile => None
  | File bytes =>
      match bind (json_load bytes) (fun har =>
            bind (entries_of har) iterate) with
      | Ok l => Some l
      | Raise _ => None
      end
  end.

(** The request of [entry] reaches the form branch with the list [ps]: its
    body text is non-empty, its mime type contains "x-www-form-urlencoded",
    a mime type containing "json" did not lead to a parsed body, and
    [params] is the list [ps]. *)
Definition urlencoded_post (entry : json) (ps : list json) : Prop :=
  exists post mime text,
    post_data entry = Ok post /\
    post_mime post = Ok mime /\
    get post (str "text") = Ok text /\
    truthy text = true /\
    (contains mime (str "json") = false \/ try_parse_json text = Ok (JNull, false)) /\
    contains mime (str "x-www-form-urlencoded") = true /\
    get post (str "params") = Ok (JList ps).

(** A parameter the comprehension accepts: an object whose name can be a
    key. *)
Definition param_ok (p : json) : bool :=
  match p with
  | JDict d =>
      match dict_lookup d (JStr (str "name")) with
      | Some name => hashable name
      | None => true
      end
  | _ => false
  end.

(** The parameter [p] is named [n]. *)
Definition named (n : pystr) (p : json) : Prop :=
  get p (str "name") = Ok (JStr n).


(** ** Examples: JSON text and a library to run it with *)

(** JSON text written with a backquote for the double quote. *)
Definition json_text (s : string) : pystr := replace_char 96 DQUOTE (str s).

Definition parse (s : string) : json :=
  match json_loads (json_text s) with
  | Some v => v
  | None => JNull
  end.

Fixpoint span_until (stop : pystr) (s : pystr) : pystr * pystr :=
  match s with
  | c :: r =>
      if existsb (Z.eqb c) stop then ([], s)
      else let '(a, b) := span_until stop r in (c :: a, b)
  | [] => ([], [])
  end.

Fixpoint after_scheme (s : pystr) : option pystr :=
  match s with
  | [] => None
  | _ :: r =>
      if startswith s (str "://") then Some (skipn 3 s) else after_scheme r
  end.

(** The full-width forms of / ? # @ and :, which NFKC turns into these
    delimiters. *)
Definition nfkc_delimiter (c : Z) : bool :=
  (c =? 65295) || (c =? 65311) || (c =? 65283) || (c =? 65312) || (c =? 65306).

(** [urlparse] on URLs of the shape scheme://host/path?query#fragment.  A
    host with a full-width delimiter is refused with an error that quotes
    it. *)
Definition example_urlparse (url : pystr) : exc ParseResult :=
  match after_scheme url with
  | Some rest =>
      let '(netloc, rest) := span_until (str "/?#") rest in
      let '(p, _) := span_until (str "?#") rest in
      if existsb nfkc_delimiter netloc then
        Raise (ValueErrorOf
                 (str "netloc '" ++ netloc
                  ++ str "' contains invalid characters under NFKC normalization"))
      else
      Ok {| path := p;
            hostname := match netloc with [] => None | _ => Some (lower netloc) end |}
  | None =>
      let '(p, _) := span_until (str "?#") url in
      Ok {| path := p; hostname := None |}
  end.

(** A library for the examples: decimal [int], a constant digest, a file
    system that accepts every path. *)
Definition example_lib : Lib :=
  {| urlparse := example_urlparse;
     sha1_hexdigest := fun _ => str "da39a3ee5e6b4b0d3255bfef95601890afd80709";
     str_of_value := fun _ => str "<value>";
     int_of_str := fun s =>
       match s with
       | [] => Raise ValueError
       | _ => if forallb is_digit s then Ok (Z_of_digits s) else Raise ValueError
       end;
     open_w := fun _ => true |}.

(** ** Statements about the rows *)

Definition keeps_rows {A} (c : M A) : Prop :=
  forall st res st', c st = (res, st') -> summary_rows st' = summary_rows st.

(** A statement that raises and leaves the rows, or appends one row for the
    entry at [idx] with the two flags [v] and [j]. *)
Definition appends_row (idx : Z) (v j : bool) (c : M pass) : Prop :=
  forall st res st', c st = (res, st') ->
    (exists e, res = Raise e /\ summary_rows st' = summary_rows st) \/
    (res = Ok Appended /\
     exists r, summary_rows st' = summary_rows st ++ [r] /\
               row_index r = idx /\ row_is_probable_api r = v /\
               row_response_is_json r = j).

(** ** Inputs of the examples *)

Definition undecodable_body : json :=
  parse "{`text`: `/w==`, `encoding`: `base64`}".

Definition euro_body : json :=
  parse "{`text`: `4oKs/w==`, `encoding`: `base64`}".

Definition hardened_text : pystr := str ")]}'," ++ LF ++ json_text "{`a`:1}".

Definition hardened_request : json :=
  parse "{`request`: {`postData`: {`mimeType`: `application/json`, `text`: `)]}',\n{\`a\`:1}`}}}".

Definition guarded_request : json :=
  parse "{`request`: {`postData`: {`mimeType`: `Application/JSON; charset=utf-8`, `text`: `  while(1); [1, 2] `}}}".

Definition json_request : json :=
  parse "{`request`: {`postData`: {`mimeType`: `Application/JSON`, `text`: ` {\`a\`: [1, 2]} `}}}".

Definition form_request_without_text : json :=
  parse "{`request`: {`postData`: {`mimeType`: `application/x-www-form-urlencoded`, `params`: [{`name`:`a`,`value`:`1`},{`name`:`b`,`value`:`2`}]}}}".

Definition form_request : json :=
  parse "{`request`: {`postData`: {`mimeType`: `application/x-www-form-urlencoded`, `text`: `a=1&b=2&=9&a=3`, `params`: [{`name`:`a`,`value`:`1`},{`name`:`b`,`value`:`2`},{`name`:``,`value`:`9`},{`value`:`8`},{`name`:`a`,`value`:`3`}]}}}".

Definition form_params : list json :=
  match parse "[{`name`:`a`,`value`:`1`},{`name`:`b`,`value`:`2`},{`name`:``,`value`:`9`},{`value`:`8`},{`name`:`a`,`value`:`3`}]" with
  | JList ps => ps
  | _ => []
  end.

Definition static_asset_entry : json :=
  parse "{`request`: {`url`: `https://cdn.example.com/static/app.JS?v=3`, `method`: `POST`}, `response`: {`status`: 200, `content`: {`mimeType`: `application/json`, `text`: `{}`}}}".

Definition source_map_entry : json :=
  parse "{`request`: {`url`: `https://example.com/assets/app.js.map`, `method`: `GET`}, `response`: {`status`: 200, `content`: {`mimeType`: `application/octet-stream`, `text`: `{\`version\`: 3}`}}}".

Definition malformed_post_entry : json :=
  parse "{`request`: {`url`: `https://example.com/api/x`, `method`: `GET`, `postData`: `oops`}, `response`: {`status`: 200, `content`: {`mimeType`: `application/json`, `text`: `{\`a\`: 1}`}}}".

Definition surrogate_mime_capture : pystr :=
  json_text "{`log`: {`entries`: [
 {`request`: {`url`: `https://example.com/api/ping`, `method`: `GET`}, `response`: {`status`: 200, `content`: {`mimeType`: `text/\ud800`, `text`: `pong`}}},
 {`request`: {`url`: `https://example.com/api/users`, `method`: `GET`}, `response`: {`status`: 200, `content`: {`mimeType`: `application/json`, `text`: `{\`id\`: 1}`}}}
]}}".

Definition surrogate_host_capture : pystr :=
  json_text "{`log`: {`entries`: [
 {`request`: {`url`: `https://example.com/api/users`, `method`: `GET`}, `response`: {`status`: 200, `content`: {`mimeType`: `application/json`, `text`: `{\`id\`: 1}`}}},
 {`request`: {`url`: `https://a\ud800\uff0fb.example.com/api`, `method`: `GET`}, `response`: {`status`: 200, `content`: {`mimeType`: `application/json`, `text`: `{\`id\`: 2}`}}},
 {`request`: {`url`: `https://example.com/api/items`, `method`: `GET`}, `response`: {`status`: 200, `content`: {`mimeType`: `application/json`, `text`: `{\`id\`: 3}`}}}
]}}".

Definition three_entries : pystr :=
  json_text "{`log`: {`entries`: [
 {`request`: {`url`: `https://example.com/api/users`, `method`: `GET`}, `response`: {`status`: 200, `content`: {`mimeType`: `application/json`, `text`: `{\`id\`: 1}`}}},
 {`request`: {`url`: `https://example.com/logo.png`, `method`: `GET`}, `response`: {`status`: 200, `content`: {`mimeType`: `image/png`, `text`: `iVBORw0KGgo=`, `encoding`: `base64`}}},
 {`request`: {`url`: `https://example.com/page`, `method`: `GET`}, `response`: {`status`: 404, `content`: {`mimeType`: `text/html`, `text`: `[1, 2]`}}}
]}}".


(** ** Notions used to state further properties *)

(** The text of [slugify] before it is cut to [max_len]. *)
Definition slug_text (text : pystr) : pystr :=
  collapse_hyphens
    (map (fun c => if slug_char c then c else 45) (lower (strip text))).

(** The hardening prefixes without the three that end in a line feed. *)
Definition short_prefixes : list pystr :=
  [ str ")]}',"; str "while(1);"; str "for(;;);" ].

(** The rows, counters, files and warnings of [d] added to those of [st]. *)
Definition combine_state (st d : state) : state :=
  {| summary_rows := summary_rows st ++ summary_rows d;
     total_api := total_api st + total_api d;
     total_json_saved := total_json_saved st + total_json_saved d;
     total_req_json_saved := total_req_json_saved st + total_req_json_saved d;
     files := files d ++ files st;
     warnings := warnings st ++ warnings d |}.

(** A statement whose outcome and whose updates are the same from every
    state. *)
Definition uniform {A} (c : M A) : Prop :=
  forall st, c st = (fst (c initial), combine_state st (snd (c initial))).

(** [enumerate(entries, start)]. *)
Fixpoint enumerate (start : Z) (entries : list json) : list (Z * json) :=
  match entries with
  | [] => []
  | entry :: rest => (start, entry) :: enumerate (start + 1) rest
  end.

(** What the loop does for the entry [snd ie] at position [fst ie], taken on
    its own. *)
Definition entry_outcome {L : Lib} (out_dir : pystr) (include_nonjson : bool)
    (ie : Z * json) : state :=
  snd (handle_entry out_dir include_nonjson (fst ie) (snd ie) initial).

(** Whether the run ends at the entry: the loop body raises and the warning
    cannot be printed. *)
Definition entry_stops {L : Lib} (out_dir : pystr) (include_nonjson : bool)
    (ie : Z * json) : bool :=
  raises (fst (handle_entry out_dir include_nonjson (fst ie) (snd ie) initial)).

(** The elements of [l] up to and including the first at which [stops]
    holds. *)
Fixpoint visited {A} (stops : A -> bool) (l : list A) : list A :=
  match l with
  | [] => []
  | x :: rest => if stops x then [x] else x :: visited stops rest
  end.

(** The entries the loop visits; none when [main] ends before the loop. *)
Definition captured (har_file : input_file) : list json :=
  match capture_entries har_file with
  | Some l => l
  | None => []
  end.

(** The files of the two kinds, told by their suffix, and the files that
    were written to their end. *)
Definition is_response_file (p : pystr) : bool :=
  endswith p (str ".response.json").

Definition is_request_file (p : pystr) : bool :=
  endswith p (str ".request.json").

Definition complete (f : pystr * option json) : bool :=
  match snd f with Some _ => true | None => false end.

Definition count_files (kind : pystr -> bool) (st : state) : Z :=
  Z.of_nat (List.length
              (filter (fun f => complete f && kind (fst f)) (files st))).

(** The two counters that [main] prints count the files of their kind. *)
Definition counts_ok (st : state) : Prop :=
  total_json_saved st = count_files is_response_file st /\
  total_req_json_saved st = count_files is_request_file st.

(** The file that a row names, if it names one, was announced by the flag
    of the row, is of the kind [kind], and was written to its end with a
    value other than [None]. *)
Definition names_file (flag : bool) (name : pystr) (kind : pystr -> bool)
    (st : state) : Prop :=
  name <> [] ->
  flag = true /\ kind name = true /\
  exists obj, obj <> JNull /\ In (name, Some obj) (files st).

Definition rows_ok (st : state) : Prop :=
  forall r, In r (summary_rows st) ->
    names_file (row_response_is_json r) (row_response_json_file r)
      is_response_file st /\
    names_file (row_request_is_json r) (row_request_json_file r)
      is_request_file st.

(** Whether the loop warns about the entry [snd ie] at position [fst ie]:
    the loop body raises an exception whose text can be printed. *)
Definition entry_warns {L : Lib} (out_dir : pystr) (include_nonjson : bool)
    (ie : Z * json) : bool :=
  match fst (process_entry out_dir include_nonjson (fst ie) (snd ie) initial) with
  | Raise e => printable e
  | Ok _ => false
  end.

(** The names of the files of the entry at position [idx]: a name in the
    directory of its kind that starts with the position, padded to five
    digits, and an underscore. *)
Definition file_at (out_dir : pystr) (idx : Z) (p : pystr) : Prop :=
  exists rest,
    (is_response_file p = true /\
     p = path_join (responses_dir out_dir)
           (zfill 5 (str_of_int idx) ++ str "_" ++ rest)) \/
    (is_request_file p = true /\
     p = path_join (requests_dir out_dir)
           (zfill 5 (str_of_int idx) ++ str "_" ++ rest)).

Definition files_at (out_dir : pystr) (idx : Z) (s : state) : Prop :=
  NoDup (map fst (files s)) /\
  forall f, In f (files s) -> file_at out_dir idx (fst f).

(** A computation whose exceptions all have a text that can be printed. *)
Definition plain {A} (c : exc A) : Prop :=
  forall e, c = Raise e -> printable e = true.

Definition is_str (v : json) : Prop := exists s, v = JStr s.

(** The columns of the rows that hold text. *)
Definition rows_typed (st : state) : Prop :=
  forall r, In r (summary_rows st) ->
    is_str (row_method r) /\ is_str (row_url r) /\
    is_str (row_response_mimeType r) /\
    (truthy (row_startedDateTime r) = true \/ row_startedDateTime r = JStr []).

End ExtractHarJson.


(* ================================================================== *)
(** * url_aggregate.py *)
(* ================================================================== *)

Module UrlAggregate.
Import Py.

(** A row of the input table as [csv.DictReader] yields it: the cell of a
    column, or [None] when the row has no such cell. *)
Record csv_row := {
  url : option pystr;
  status : option pystr;
  response_json_file : option pystr
}.

(** [cell or ""]. *)
Definition or_empty (cell : option pystr) : pystr :=
  match cell with
  | Some s => s
  | None => []
  end.

Definition nonempty (s : pystr) : bool :=
  match s with [] => false | _ => true end.

(** A [set] of strings, kept without repetition. *)
Definition set_add (x : pystr) (s : list pystr) : list pystr :=
  if existsb (str_eqb x) s then s else s ++ [x].

(** The value of a URL in [url_map]: [{"statuses": set(), "files": set()}]. *)
Record data := { statuses : list pystr; files : list pystr }.

(** [url_map], an [OrderedDict]: the URLs in the order they were first seen. *)
Definition url_map := list (pystr * data).

Fixpoint has_key (m : url_map) (u : pystr) : bool :=
  match m with
  | [] => false
  | (k, _) :: r => str_eqb k u || has_key r u
  end.

(** [f] applied to the value of [u]. *)
Fixpoint update (m : url_map) (u : pystr) (f : data -> data) : url_map :=
  match m with
  | [] => []
  | (k, d) :: r => if str_eqb k u then (k, f d) :: r else (k, d) :: update r u f
  end.

Definition add_status (s : pystr) (d : data) : data :=
  {| statuses := set_add s (statuses d); files := files d |}.

Definition add_file (f : pystr) (d : data) : data :=
  {| statuses := statuses d; files := set_add f (files d) |}.

(** The body of the loop over the rows of the input. *)
Definition scan_row (m : url_map) (row : csv_row) : url_map :=
  let u := strip (or_empty (url row)) in
  if negb (nonempty u) then m
  else
    let st := strip (or_empty (status row)) in
    let resp_file := strip (or_empty (response_json_file row)) in
    let m := if has_key m u then m
             else m ++ [(u, {| statuses := []; files := [] |})] in
    let m := if nonempty st then update m u (add_status st) else m in
    let m := if nonempty resp_file then update m u (add_file resp_file) else m in
    m.

Definition scan_rows (rows : list csv_row) : url_map :=
  fold_left scan_row rows [].

(** [sorted]: a stable sort by a comparison. *)
Fixpoint insert_sorted (leb : pystr -> pystr -> bool) (x : pystr)
    (l : list pystr) : list pystr :=
  match l with
  | [] => [x]
  | y :: r => if leb x y then x :: l else y :: insert_sorted leb x r
  end.

Definition sorted (leb : pystr -> pystr -> bool) (l : list pystr) : list pystr :=
  fold_right (insert_sorted leb) [] l.

(** The order of [key=lambda s: (len(s), s)]. *)
Definition len_then_lex_leb (a b : pystr) : bool :=
  (List.length a <? List.length b)%nat
  || ((List.length a =? List.length b)%nat && str_leb a b).

(** A row of the output table. *)
Record out_row := {
  out_url : pystr;
  out_statuses : pystr;
  out_response_files : pystr
}.

Definition write_row (sep : pystr) (entry : pystr * data) : out_row :=
  let '(u, d) := entry in
  let statuses_sorted := sorted len_then_lex_leb (statuses d) in
  let files_sorted := sorted str_leb (files d) in
  {| out_url := u;
     out_statuses := join sep statuses_sorted;
     out_response_files := join sep files_sorted |}.

(** The default of [--sep]. *)
Definition default_sep : pystr := str "|".

(** [main]: the rows written to the output, for the rows read. *)
Definition main (rows : list csv_row) (sep : pystr) : list out_row :=
  map (write_row sep) (scan_rows rows).

(** ** Notions used to state the properties *)

(** The distinct elements of a list, each at its first occurrence. *)
Definition first_seen (l : list pystr) : list pystr :=
  fold_left (fun seen x => set_add x seen) l [].

(** The cells of a row as the loop reads them. *)
Definition url_of (row : csv_row) : pystr := strip (or_empty (url row)).
Definition status_of (row : csv_row) : pystr := strip (or_empty (status row)).
Definition file_of (row : csv_row) : pystr :=
  strip (or_empty (response_json_file row)).

(** The strict orders of the two sorts. *)
Definition len_then_lex_lt (a b : pystr) : Prop :=
  (List.length a < List.length b)%nat
  \/ (List.length a = List.length b /\ str_compare a b = Lt).

Definition lex_lt (a b : pystr) : Prop := str_compare a b = Lt.

(** ** The invariant of the scan *)

(** The set [S] holds the non-empty cells [cell row] of the rows of [rows]
    whose URL is [u]. *)
Definition collected (cell : csv_row -> pystr) (rows : list csv_row)
    (u : pystr) (S : list pystr) : Prop :=
  forall s, In s S <->
    s <> [] /\ exists row, In row rows /\ url_of row = u /\ cell row = s.

Definition data_ok (rows : list csv_row) (u : pystr) (d : data) : Prop :=
  NoDup (statuses d) /\ NoDup (files d) /\
  collected status_of rows u (statuses d) /\
  collected file_of rows u (files d).

Definition scan_ok (rows : list csv_row) (m : url_map) : Prop :=
  map fst m = first_seen (filter nonempty (map url_of rows)) /\
  (forall u d, In (u, d) m -> data_ok rows u d).

(** What the loop body does to the value of the URL of its row. *)
Definition collect (row : csv_row) (d : data) : data :=
  let d := if nonempty (status_of row) then add_status (status_of row) d else d in
  if nonempty (file_of row) then add_file (file_of row) d else d.

(** ** Inputs of the examples *)

Definition row_of (u s f : string) : csv_row :=
  {| url := Some (str u); status := Some (str s);
     response_json_file := Some (str f) |}.

Definition three_rows : list csv_row :=
  [row_of "A" "200" "f1"; row_of "A" "200" "f2"; row_of "A" "404" ""].

Definition padded_rows : list csv_row :=
  [row_of " A" "200" "f1"; row_of "A" "404" ""].

Definition row_without_status : csv_row := row_of "A" "" "f1".


(** ** Further notions *)

(** A decimal numeral without sign and without leading zeros, as a status
    code is written. *)
Definition decimal (s : pystr) : bool :=
  match s with
  | [] => false
  | c :: r =>
      forallb is_digit s
      && (negb (c =? 48) || match r with [] => true | _ => false end)
  end.

(** The order of the numbers that two numerals stand for. *)
Definition numerically_lt (a b : pystr) : Prop :=
  Z_of_digits a < Z_of_digits b.

End UrlAggregate.


(* ================================================================== *)
(** * Facts about the runtime *)
(* ================================================================== *)

Module PyFacts.
Import Py.

Lemma str_eqb_eq (a b : pystr) : str_eqb a b = true <-> a = b.
Proof.
  revert b; induction a as [|x a IH]; intros [|y b]; simpl; split;
    try congruence; try reflexivity.
  - intros H. apply andb_prop in H as [Hx Hab].
    apply Z.eqb_eq in Hx. apply IH in Hab. congruence.
  - intros H. injection H as -> ->. rewrite Z.eqb_refl. simpl. now apply IH.
Qed.

Lemma str_eqb_refl (a : pystr) : str_eqb a a = true.
Proof. now apply str_eqb_eq. Qed.

Lemma str_eqb_neq (a b : pystr) : str_eqb a b = false <-> a <> b.
Proof.
  split.
  - intros H E. apply str_eqb_eq in E. congruence.
  - intros H. destruct (str_eqb a b) eqn:E; [|reflexivity].
    apply str_eqb_eq in E. contradiction.
Qed.

Lemma str_compare_eq (a b : pystr) : str_compare a b = Eq <-> a = b.
Proof.
  revert b; induction a as [|x a IH]; intros [|y b]; simpl; split;
    try congruence; try reflexivity.
  - destruct (x ?= y) eqn:E; try discriminate.
    apply Z.compare_eq in E. intros H. apply IH in H. congruence.
  - intros H. injection H as -> ->. rewrite Z.compare_refl. now apply IH.
Qed.

Lemma str_compare_antisym (a b : pystr) :
  str_compare b a = CompOpp (str_compare a b).
Proof.
  revert b; induction a as [|x a IH]; intros [|y b]; simpl; try reflexivity.
  rewrite (Z.compare_antisym x y).
  destruct (x ?= y); simpl; auto.
Qed.

Lemma str_compare_lt_trans (a b c : pystr) :
  str_compare a b = Lt -> str_compare b c = Lt -> str_compare a c = Lt.
Proof.
  revert b c; induction a as [|x a IH]; intros [|y b] [|z c]; simpl;
    try congruence.
  destruct (x ?= y) eqn:Exy; try discriminate;
    destruct (y ?= z) eqn:Eyz; try discriminate; intros H1 H2.
  - apply Z.compare_eq in Exy, Eyz. subst. rewrite Z.compare_refl. eauto.
  - apply Z.compare_eq in Exy. subst. now rewrite Eyz.
  - apply Z.compare_eq in Eyz. subst. now rewrite Exy.
  - rewrite Z.compare_lt_iff in Exy, Eyz.
    assert ((x ?= z) = Lt) as Hlt by (apply Z.compare_lt_iff; lia).
    now rewrite Hlt.
Qed.

(** [key_eqb] against a string key is plain equality. *)
Lemma key_eqb_str_r (k : json) (n : pystr) :
  key_eqb k (JStr n) = true <-> k = JStr n.
Proof.
  destruct k; simpl; split; try congruence.
  - intros H. apply str_eqb_eq in H. congruence.
  - intros H. injection H as ->. apply str_eqb_refl.
Qed.

Lemma key_eqb_str_l (k : json) (n : pystr) :
  key_eqb (JStr n) k = true <-> k = JStr n.
Proof.
  destruct k; simpl; split; try congruence.
  - intros H. apply str_eqb_eq in H. congruence.
  - intros H. injection H as ->. apply str_eqb_refl.
Qed.

Lemma bind_ok {A B} (c : exc A) (k : A -> exc B) (b : B) :
  bind c k = Ok b -> exists a, c = Ok a /\ k a = Ok b.
Proof. destruct c; simpl; [eauto | discriminate]. Qed.

(** Decoding with [errors="ignore"] never raises. *)
Lemma utf8_decode_ignore_total (bs : list Z) :
  exists s, utf8_decode Ignore bs = Ok s.
Proof.
  assert (H : forall n bs, (List.length bs <= n)%nat ->
                           exists s, utf8_decode Ignore bs = Ok s).
  { clear bs. induction n as [|n IH]; intros bs Hn.
    - destruct bs; [simpl; eauto | simpl in Hn; lia].
    - destruct bs as [|b1 t1]; [simpl; eauto|].
      simpl in Hn.
      assert (H1 : exists s, utf8_decode Ignore t1 = Ok s) by (apply IH; lia).
      assert (Hemit : forall c k, (exists s, k = Ok s) ->
                                  exists s, emit c k = Ok s).
      { intros c k [s ->]. simpl. eauto. }
      cbn [utf8_decode on_error].
      repeat match goal with
      | |- exists s, (if ?c then _ else _) = Ok s => destruct c
      | |- exists s, emit _ _ = Ok s => apply Hemit
      | |- exists s, Ok _ = Ok s => eauto
      | |- exists s, utf8_decode Ignore ?t = Ok s =>
          first [ exact H1 | apply IH; simpl in *; lia ]
      | |- exists s, match ?t with [] => _ | _ :: _ => _ end = Ok s =>
          destruct t; simpl in Hn
      end. }
  eapply H. reflexivity.
Qed.


(** ** Stripping *)

Lemma lstrip_snoc (l : pystr) (c : Z) :
  is_space c = false -> lstrip (l ++ [c]) = lstrip l ++ [c].
Proof.
  intros Hc. induction l as [|x l IH]; simpl.
  - now rewrite Hc.
  - destruct (is_space x); [exact IH | reflexivity].
Qed.

Lemma rstrip_cons (c : Z) (s : pystr) :
  is_space c = false -> rstrip (c :: s) = c :: rstrip s.
Proof.
  intros Hc. unfold rstrip. simpl.
  now rewrite (lstrip_snoc _ _ Hc), rev_app_distr.
Qed.

Lemma lstrip_head (s r : pystr) (c : Z) :
  lstrip s = c :: r -> is_space c = false.
Proof.
  induction s as [|x s IH]; simpl; [discriminate|].
  destruct (is_space x) eqn:E; [exact IH|].
  intros H. injection H as <- _. exact E.
Qed.

Lemma lstrip_idem (s : pystr) : lstrip (lstrip s) = lstrip s.
Proof.
  destruct (lstrip s) as [|c r] eqn:E; [reflexivity|].
  simpl. now rewrite (lstrip_head _ _ _ E).
Qed.

Lemma rstrip_idem (s : pystr) : rstrip (rstrip s) = rstrip s.
Proof. unfold rstrip. now rewrite rev_involutive, lstrip_idem. Qed.

Lemma strip_lstrip (s : pystr) : strip (lstrip s) = strip s.
Proof. unfold strip. now rewrite lstrip_idem. Qed.

Lemma strip_idem (s : pystr) : strip (strip s) = strip s.
Proof.
  unfold strip. destruct (lstrip s) as [|c r] eqn:E; [reflexivity|].
  pose proof (lstrip_head _ _ _ E) as Hc.
  rewrite (rstrip_cons _ _ Hc). simpl. rewrite Hc.
  now rewrite (rstrip_cons _ _ Hc), rstrip_idem.
Qed.

Lemma lstrip_spaces (ws s : pystr) :
  (forall c, In c ws -> is_space c = true) -> lstrip (ws ++ s) = lstrip s.
Proof.
  induction ws as [|x ws IH]; intros H; [reflexivity|].
  simpl. rewrite (H x (or_introl eq_refl)). apply IH.
  intros c Hc. apply H. now right.
Qed.

Lemma lstrip_id (s : pystr) :
  (forall c, In c s -> is_space c = false) -> lstrip s = s.
Proof.
  destruct s as [|c r]; [reflexivity|]. intros H. simpl.
  now rewrite (H c (or_introl eq_refl)).
Qed.

Lemma strip_id (s : pystr) :
  (forall c, In c s -> is_space c = false) -> strip s = s.
Proof.
  intros H. unfold strip, rstrip. rewrite (lstrip_id s H).
  rewrite lstrip_id; [apply rev_involutive|].
  intros c Hc. apply H. now apply in_rev.
Qed.

Lemma lstrip_in (s : pystr) (c : Z) : In c (lstrip s) -> In c s.
Proof.
  induction s as [|x s IH]; simpl; [auto|].
  destruct (is_space x); [intros H; right; now apply IH | auto].
Qed.

Lemma strip_in (s : pystr) (c : Z) : In c (strip s) -> In c s.
Proof.
  unfold strip, rstrip. intros H. apply in_rev in H.
  apply lstrip_in in H. apply in_rev in H. now apply lstrip_in.
Qed.

(** The text that [strip] returns neither starts nor ends with a space. *)
Lemma strip_head (s r : pystr) (c : Z) :
  strip s = c :: r -> is_space c = false.
Proof.
  unfold strip. destruct (lstrip s) as [|x t] eqn:E; [discriminate|].
  pose proof (lstrip_head _ _ _ E) as Hx.
  rewrite (rstrip_cons _ _ Hx). intros H. now injection H as <- _.
Qed.

(** ** Prefixes and substrings *)

Lemma startswith_spec (s p : pystr) :
  startswith s p = true <-> exists b, s = p ++ b.
Proof.
  revert s. induction p as [|x p IH]; intros s.
  - destruct s; simpl; split; eauto.
  - destruct s as [|y s]; simpl.
    + split; [discriminate | intros [b H]; discriminate].
    + rewrite andb_true_iff, Z.eqb_eq, IH. split.
      * intros (-> & b & ->). eauto.
      * intros [b H]. injection H as -> ->. eauto.
Qed.

Lemma contains_cons (c : Z) (s p : pystr) :
  contains (c :: s) p = startswith (c :: s) p || contains s p.
Proof. reflexivity. Qed.

Lemma contains_spec (s p : pystr) :
  contains s p = true <-> exists a b, s = a ++ p ++ b.
Proof.
  induction s as [|y s IH].
  - cbn [contains]. rewrite orb_false_r, startswith_spec. split.
    + intros [b H]. exists [], b. exact H.
    + intros (a & b & H). destruct a; [eauto | discriminate].
  - rewrite contains_cons, orb_true_iff, startswith_spec, IH. split.
    + intros [[b H] | (a & b & H)].
      * exists [], b. exact H.
      * exists (y :: a), b. now rewrite H.
    + intros (a & b & H). destruct a as [|z a]; [left; eauto | right].
      injection H as _ ->. eauto.
Qed.

Lemma contains_app_l (a b p : pystr) :
  contains a p = true -> contains (a ++ b) p = true.
Proof.
  rewrite !contains_spec. intros (x & y & ->). exists x, (y ++ b).
  now rewrite <- !app_assoc.
Qed.

Lemma skipn_length_app {A} (a b : list A) : skipn (List.length a) (a ++ b) = b.
Proof. induction a as [|x a IH]; [reflexivity | exact IH]. Qed.

Lemma lstrip_chars_suffix (chars s : pystr) :
  exists a, s = a ++ lstrip_chars chars s.
Proof.
  induction s as [|c r [a IH]]; simpl; [now exists []|].
  destruct (existsb (Z.eqb c) chars); [|now exists []].
  exists (c :: a). simpl. now f_equal.
Qed.

Lemma rstrip_chars_prefix (chars s : pystr) :
  exists b, s = rstrip_chars chars s ++ b.
Proof.
  unfold rstrip_chars.
  destruct (lstrip_chars_suffix chars (rev s)) as [a H].
  exists (rev a). rewrite <- rev_app_distr, <- H. now rewrite rev_involutive.
Qed.

(** ** Decimal numerals *)

Lemma digits_value_shift (d : pystr) (x : Z) :
  fold_left (fun acc c => acc * 10 + (c - 48)) d x
  = x * 10 ^ Z.of_nat (List.length d) + Z_of_digits d.
Proof.
  unfold Z_of_digits. revert x.
  induction d as [|c d IH]; intros x; cbn [fold_left List.length].
  - change (Z.of_nat 0) with 0. rewrite Z.pow_0_r. lia.
  - rewrite (IH (x * 10 + (c - 48))), (IH (0 * 10 + (c - 48))).
    rewrite Nat2Z.inj_succ, Z.pow_succ_r by lia. ring.
Qed.

Lemma Z_of_digits_cons (c : Z) (d : pystr) :
  Z_of_digits (c :: d) = (c - 48) * 10 ^ Z.of_nat (List.length d) + Z_of_digits d.
Proof.
  unfold Z_of_digits at 1. cbn [fold_left]. rewrite digits_value_shift. ring.
Qed.

Lemma Z_of_digits_zeros (n : nat) (s : pystr) :
  Z_of_digits (List.repeat 48 n ++ s) = Z_of_digits s.
Proof.
  induction n as [|n IH]; [reflexivity|]. cbn [List.repeat app].
  rewrite Z_of_digits_cons, IH. lia.
Qed.

Lemma is_digit_range (c : Z) : is_digit c = true <-> 48 <= c <= 57.
Proof. unfold is_digit. rewrite andb_true_iff, !Z.leb_le. tauto. Qed.

Lemma Z_of_digits_bound (d : pystr) :
  (forall c, In c d -> is_digit c = true) ->
  0 <= Z_of_digits d < 10 ^ Z.of_nat (List.length d).
Proof.
  induction d as [|c d IH]; intros H.
  - cbn. lia.
  - rewrite Z_of_digits_cons. cbn [List.length].
    rewrite Nat2Z.inj_succ, Z.pow_succ_r by lia.
    assert (Hc : 48 <= c <= 57) by (apply is_digit_range, H; now left).
    assert (Hd : 0 <= Z_of_digits d < 10 ^ Z.of_nat (List.length d))
      by (apply IH; intros x Hx; apply H; now right).
    nia.
Qed.

Lemma digits_of_pos_value (fuel : nat) :
  forall (n : Z) (acc : pystr),
    0 <= n < Z.of_nat fuel ->
    Z_of_digits (digits_of_pos fuel n acc)
    = n * 10 ^ Z.of_nat (List.length acc) + Z_of_digits acc.
Proof.
  induction fuel as [|f IH]; intros n acc Hn; [lia|].
  cbn [digits_of_pos]. destruct (n <? 10) eqn:E.
  - apply Z.ltb_lt in E. rewrite Z_of_digits_cons.
    rewrite Z.mod_small by lia. lia.
  - apply Z.ltb_ge in E.
    assert (Hdiv : 0 <= n / 10 < n)
      by (split; [apply Z.div_pos; lia | apply Z.div_lt; lia]).
    rewrite IH by lia. rewrite Z_of_digits_cons. cbn [List.length].
    rewrite Nat2Z.inj_succ, Z.pow_succ_r by lia.
    pose proof (Z.div_mod n 10 ltac:(lia)) as Hdm.
    set (p := 10 ^ Z.of_nat (List.length acc)) in *.
    replace (48 + n mod 10 - 48) with (n mod 10) by lia.
    rewrite Hdm at 3. ring.
Qed.

Lemma digits_of_pos_digits (fuel : nat) :
  forall (n : Z) (acc : pystr),
    (forall c, In c acc -> is_digit c = true) ->
    forall c, In c (digits_of_pos fuel n acc) -> is_digit c = true.
Proof.
  induction fuel as [|f IH]; intros n acc Hacc c; [apply Hacc|].
  cbn [digits_of_pos].
  assert (Hacc' : forall x, In x ((48 + n mod 10) :: acc) -> is_digit x = true).
  { intros x [<- | Hx]; [|now apply Hacc].
    apply is_digit_range. pose proof (Z.mod_pos_bound n 10 ltac:(lia)). lia. }
  destruct (n <? 10); [apply Hacc' | now apply IH].
Qed.

Lemma str_of_int_value (n : Z) : 0 <= n -> Z_of_digits (str_of_int n) = n.
Proof.
  intros Hn. unfold str_of_int.
  replace (n <? 0) with false by (symmetry; apply Z.ltb_ge; lia).
  rewrite digits_of_pos_value by lia. cbn. lia.
Qed.

Lemma str_of_int_digits (n : Z) :
  0 <= n -> forall c, In c (str_of_int n) -> is_digit c = true.
Proof.
  intros Hn. unfold str_of_int.
  replace (n <? 0) with false by (symmetry; apply Z.ltb_ge; lia).
  apply digits_of_pos_digits. intros c [].
Qed.

Lemma zfill_value (w : nat) (n : Z) :
  0 <= n -> Z_of_digits (zfill w (str_of_int n)) = n.
Proof.
  intros Hn. unfold zfill. now rewrite Z_of_digits_zeros, str_of_int_value.
Qed.

Lemma zfill_digits (w : nat) (n : Z) :
  0 <= n -> forall c, In c (zfill w (str_of_int n)) -> is_digit c = true.
Proof.
  intros Hn c Hc. unfold zfill in Hc. apply in_app_iff in Hc as [Hc | Hc].
  - apply repeat_spec in Hc. now subst.
  - now apply (str_of_int_digits n).
Qed.

(** Two texts that are equal and are each a text without [c], then [c]:
    the texts before [c] are equal. *)
Lemma split_at_first (c : Z) (a b x y : pystr) :
  ~ In c a -> ~ In c b -> a ++ c :: x = b ++ c :: y -> a = b.
Proof.
  revert b. induction a as [|h a IH]; intros [|k b] Ha Hb H.
  - reflexivity.
  - injection H as <- _. exfalso. apply Hb. now left.
  - injection H as -> _. exfalso. apply Ha. now left.
  - injection H as -> H. f_equal. apply IH; [| |exact H].
    + intros Hin. apply Ha. now right.
    + intros Hin. apply Hb. now right.
Qed.

(** Digit strings of one length compare as their numbers do. *)
Lemma digits_compare (a : pystr) :
  forall (b : pystr) (x y : Z),
    List.length a = List.length b ->
    (forall c, In c a -> is_digit c = true) ->
    (forall c, In c b -> is_digit c = true) ->
    (fold_left (fun acc c => acc * 10 + (c - 48)) a x
     ?= fold_left (fun acc c => acc * 10 + (c - 48)) b y)
    = match x ?= y with Eq => str_compare a b | c => c end.
Proof.
  induction a as [|c a IH]; intros [|d b] x y Hlen Ha Hb; try discriminate.
  - cbn. now destruct (x ?= y).
  - cbn [fold_left str_compare]. injection Hlen as Hlen.
    rewrite IH; [|exact Hlen| |].
    + assert (Hc : 48 <= c <= 57) by (apply is_digit_range, Ha; now left).
      assert (Hd : 48 <= d <= 57) by (apply is_digit_range, Hb; now left).
      destruct (Z.compare_spec x y) as [-> | Hxy | Hxy].
      * destruct (Z.compare_spec c d) as [-> | Hcd | Hcd].
        -- now rewrite Z.compare_refl.
        -- replace (y * 10 + (c - 48) ?= y * 10 + (d - 48)) with Lt;
             [reflexivity | symmetry; apply Z.compare_lt_iff; lia].
        -- replace (y * 10 + (c - 48) ?= y * 10 + (d - 48)) with Gt;
             [reflexivity | symmetry; apply Z.compare_gt_iff; lia].
      * replace (x * 10 + (c - 48) ?= y * 10 + (d - 48)) with Lt;
          [reflexivity | symmetry; apply Z.compare_lt_iff; lia].
      * replace (x * 10 + (c - 48) ?= y * 10 + (d - 48)) with Gt;
          [reflexivity | symmetry; apply Z.compare_gt_iff; lia].
    + intros z Hz. apply Ha. now right.
    + intros z Hz. apply Hb. now right.
Qed.

(** The numeral of a positive number does not start with a zero. *)
Lemma digits_of_pos_head (fuel : nat) :
  forall (n : Z) (acc : pystr),
    0 < n < Z.of_nat fuel ->
    exists c r, digits_of_pos fuel n acc = c :: r /\ c <> 48.
Proof.
  induction fuel as [|f IH]; intros n acc Hn; [lia|].
  cbn [digits_of_pos]. destruct (n <? 10) eqn:E.
  - apply Z.ltb_lt in E. exists (48 + n mod 10), acc.
    split; [reflexivity|]. rewrite Z.mod_small by lia. lia.
  - apply Z.ltb_ge in E. apply IH.
    split; [apply Z.div_str_pos; lia|].
    assert (n / 10 < n) by (apply Z.div_lt; lia). lia.
Qed.

End PyFacts.


(* ================================================================== *)
(** * Properties of extract_har_json.py *)
(* ================================================================== *)

Module ExtractHarJsonProps.
Import Py PyFacts ExtractHarJson.

(** Inversion of a monadic equation: a [bind] that returned did so through
    a first step that returned. *)
Ltac exc_inv H :=
  let a := fresh "a" in
  let Ha := fresh "Ha" in
  apply bind_ok in H; destruct H as (a & Ha & H).

(** A closed statement decided by evaluation. *)
Ltac run := vm_compute; repeat split; reflexivity.

(** ** Body decoding *)

Lemma emit_ok (c : Z) (k : exc pystr) (s : pystr) :
  emit c k = Ok s -> exists s0, k = Ok s0 /\ s = c :: s0.
Proof.
  unfold emit. intros H. exc_inv H. injection H as <-. eauto.
Qed.

(** Well-formed UTF-8 decodes to the same text under every handler. *)
Lemma utf8_decode_strict_ignore (bs : list Z) (s : pystr) :
  utf8_decode Strict bs = Ok s -> utf8_decode Ignore bs = Ok s.
Proof.
  assert (H : forall n bs s, (List.length bs <= n)%nat ->
            utf8_decode Strict bs = Ok s -> utf8_decode Ignore bs = Ok s).
  { clear bs s. induction n as [|n IH]; intros bs s Hn Hs.
    - destruct bs; [exact Hs | simpl in Hn; lia].
    - destruct bs as [|b1 t1]; [exact Hs|].
      simpl in Hn. cbn [utf8_decode on_error] in *.
      repeat match goal with
      | H : Raise _ = Ok _ |- _ => discriminate H
      | H : (if ?c then _ else _) = Ok _ |- _ => destruct c
      | H : match ?t with [] => _ | _ :: _ => _ end = Ok _ |- _ =>
          destruct t; simpl in Hn
      | H : emit _ _ = Ok _ |- _ =>
          apply emit_ok in H; destruct H as (s0 & H & ->);
          apply IH in H; [rewrite H; reflexivity | simpl in *; lia]
      end. }
  eapply H. reflexivity.
Qed.

(** C2 (as amended): for a content object whose [encoding] is "base64",
    [decode_body_text] decodes the text as base64 and then as UTF-8, dropping
    the bytes that do not decode; it never raises: an absent text, a text
    that is no string and a base64 failure give [None].  Text that is
    well-formed UTF-8 decodes to itself. *)
Theorem C2_base64_body_drops_undecodable_bytes {L : Lib}
    (content text enc : json) :
  get content (str "text") = Ok text ->
  get content (str "encoding") = Ok enc ->
  eq_str enc (str "base64") = true ->
  raises (decode_body_text content) = false /\
  (forall t bytes, text = JStr t -> b64decode t = Ok bytes ->
     exists s, utf8_decode Ignore bytes = Ok s /\
               decode_body_text content = Ok (Some s) /\
               (forall s', utf8_decode Strict bytes = Ok s' -> s' = s)) /\
  (forall t e, text = JStr t -> b64decode t = Raise e ->
     decode_body_text content = Ok None) /\
  ((forall t, text <> JStr t) -> decode_body_text content = Ok None).
Proof.
  intros Htext Henc Hb64.
  assert (Hstr : forall t, text = JStr t ->
            decode_body_text content =
            Ok (try_except (bind (bind (b64decode t) (utf8_decode Ignore))
                              (fun s => Ok (Some s))) None)).
  { intros t ->. unfold decode_body_text. rewrite Htext. cbn [bind].
    rewrite Henc. cbn [bind]. rewrite Hb64. reflexivity. }
  assert (Hother : (forall t, text <> JStr t) ->
            decode_body_text content = Ok None).
  { intros Hn. unfold decode_body_text. rewrite Htext. cbn [bind].
    destruct text; try reflexivity; try (rewrite Henc; cbn [bind];
      rewrite Hb64; reflexivity).
    exfalso. eapply Hn. reflexivity. }
  repeat split.
  - destruct text; try (rewrite Hother; [reflexivity | congruence]).
    rewrite (Hstr s eq_refl). reflexivity.
  - intros t bytes -> Hbytes.
    destruct (utf8_decode_ignore_total bytes) as [s Hs].
    exists s. rewrite (Hstr t eq_refl), Hbytes. cbn [bind]. rewrite Hs.
    repeat split; try reflexivity.
    intros s' Hs'. apply utf8_decode_strict_ignore in Hs'. congruence.
  - intros t e -> Hbytes. rewrite (Hstr t eq_refl), Hbytes. reflexivity.
  - exact Hother.
Qed.

(** At the base64 text of the bytes E2 82 AC FF ("4oKs/w=="), the euro sign
    is decoded and the byte FF is dropped. *)
Lemma C2_witness_euro_body :
  get euro_body (str "text") = Ok (JStr (str "4oKs/w==")) /\
  get euro_body (str "encoding") = Ok (JStr (str "base64")) /\
  decode_body_text (L := example_lib) euro_body = Ok (Some [8364]).
Proof.
  assert (Ht : get euro_body (str "text") = Ok (JStr (str "4oKs/w=="))) by run.
  assert (He : get euro_body (str "encoding") = Ok (JStr (str "base64"))) by run.
  split; [exact Ht | split; [exact He |]].
  destruct (C2_base64_body_drops_undecodable_bytes (L := example_lib)
              euro_body _ _ Ht He eq_refl) as (_ & H & _).
  destruct (H (str "4oKs/w==") [226; 130; 172; 255] eq_refl eq_refl)
    as (s & Hs & Hd & _).
  rewrite Hd. vm_compute in Hs. injection Hs as <-. reflexivity.
Defined.

(** C2 as stated fails: the body "/w==" is the single byte FF, which is not
    UTF-8.  With replacement characters the text would be U+FFFD; the
    decoder returns the empty text. *)
Lemma C2_counterexample_byte_dropped_not_replaced :
  get undecodable_body (str "encoding") = Ok (JStr (str "base64")) /\
  b64decode (str "/w==") = Ok [255] /\
  utf8_decode Replace [255] = Ok [REPLACEMENT_CHARACTER] /\
  decode_body_text (L := example_lib) undecodable_body = Ok (Some []).
Proof. run. Qed.

(** ** Request JSON recovery *)

(** [try_extract_request_json] once the post data, its mime type and its
    text are read. *)
Lemma request_recovery_unfold (entry post : json) (mime : pystr) (text : json) :
  post_data entry = Ok post ->
  post_mime post = Ok mime ->
  get post (str "text") = Ok text ->
  try_extract_request_json entry =
  if negb (truthy text) then Ok (JNull, false)
  else
    bind (if contains mime (str "json") then try_parse_json text
          else Ok (JNull, false)) (fun first =>
    if snd first then Ok (fst first, true)
    else
      bind (if contains mime (str "x-www-form-urlencoded") then
              bind (get post (str "params")) (fun params =>
              match params with
              | JList ps =>
                  bind (form_fields ps []) (fun obj => Ok (Some (JDict obj)))
              | _ => Ok None
              end)
            else Ok None) (fun form =>
      match form with
      | Some obj => Ok (obj, true)
      | None =>
          bind (try_parse_json text) (fun last =>
          if snd last then Ok last else Ok (JNull, false))
      end)).
Proof.
  unfold post_data, post_mime, try_extract_request_json.
  intros Hp Hm Ht.
  exc_inv Hp. exc_inv Hp. injection Hp as <-.
  exc_inv Hm. exc_inv Hm. injection Hm as <-.
  rewrite Ha. cbn [bind]. rewrite Ha0. cbn [bind]. rewrite Ha1. cbn [bind].
  rewrite Ha2. cbn [bind]. rewrite Ht. reflexivity.
Qed.

(** ** Hardening prefixes *)

(** A prefix that ends in a line feed does nothing that the prefix without
    the line feed, tried next, would not do: the line feed is stripped with
    the white space that follows the prefix. *)
Lemma strip_first_prefix_newline (s2 p : pystr) (rest : list pystr) :
  strip_first_prefix s2 ((p ++ LF) :: p :: rest)
  = strip_first_prefix s2 (p :: rest).
Proof.
  cbn [strip_first_prefix].
  destruct (startswith s2 (p ++ LF)) eqn:E; [|reflexivity].
  apply startswith_spec in E as [b ->].
  assert (H : startswith ((p ++ LF) ++ b) p = true).
  { apply startswith_spec. exists (LF ++ b). now rewrite app_assoc. }
  rewrite H. f_equal. rewrite skipn_length_app.
  now rewrite <- app_assoc, skipn_length_app.
Qed.

Lemma strip_first_prefix_tail (s2 p : pystr) (l l' : list pystr) :
  strip_first_prefix s2 l = strip_first_prefix s2 l' ->
  strip_first_prefix s2 (p :: l) = strip_first_prefix s2 (p :: l').
Proof. intros H. cbn [strip_first_prefix]. now rewrite H. Qed.

Lemma hardening_prefixes_short (s : pystr) :
  strip_first_prefix s hardening_prefixes = strip_first_prefix s short_prefixes.
Proof.
  unfold hardening_prefixes, short_prefixes.
  rewrite strip_first_prefix_newline. apply strip_first_prefix_tail.
  rewrite strip_first_prefix_newline. apply strip_first_prefix_tail.
  now rewrite strip_first_prefix_newline.
Qed.

Lemma strip_first_prefix_some (s2 r : pystr) (l : list pystr) :
  strip_first_prefix s2 l = Some r ->
  exists p, In p l /\ startswith s2 p = true.
Proof.
  induction l as [|p l IH]; [discriminate|]. cbn [strip_first_prefix].
  destruct (startswith s2 p) eqn:E.
  - intros _. exists p. split; [now left | exact E].
  - intros H. destruct (IH H) as (p' & Hin & Hp').
    exists p'. split; [now right | exact Hp'].
Qed.

Lemma strip_short_prefix (q body : pystr) :
  In q short_prefixes ->
  strip_first_prefix (q ++ body) short_prefixes = Some (lstrip body).
Proof. intros [<- | [<- | [<- | []]]]; destruct body; reflexivity. Qed.

Lemma short_prefix_head (q b : pystr) :
  In q short_prefixes -> lstrip (q ++ b) = q ++ b /\ q ++ b <> [].
Proof. intros [<- | [<- | [<- | []]]]; split; (reflexivity || discriminate). Qed.

(** No JSON text starts with a hardening prefix. *)
Lemma prefixed_is_not_json (q b : pystr) :
  In q short_prefixes -> json_loads (rstrip (q ++ b)) = None.
Proof.
  intros [<- | [<- | [<- | []]]].
  - change (str ")]}'," ++ b) with (41 :: ([93; 125; 39; 44] ++ b)).
    rewrite rstrip_cons by reflexivity. reflexivity.
  - change (str "while(1);" ++ b)
      with (119 :: ([104; 105; 108; 101; 40; 49; 41; 59] ++ b)).
    rewrite rstrip_cons by reflexivity. reflexivity.
  - change (str "for(;;);" ++ b)
      with (102 :: 111 :: ([114; 40; 59; 59; 41; 59] ++ b)).
    rewrite !rstrip_cons by reflexivity. reflexivity.
Qed.

(** Behind white space and a hardening prefix, what is parsed is the rest
    of the text. *)
Lemma strip_hardened (ws p body : pystr) :
  In p hardening_prefixes ->
  (forall c, In c ws -> is_space c = true) ->
  strip (strip_json_hardening_prefix (ws ++ p ++ body)) = strip body /\
  ws ++ p ++ body <> [].
Proof.
  intros Hp Hws.
  assert (Hq : exists q b, In q short_prefixes /\ p ++ body = q ++ b /\
                           strip b = strip body).
  { destruct Hp as [<- | [<- | [<- | [<- | [<- | [<- | []]]]]]].
    - exists (str ")]}',"), (LF ++ body). rewrite <- app_assoc.
      split; [now left | split; reflexivity].
    - exists (str ")]}',"), body. split; [now left | split; reflexivity].
    - exists (str "while(1);"), (LF ++ body). rewrite <- app_assoc.
      split; [right; now left | split; reflexivity].
    - exists (str "while(1);"), body.
      split; [right; now left | split; reflexivity].
    - exists (str "for(;;);"), (LF ++ body). rewrite <- app_assoc.
      split; [right; right; now left | split; reflexivity].
    - exists (str "for(;;);"), body.
      split; [right; right; now left | split; reflexivity]. }
  destruct Hq as (q & b & Hq & E & Hs).
  destruct (short_prefix_head q b Hq) as (Hhead & Hne).
  assert (Hl : lstrip (ws ++ p ++ body) = q ++ b)
    by (now rewrite (lstrip_spaces _ _ Hws), E).
  split.
  - unfold strip_json_hardening_prefix. cbv zeta.
    rewrite hardening_prefixes_short, Hl, (strip_short_prefix _ _ Hq).
    now rewrite strip_lstrip.
  - intros E0. rewrite E0 in Hl. simpl in Hl. congruence.
Qed.

(** [try_parse_json] returns the value of the text that is left when the
    hardening prefix and the white space are stripped. *)
Lemma try_parse_json_stripped (t : pystr) (v : json) :
  json_loads (strip (strip_json_hardening_prefix t)) = Some v ->
  try_parse_json (JStr t) = Ok (v, true).
Proof.
  intros H. unfold try_parse_json.
  destruct t as [|c t']; [vm_compute in H; discriminate H|].
  cbn [truthy negb as_str bind].
  destruct (strip (strip_json_hardening_prefix (c :: t')));
    [vm_compute in H; discriminate H|].
  now rewrite H.
Qed.

(** A parse that succeeded went through the prefix stripping. *)
Lemma try_parse_json_ok (text v : json) :
  try_parse_json text = Ok (v, true) ->
  truthy text = true /\
  exists t, text = JStr t /\
            json_loads (strip (strip_json_hardening_prefix t)) = Some v.
Proof.
  unfold try_parse_json. destruct (truthy text) eqn:Ht; simpl; [|discriminate].
  intros H. split; [reflexivity|].
  exc_inv H. destruct text; try discriminate. injection Ha as ->.
  exists a. split; [reflexivity|].
  destruct (strip (strip_json_hardening_prefix a)); [discriminate|].
  destruct (json_loads (z :: p)); [|discriminate]. congruence.
Qed.

(** C1 (as amended): for a request whose post data has a mime type that
    contains "json" (in any case), [try_extract_request_json] parses the
    body text with [try_parse_json], the routine used for response bodies,
    which strips a hardening prefix before parsing: the value returned is the
    value of the text that is left when white space and a hardening prefix
    are stripped.  So a body that is white space, a hardening prefix and a
    JSON text is recovered as the value of that JSON text. *)
Theorem C1_json_request_parsed_after_prefix_stripping
    (entry post : json) (mime t : pystr) :
  post_data entry = Ok post ->
  post_mime post = Ok mime ->
  contains mime (str "json") = true ->
  get post (str "text") = Ok (JStr t) ->
  (forall v,
     json_loads (strip (strip_json_hardening_prefix t)) = Some v ->
     try_extract_request_json entry = Ok (v, true)) /\
  (forall ws p body v,
     t = ws ++ p ++ body ->
     (forall c, In c ws -> is_space c = true) ->
     In p hardening_prefixes ->
     json_loads (strip body) = Some v ->
     try_extract_request_json entry = Ok (v, true)) /\
  (forall v,
     try_parse_json (JStr t) = Ok (v, true) ->
     try_extract_request_json entry = Ok (v, true)).
Proof.
  intros Hp Hm Hj Ht.
  assert (Hparse : forall v, try_parse_json (JStr t) = Ok (v, true) ->
                     try_extract_request_json entry = Ok (v, true)).
  { intros v Hv. destruct (try_parse_json_ok _ _ Hv) as (Htruthy & _).
    rewrite (request_recovery_unfold _ _ _ _ Hp Hm Ht).
    rewrite Htruthy, Hj, Hv. reflexivity. }
  split; [|split; [|exact Hparse]].
  - intros v Hv. now apply Hparse, try_parse_json_stripped.
  - intros ws p body v -> Hws Hin Hv.
    apply Hparse, try_parse_json_stripped.
    destruct (strip_hardened ws p body Hin Hws) as [-> _]. exact Hv.
Qed.

(** A request body behind white space and the prefix "while(1);", with a
    mime type in mixed case: the value behind the prefix is recovered; the
    text as it stands is no JSON. *)
Lemma C1_witness_guarded_request :
  post_data guarded_request
  = Ok (parse "{`mimeType`: `Application/JSON; charset=utf-8`, `text`: `  while(1); [1, 2] `}") /\
  json_loads (strip (str "  while(1); [1, 2] ")) = None /\
  try_extract_request_json guarded_request = Ok (JList [JInt 1; JInt 2], true).
Proof.
  split; [run | split; [run|]].
  refine (proj1 (proj2
            (C1_json_request_parsed_after_prefix_stripping guarded_request
               (parse "{`mimeType`: `Application/JSON; charset=utf-8`, `text`: `  while(1); [1, 2] `}")
               (str "application/json; charset=utf-8")
               (str "  while(1); [1, 2] ") _ _ _ _))
            (str "  ") (str "while(1);") (str " [1, 2] ") _ _ _ _ _).
  - run.
  - run.
  - run.
  - run.
  - reflexivity.
  - intros c [<- | [<- | []]]; reflexivity.
  - do 3 right. now left.
  - run.
Defined.

(** C1 as stated fails: the body below is JSON only after its hardening
    prefix is stripped.  Parsed without stripping it is no JSON, yet the
    recovery succeeds with the value behind the prefix. *)
Lemma C1_counterexample_request_prefix_stripped :
  post_data hardened_request
  = Ok (JDict [(JStr (str "mimeType"), JStr (str "application/json"));
               (JStr (str "text"), JStr hardened_text)]) /\
  contains (str "application/json") (str "json") = true /\
  json_loads (strip hardened_text) = None /\
  try_extract_request_json hardened_request
  = Ok (JDict [(JStr (str "a"), JInt 1)], true).
Proof. run. Qed.

(** ** The form branch *)

Lemma dict_lookup_set_str (d : list (json * json)) (k v : json) (n : pystr) :
  dict_lookup (dict_set d k v) (JStr n)
  = if key_eqb k (JStr n) then Some v else dict_lookup d (JStr n).
Proof.
  induction d as [|[k' v'] r IH]; simpl; [reflexivity|].
  destruct (key_eqb k' k) eqn:Ek; simpl.
  - destruct (key_eqb k' (JStr n)) eqn:En.
    + apply key_eqb_str_r in En. subst k'. apply key_eqb_str_l in Ek.
      subst k. simpl. now rewrite str_eqb_refl.
    + destruct (key_eqb k (JStr n)) eqn:Ekn; [|reflexivity].
      apply key_eqb_str_r in Ekn. subst k. apply key_eqb_str_r in Ek.
      subst k'. simpl in En. now rewrite str_eqb_refl in En.
  - rewrite IH. destruct (key_eqb k' (JStr n)) eqn:En; [|reflexivity].
    destruct (key_eqb k (JStr n)) eqn:Ekn; [|reflexivity].
    apply key_eqb_str_r in En, Ekn. subst. simpl in Ek.
    now rewrite str_eqb_refl in Ek.
Qed.




Lemma form_fields_cons (p : json) (rest : list json)
    (acc m : list (json * json)) :
  form_fields (p :: rest) acc = Ok m ->
  exists name,
    get p (str "name") = Ok name /\
    ((truthy name = false /\ form_fields rest acc = Ok m) \/
     (truthy name = true /\ hashable name = true /\
      exists value, get p (str "value") = Ok value /\
                    form_fields rest (dict_set acc name value) = Ok m)).
Proof.
  cbn [form_fields]. intros H. exc_inv H. exists a. split; [exact Ha|].
  destruct (truthy a); [right | left; auto].
  exc_inv H. destruct (hashable a); [|discriminate]. eauto 6.
Qed.


Lemma form_fields_total (ps : list json) (acc : list (json * json)) :
  Forall (fun p => param_ok p = true) ps ->
  exists m, form_fields ps acc = Ok m.
Proof.
  intros H. revert acc. induction H as [|p ps Hp _ IH]; intros acc.
  - simpl. eauto.
  - destruct p; try discriminate. cbn [form_fields get get_default bind].
    unfold param_ok in Hp.
    destruct (dict_lookup d (JStr (str "name"))) as [name|].
    + destruct (truthy name); [rewrite Hp|]; apply IH.
    + simpl. apply IH.
Qed.



(** The keys that are strings are the non-empty names, and a value is the
    value of a parameter of that name. *)
Lemma form_fields_keys (ps : list json) (acc m : list (json * json))
    (n : pystr) :
  form_fields ps acc = Ok m ->
  ((exists v, dict_lookup m (JStr n) = Some v) <->
   (exists v, dict_lookup acc (JStr n) = Some v)
   \/ (n <> [] /\ exists p, In p ps /\ named n p)) /\
  (forall v, dict_lookup m (JStr n) = Some v ->
     dict_lookup acc (JStr n) = Some v
     \/ exists p, In p ps /\ named n p /\ get p (str "value") = Ok v).
Proof.
  revert acc. induction ps as [|p ps IH]; intros acc H.
  - injection H as <-. split; [|auto]. split; [auto|].
    intros [Hv | (_ & q & [] & _)]; exact Hv.
  - apply form_fields_cons in H
      as (name & Hname & [(Hf & H) | (Ht & _ & value & Hvalue & H)]).
    + destruct (IH _ H) as [IH1 IH2]. split.
      * rewrite IH1. split.
        -- intros [Hv | (Hn & q & Hq & Hnq)]; [now left | right].
           split; [exact Hn|]. exists q. split; [now right | exact Hnq].
        -- intros [Hv | (Hn & q & [<- | Hq] & Hnq)]; [now left | | right; eauto].
           exfalso. unfold named in Hnq. rewrite Hname in Hnq.
           injection Hnq as ->. destruct n; [now apply Hn | discriminate].
      * intros v Hv. destruct (IH2 v Hv) as [Ha | (q & Hq & Hnq & Hqv)];
          [now left | right]. exists q. split; [now right | auto].
    + destruct (IH _ H) as [IH1 IH2]. rewrite dict_lookup_set_str in IH1.
      split.
      * rewrite IH1. destruct (key_eqb name (JStr n)) eqn:E.
        -- apply key_eqb_str_r in E. subst name. split.
           ++ intros _. right. split.
              ** intros ->. discriminate Ht.
              ** exists p. split; [now left | exact Hname].
           ++ intros _. left. eauto.
        -- split.
           ++ intros [Hv | (Hn & q & Hq & Hnq)]; [now left | right].
              split; [exact Hn|]. exists q. split; [now right | exact Hnq].
           ++ intros [Hv | (Hn & q & [<- | Hq] & Hnq)];
                [now left | | right; eauto].
              exfalso. unfold named in Hnq. rewrite Hname in Hnq.
              injection Hnq as ->. simpl in E. now rewrite str_eqb_refl in E.
      * intros v Hv. destruct (IH2 v Hv) as [Ha | (q & Hq & Hnq & Hqv)].
        -- rewrite dict_lookup_set_str in Ha.
           destruct (key_eqb name (JStr n)) eqn:E; [|now left].
           apply key_eqb_str_r in E. subst name. injection Ha as <-.
           right. exists p. split; [now left | auto].
        -- right. exists q. split; [now right | auto].
Qed.

Lemma dict_set_keys_truthy (d : list (json * json)) (k v : json) :
  truthy k = true ->
  Forall (fun kv => truthy (fst kv) = true) d ->
  Forall (fun kv => truthy (fst kv) = true) (dict_set d k v).
Proof.
  intros Hk. induction 1 as [|[k' v'] r Hk' Hr IH]; simpl.
  - constructor; [exact Hk | constructor].
  - destruct (key_eqb k' k); constructor; auto.
Qed.

Lemma form_fields_keys_truthy (ps : list json) (acc m : list (json * json)) :
  form_fields ps acc = Ok m ->
  Forall (fun kv => truthy (fst kv) = true) acc ->
  Forall (fun kv => truthy (fst kv) = true) m.
Proof.
  revert acc. induction ps as [|p ps IH]; intros acc H Hacc.
  - now injection H as <-.
  - apply form_fields_cons in H
      as (name & _ & [(_ & H) | (Ht & _ & value & _ & H)]).
    + eauto.
    + eapply IH; [exact H|]. now apply dict_set_keys_truthy.
Qed.

(** The recovery on a request that reaches the form branch. *)
Lemma urlencoded_post_recovery (entry : json) (ps : list json) :
  urlencoded_post entry ps ->
  try_extract_request_json entry
  = bind (form_fields ps []) (fun obj => Ok (JDict obj, true)).
Proof.
  intros (post & mime & text & Hp & Hm & Ht & Htruthy & Hjson & Hform & Hps).
  rewrite (request_recovery_unfold _ _ _ _ Hp Hm Ht).
  rewrite Htruthy, Hform, Hps. cbn [negb bind].
  assert (Hfirst : (if contains mime (str "json") then try_parse_json text
                    else Ok (JNull, false)) = Ok (JNull, false)).
  { destruct Hjson as [Hj | Hj]; rewrite Hj; [reflexivity|].
    destruct (contains mime (str "json")); reflexivity. }
  rewrite Hfirst. cbn [bind snd].
  destruct (form_fields ps []); reflexivity.
Qed.

Lemma form_request_urlencoded : urlencoded_post form_request form_params.
Proof.
  exists (parse "{`mimeType`: `application/x-www-form-urlencoded`, `text`: `a=1&b=2&=9&a=3`, `params`: [{`name`:`a`,`value`:`1`},{`name`:`b`,`value`:`2`},{`name`:``,`value`:`9`},{`value`:`8`},{`name`:`a`,`value`:`3`}]}"),
    (str "application/x-www-form-urlencoded"), (JStr (str "a=1&b=2&=9&a=3")).
  repeat split; try reflexivity. left. reflexivity.
Defined.

(** C8 (as amended): for a request whose body text is non-empty, whose mime
    type contains "x-www-form-urlencoded" and whose [params] is a list of
    objects with hashable names, where a mime type containing "json" did not
    already give a parsed body, [try_extract_request_json] succeeds and
    returns the mapping from parameter name to parameter value: a string is
    a key exactly when it is the non-empty name of a parameter, its value is
    the value of a parameter of that name, no key is empty, and the empty
    list gives the empty mapping. *)
Theorem C8_form_params_recovered_when_text_present
    (entry : json) (ps : list json) :
  urlencoded_post entry ps ->
  Forall (fun p => param_ok p = true) ps ->
  exists m,
    try_extract_request_json entry = Ok (JDict m, true) /\
    (ps = [] -> m = []) /\
    (forall n, (exists v, dict_lookup m (JStr n) = Some v)
               <-> n <> [] /\ exists p, In p ps /\ named n p) /\
    (forall n v, dict_lookup m (JStr n) = Some v ->
       exists p, In p ps /\ named n p /\ get p (str "value") = Ok v) /\
    Forall (fun kv => truthy (fst kv) = true) m.
Proof.
  intros Hpost Hok.
  destruct (form_fields_total ps [] Hok) as [m Hm].
  exists m. rewrite (urlencoded_post_recovery _ _ Hpost), Hm.
  split; [reflexivity|]. split; [|split; [|split]].
  - intros ->. now injection Hm as <-.
  - intros n. destruct (form_fields_keys _ _ _ n Hm) as [-> _].
    split; [intros [[v Hv] | H]; [discriminate | exact H] | now right].
  - intros n v Hv. destruct (form_fields_keys _ _ _ n Hm) as [_ H].
    destruct (H v Hv) as [Hacc | Hp]; [discriminate | exact Hp].
  - eapply form_fields_keys_truthy; [exact Hm | constructor].
Qed.

Lemma C8_witness_form_request :
  urlencoded_post form_request form_params /\
  Forall (fun p => param_ok p = true) form_params /\
  exists m, try_extract_request_json form_request = Ok (JDict m, true) /\
            dict_lookup m (JStr (str "b")) = Some (JStr (str "2")) /\
            dict_lookup m (JStr []) = None.
Proof.
  assert (Hok : Forall (fun p => param_ok p = true) form_params)
    by (repeat constructor).
  split; [exact form_request_urlencoded | split; [exact Hok|]].
  destruct (C8_form_params_recovered_when_text_present _ _
              form_request_urlencoded Hok) as (m & Hm & _).
  exists m. split; [exact Hm|].
  vm_compute in Hm. injection Hm as <-. split; reflexivity.
Defined.

(** C8 as stated fails: the post data below has the form mime type and a
    parameter list, and no body text; the recovery fails. *)
Lemma C8_counterexample_params_without_text :
  post_data form_request_without_text
  = Ok (parse "{`mimeType`: `application/x-www-form-urlencoded`, `params`: [{`name`:`a`,`value`:`1`},{`name`:`b`,`value`:`2`}]}") /\
  get (parse "{`mimeType`: `application/x-www-form-urlencoded`, `params`: [{`name`:`a`,`value`:`1`},{`name`:`b`,`value`:`2`}]}")
      (str "params")
  = Ok (parse "[{`name`:`a`,`value`:`1`},{`name`:`b`,`value`:`2`}]") /\
  try_extract_request_json form_request_without_text = Ok (JNull, false).
Proof. run. Qed.



(** ** The classifier *)

(** [is_probable_api] once the path, the method, the mime type and the
    content of the entry are read. *)
Lemma is_probable_api_unfold {L : Lib} (entry content : json)
    (p method mime : pystr) :
  entry_path entry = Ok p ->
  entry_method entry = Ok method ->
  entry_mime entry = Ok mime ->
  entry_content entry = Ok content ->
  is_probable_api entry =
  if mem (lower (snd (splitext p))) ext_block then Ok false
  else if contains mime (str "json") then Ok true
  else if endswith p (str ".json") then Ok true
  else if existsb (contains (lower p)) api_segments then Ok true
  else if mem method write_methods then Ok true
  else
    bind (get content (str "text")) (fun text =>
    if truthy text then
      bind (get content (str "encoding")) (fun encoding =>
      Ok (try_except (looks_like_json text encoding) false))
    else Ok false).
Proof.
  unfold entry_path, entry_method, entry_mime, entry_content, is_probable_api.
  intros Hp Hmeth Hmime Hc.
  destruct (get_default entry (str "request") (JDict [])) as [req|];
    [|discriminate].
  destruct (get_default entry (str "response") (JDict [])) as [res|];
    [|discriminate].
  cbn [bind] in *.
  destruct (get req (str "url")) as [url|]; [|discriminate].
  destruct (get req (str "method")) as [m|]; [|discriminate].
  cbn [bind] in *.
  destruct (as_str (or_ m (JStr []))) as [ms|]; [|discriminate].
  destruct (get res (str "content")) as [c|]; [|discriminate].
  cbn [bind] in *. injection Hc as <-. injection Hmeth as <-.
  destruct (get (or_ c (JDict [])) (str "mimeType")) as [cm|]; [|discriminate].
  destruct (get res (str "mimeType")) as [rm|]; [|discriminate].
  cbn [bind] in *.
  destruct (as_str (or_ (or_ cm rm) (JStr []))) as [mm|]; [|discriminate].
  cbn [bind] in *. injection Hmime as <-.
  destruct (urlparse_value (or_ url (JStr []))) as [parsed|]; [|discriminate].
  cbn [bind] in *. injection Hp as <-. reflexivity.
Qed.

(** A classifier that returns has read all four. *)
Lemma is_probable_api_reads {L : Lib} (entry : json) (v : bool) :
  is_probable_api entry = Ok v ->
  exists p method mime content,
    entry_path entry = Ok p /\ entry_method entry = Ok method /\
    entry_mime entry = Ok mime /\ entry_content entry = Ok content.
Proof.
  unfold entry_path, entry_method, entry_mime, entry_content, is_probable_api.
  intros H.
  destruct (get_default entry (str "request") (JDict [])) as [req|];
    [|discriminate].
  destruct (get_default entry (str "response") (JDict [])) as [res|];
    [|discriminate].
  cbn [bind] in *.
  destruct (get req (str "url")) as [url|]; [|discriminate].
  destruct (get req (str "method")) as [m|]; [|discriminate].
  cbn [bind] in *.
  destruct (as_str (or_ m (JStr []))) as [ms|]; [|discriminate].
  destruct (get res (str "content")) as [c|]; [|discriminate].
  cbn [bind] in *.
  destruct (get (or_ c (JDict [])) (str "mimeType")) as [cm|]; [|discriminate].
  destruct (get res (str "mimeType")) as [rm|]; [|discriminate].
  cbn [bind] in *.
  destruct (as_str (or_ (or_ cm rm) (JStr []))) as [mm|]; [|discriminate].
  cbn [bind] in *.
  destruct (urlparse_value (or_ url (JStr []))) as [parsed|]; [|discriminate].
  cbn [bind] in *. eauto 10.
Qed.

(** C5: when the extension of the URL path (lower-cased) is on the
    blocklist, the classifier never answers true, whatever the method, the
    mime type and the response body; it answers false whenever the method
    and the mime type can be read. *)
Theorem C5_blocklisted_extension_is_not_api {L : Lib}
    (entry : json) (p : pystr) :
  entry_path entry = Ok p ->
  mem (lower (snd (splitext p))) ext_block = true ->
  (forall v, is_probable_api entry = Ok v -> v = false) /\
  (forall method mime,
     entry_method entry = Ok method -> entry_mime entry = Ok mime ->
     is_probable_api entry = Ok false).
Proof.
  intros Hp Hext.
  assert (Hall : forall method mime content,
            entry_method entry = Ok method -> entry_mime entry = Ok mime ->
            entry_content entry = Ok content ->
            is_probable_api entry = Ok false).
  { intros method mime content Hm Hmime Hc.
    rewrite (is_probable_api_unfold _ _ _ _ _ Hp Hm Hmime Hc).
    now rewrite Hext. }
  split.
  - intros v Hv.
    destruct (is_probable_api_reads _ _ Hv)
      as (p' & method & mime & content & _ & Hm & Hmime & Hc).
    rewrite (Hall _ _ _ Hm Hmime Hc) in Hv. congruence.
  - intros method mime Hm Hmime.
    assert (Hc : exists content, entry_content entry = Ok content).
    { unfold entry_mime in Hmime.
      destruct (get_default entry (str "response") (JDict []));
        [|discriminate].
      cbn [bind] in Hmime.
      destruct (entry_content entry); [eauto | discriminate]. }
    destruct Hc as [content Hc]. eauto.
Qed.

(** A script served to a POST with a JSON mime type and a JSON body. *)
Lemma C5_witness_script_post :
  entry_path (L := example_lib) static_asset_entry = Ok (str "/static/app.JS") /\
  mem (lower (snd (splitext (str "/static/app.JS")))) ext_block = true /\
  entry_method static_asset_entry = Ok (str "POST") /\
  entry_mime static_asset_entry = Ok (str "application/json") /\
  is_probable_api (L := example_lib) static_asset_entry = Ok false.
Proof.
  assert (Hp : entry_path (L := example_lib) static_asset_entry
               = Ok (str "/static/app.JS")) by run.
  assert (He : mem (lower (snd (splitext (str "/static/app.JS")))) ext_block
               = true) by run.
  assert (Hm : entry_method static_asset_entry = Ok (str "POST")) by run.
  assert (Hmime : entry_mime static_asset_entry = Ok (str "application/json"))
    by run.
  split; [exact Hp | split; [exact He | split; [exact Hm | split; [exact Hmime|]]]].
  exact (proj2 (C5_blocklisted_extension_is_not_api (L := example_lib)
                  static_asset_entry _ Hp He) _ _ Hm Hmime).
Defined.

(** ** Exit codes *)

(** C9: [main] exits with code 2 when the input is not a file or its text
    is not UTF-8 encoded JSON, and with code 0, writing no summary, when the
    list of entries it extracts is empty. *)
Theorem C9_exit_codes {L : Lib} (out_dir : pystr) (include_nonjson : bool) :
  ending_of (main NotAFile out_dir include_nonjson) = Exit 2 /\
  (forall bytes e,
     json_load bytes = Raise e ->
     ending_of (main (File bytes) out_dir include_nonjson) = Exit 2) /\
  (forall bytes har entries,
     json_load bytes = Ok har ->
     entries_of har = Ok entries ->
     truthy entries = false ->
     ending_of (main (File bytes) out_dir include_nonjson) = Exit 0 /\
     summary_csv (main (File bytes) out_dir include_nonjson) = None).
Proof.
  split; [reflexivity|]. split.
  - intros bytes e H. unfold main. now rewrite H.
  - intros bytes har entries Hl He Ht. unfold main.
    rewrite Hl, He, Ht. split; reflexivity.
Qed.

Lemma C9_witness_exit_codes :
  json_load (str "<html>") = Raise ValueError /\
  ending_of (main (L := example_lib) (File (str "<html>")) (str "/out") false)
  = Exit 2 /\
  json_load (json_text "{`log`: {`entries`: []}}")
  = Ok (parse "{`log`: {`entries`: []}}") /\
  entries_of (parse "{`log`: {`entries`: []}}") = Ok (JList []) /\
  ending_of (main (L := example_lib)
               (File (json_text "{`log`: {`entries`: []}}")) (str "/out") false)
  = Exit 0.
Proof.
  assert (H1 : json_load (str "<html>") = Raise ValueError) by run.
  assert (H2 : json_load (json_text "{`log`: {`entries`: []}}")
               = Ok (parse "{`log`: {`entries`: []}}")) by run.
  assert (H3 : entries_of (parse "{`log`: {`entries`: []}}") = Ok (JList []))
    by run.
  destruct (C9_exit_codes (L := example_lib) (str "/out") false)
    as (_ & Hbad & Hempty).
  split; [exact H1 | split; [exact (Hbad _ _ H1) | split; [exact H2 |
    split; [exact H3 | exact (proj1 (Hempty _ _ _ H2 H3 eq_refl))]]]].
Defined.

(** ** The loop body *)

Lemma keeps_lift {A} (c : exc A) : keeps_rows (lift c).
Proof. intros st res st' H. now injection H as _ <-. Qed.

Lemma keeps_ret {A} (a : A) : keeps_rows (ret a).
Proof. intros st res st' H. now injection H as _ <-. Qed.

Lemma keeps_modify (f : state -> state) :
  (forall st, summary_rows (f st) = summary_rows st) -> keeps_rows (modify f).
Proof. intros Hf st res st' H. injection H as _ <-. apply Hf. Qed.

Lemma keeps_bind {A B} (c : M A) (k : A -> M B) :
  keeps_rows c -> (forall a, keeps_rows (k a)) -> keeps_rows (mbind c k).
Proof.
  intros Hc Hk st res st' H. unfold mbind in H.
  destruct (c st) as [[a|e] st1] eqn:E.
  - rewrite (Hk a _ _ _ H). eapply Hc, E.
  - injection H as _ <-. eapply Hc, E.
Qed.

Lemma keeps_write_json {L : Lib} (path : pystr) (obj : json) :
  keeps_rows (write_json path obj).
Proof.
  intros st res st' H. unfold write_json in H.
  destruct (open_w path); [destruct (json_encodable obj)|];
    now injection H as _ <-.
Qed.

Lemma appends_bind {A} (idx : Z) (v j : bool) (c : M A) (k : A -> M pass) :
  keeps_rows c -> (forall a, appends_row idx v j (k a)) ->
  appends_row idx v j (mbind c k).
Proof.
  intros Hc Hk st res st' H. unfold mbind in H.
  destruct (c st) as [[a|e] st1] eqn:E.
  - rewrite <- (Hc _ _ _ E). eapply Hk, H.
  - injection H as <- <-. left. exists e. split; [reflexivity|]. eapply Hc, E.
Qed.

Lemma appends_final (r : row) :
  appends_row (row_index r) (row_is_probable_api r) (row_response_is_json r)
    (mbind (modify (append_row r)) (fun _ => ret Appended)).
Proof.
  intros st res st' H. injection H as <- <-. right.
  split; [reflexivity|]. exists r. repeat split.
Qed.

Ltac keeps :=
  repeat first
    [ apply keeps_lift | apply keeps_ret | apply keeps_write_json
    | apply keeps_modify; reflexivity
    | apply keeps_bind; [|intros ?]
    | match goal with |- keeps_rows (if ?b then _ else _) => destruct b end ].

Lemma get_entry_fields_content (entry method url started content : json)
    {L : Lib} (status : Z) :
  get_entry_fields entry = Ok (method, url, started, status, content) ->
  entry_content entry = Ok content.
Proof.
  unfold get_entry_fields, entry_content. intros H.
  destruct (get_default entry (str "request") (JDict [])) as [req|];
    [|discriminate].
  destruct (get_default entry (str "response") (JDict [])) as [res|];
    [|discriminate].
  cbn [bind] in *.
  repeat (exc_inv H; try rewrite Ha).
  injection H as _ _ _ _ <-.
  repeat match goal with
  | H : get res (str "content") = Ok _ |- _ => rewrite H
  end.
  reflexivity.
Qed.

(** What one pass of the loop body does to the rows. *)
Lemma process_entry_cases {L : Lib} (out_dir : pystr) (inc : bool)
    (idx : Z) (entry : json) (st st' : state) (res : exc pass) :
  process_entry out_dir inc idx entry st = (res, st') ->
  (exists e, res = Raise e /\ summary_rows st' = summary_rows st) \/
  (exists v j,
     is_probable_api entry = Ok v /\ response_is_json entry = Ok j /\
     ((include_decision v j inc = false /\ res = Ok Skipped /\ st' = st) \/
      (include_decision v j inc = true /\ res = Ok Appended /\
       exists r, summary_rows st' = summary_rows st ++ [r] /\
                 row_index r = idx /\ row_is_probable_api r = v /\
                 row_response_is_json r = j))).
Proof.
  unfold process_entry. intros H.
  unfold mbind at 1 in H. unfold lift at 1 in H.
  destruct (get_entry_fields entry)
    as [[[[[method url] started] status] content]|e] eqn:Hf;
    [|injection H as <- <-; left; eauto].
  unfold mbind at 1 in H. unfold lift at 1 in H.
  destruct (is_probable_api entry) as [v|e] eqn:Hv;
    [|injection H as <- <-; left; eauto].
  unfold mbind at 1 in H. unfold lift at 1 in H.
  destruct (decode_body_text content) as [body|e] eqn:Hb;
    [|injection H as <- <-; left; eauto].
  unfold mbind at 1 in H. unfold lift at 1 in H.
  destruct (try_parse_json (JStr match body with Some s => s | None => [] end))
    as [[obj j]|e] eqn:Hj;
    [|injection H as <- <-; left; eauto].
  assert (Hrj : response_is_json entry = Ok j).
  { unfold response_is_json.
    rewrite (get_entry_fields_content _ _ _ _ _ _ Hf). cbn [bind].
    rewrite Hb. cbn [bind]. rewrite Hj. reflexivity. }
  destruct (include_decision v j inc) eqn:Hinc; cbn [negb] in H.
  - match type of H with
    | ?c st = _ => assert (Hc : appends_row idx v j c)
    end.
    { repeat first
        [ apply (appends_final
            {| row_index := idx; row_is_probable_api := v;
               row_response_is_json := j;
               row_startedDateTime := _; row_method := _; row_url := _;
               row_status := _; row_response_mimeType := _;
               row_response_json_file := _; row_request_is_json := _;
               row_request_json_file := _ |})
        | apply appends_bind; [keeps | intros ?; cbv zeta]
        | match goal with
          | |- appends_row _ _ _ (match ?x with (_, _) => _ end) => destruct x
          end ]. }
    destruct (Hc _ _ _ H) as [Hraise | (-> & Hrow)]; [left; exact Hraise|].
    right. exists v, j. split; [reflexivity | split; [exact Hrj|]].
    right. auto.
  - injection H as <- <-. right. exists v, j.
    split; [reflexivity | split; [exact Hrj|]]. left. auto.
Qed.

Lemma include_decision_eq (v j inc : bool) :
  include_decision v j inc = (v && (j || inc)) || j.
Proof. now destruct v, j, inc. Qed.

Lemma not_self_snoc {A} (l : list A) (x : A) : l <> l ++ [x].
Proof.
  intros H. apply (f_equal (@List.length A)) in H.
  rewrite length_app in H. simpl in H. lia.
Qed.

(** ** The loop body, statement by statement *)

Lemma mbind_lift {A B} (c : exc A) (k : A -> M B) (st : state) :
  mbind (lift c) k st
  = match c with Ok a => k a st | Raise e => (Raise e, st) end.
Proof. unfold mbind, lift. now destruct c. Qed.

Lemma mbind_modify {B} (f : state -> state) (k : unit -> M B) (st : state) :
  mbind (modify f) k st = k tt (f st).
Proof. reflexivity. Qed.

Lemma mbind_ret {A B} (a : A) (k : A -> M B) (st : state) :
  mbind (ret a) k st = k a st.
Proof. reflexivity. Qed.

Lemma mbind_assoc {A B C} (c : M A) (k : A -> M B) (h : B -> M C) (st : state) :
  mbind (mbind c k) h st = mbind c (fun a => mbind (k a) h) st.
Proof. unfold mbind. destruct (c st) as [[a|e] s]; reflexivity. Qed.

Lemma mbind_if {A B} (b : bool) (c1 c2 : M A) (k : A -> M B) (st : state) :
  mbind (if b then c1 else c2) k st
  = if b then mbind c1 k st else mbind c2 k st.
Proof. now destruct b. Qed.

Lemma mbind_write_json {L : Lib} {B} (p : pystr) (obj : json)
    (k : unit -> M B) (st : state) :
  mbind (write_json p obj) k st
  = if open_w p then
      if json_encodable obj then k tt (add_file (p, Some obj) st)
      else (Raise UnicodeError, add_file (p, None) st)
    else (Raise OSError, st).
Proof.
  unfold mbind, write_json.
  destruct (open_w p); [destruct (json_encodable obj)|]; reflexivity.
Qed.

Ltac exec :=
  repeat first
    [ rewrite mbind_lift
    | rewrite mbind_modify
    | rewrite mbind_ret
    | rewrite mbind_assoc
    | rewrite mbind_if
    | rewrite mbind_write_json
    | progress cbv beta iota zeta
    | match goal with
      | |- context [match ?c with Ok _ => _ | Raise _ => _ end] =>
          destruct c eqn:?
      | |- context [match ?x with (_, _) => _ end] => destruct x
      | |- context [if ?b then _ else _] => destruct b eqn:?
      end ].

(** When the loop body raises after the fields of the entry are read and the
    entry is classified, the decision was to include the entry: the entry
    was counted, and a later step raised. *)
Lemma process_entry_raise_late {L : Lib} (out_dir : pystr) (inc : bool)
    (idx : Z) (entry : json) (st st' : state) (e : exn) (v j : bool) :
  process_entry out_dir inc idx entry st = (Raise e, st') ->
  raises (get_entry_fields entry) = false ->
  is_probable_api entry = Ok v ->
  response_is_json entry = Ok j ->
  include_decision v j inc = true /\ total_api st' = total_api st + 1.
Proof.
  unfold process_entry. rewrite mbind_lift.
  destruct (get_entry_fields entry)
    as [[[[[method url] started] status] content]|e0] eqn:Hf;
    [|discriminate].
  intros H _ Hv Hj. revert H.
  cbv beta iota. rewrite mbind_lift, Hv.
  unfold response_is_json in Hj.
  rewrite (get_entry_fields_content _ _ _ _ _ _ Hf) in Hj. cbn [bind] in Hj.
  rewrite mbind_lift.
  destruct (decode_body_text content) as [body|]; [|discriminate Hj].
  cbn [bind] in Hj. cbv zeta. rewrite mbind_lift.
  destruct (try_parse_json (JStr match body with Some s => s | None => [] end))
    as [[obj j']|]; [|discriminate Hj].
  cbn [bind snd] in Hj. injection Hj as ->. cbv beta iota.
  destruct (include_decision v j inc); cbn [negb]; [|discriminate].
  exec.
  all: intros H; try discriminate H; injection H as _ <-.
  all: split; reflexivity.
Qed.

(** C3 (as amended): when the loop body completes for an entry, a summary
    row is appended if and only if (the classifier verdict is true and (the
    response parses as JSON or [--include-nonjson] is set)) or the response
    parses as JSON; so a response that parses as JSON is included whatever
    the verdict, provided the body completes.  When the loop body raises, no
    row is appended, also for an entry that the decision includes: once the
    fields of the entry are read, a raise comes after the decision to
    include the entry, which is counted and gets no row.  A row is never
    appended for an entry that the decision leaves out. *)
Theorem C3_row_emitted_iff_included {L : Lib} (out_dir : pystr)
    (include_nonjson : bool) (idx : Z) (entry : json) (st st' : state)
    (res : exc pass) (v j : bool) :
  process_entry out_dir include_nonjson idx entry st = (res, st') ->
  is_probable_api entry = Ok v ->
  response_is_json entry = Ok j ->
  include_decision v j include_nonjson = (v && (j || include_nonjson)) || j /\
  (forall p, res = Ok p ->
     ((exists r, summary_rows st' = summary_rows st ++ [r])
      <-> (v && (j || include_nonjson)) || j = true) /\
     (p = Appended <-> (v && (j || include_nonjson)) || j = true) /\
     (j = true -> exists r, summary_rows st' = summary_rows st ++ [r]
                            /\ row_index r = idx
                            /\ row_is_probable_api r = v)) /\
  (forall e, res = Raise e ->
     summary_rows st' = summary_rows st /\
     (raises (get_entry_fields entry) = false ->
      (v && (j || include_nonjson)) || j = true /\
      total_api st' = total_api st + 1)) /\
  ((exists r, summary_rows st' = summary_rows st ++ [r]) ->
   (v && (j || include_nonjson)) || j = true).
Proof.
  intros H Hv Hj.
  split; [apply include_decision_eq|].
  rewrite <- include_decision_eq.
  destruct (process_entry_cases _ _ _ _ _ _ _ H)
    as [(e & -> & Hrows) | (v' & j' & Hv' & Hj' & Hcase)].
  - split; [intros p Hp; discriminate Hp|]. split.
    + intros e' He'. injection He' as <-. split; [exact Hrows|].
      intros Hf. exact (process_entry_raise_late _ _ _ _ _ _ _ _ _ H Hf Hv Hj).
    + intros [r Hr]. rewrite Hrows in Hr. now apply not_self_snoc in Hr.
  - rewrite Hv in Hv'. rewrite Hj in Hj'.
    injection Hv' as <-. injection Hj' as <-.
    destruct Hcase as [(Hinc & -> & ->) | (Hinc & -> & r & Hr & Hidx & Hrv & _)];
      rewrite Hinc.
    + split; [|split].
      * intros p Hp. injection Hp as <-. split; [|split].
        -- split; [|discriminate]. intros [r Hr]. now apply not_self_snoc in Hr.
        -- split; discriminate.
        -- intros ->. rewrite include_decision_eq in Hinc.
           now rewrite orb_true_r in Hinc.
      * intros e He. discriminate He.
      * intros [r Hr]. now apply not_self_snoc in Hr.
    + split; [|split].
      * intros p Hp. injection Hp as <-. split; [|split].
        -- split; [reflexivity | eauto].
        -- split; reflexivity.
        -- eauto.
      * intros e He. discriminate He.
      * reflexivity.
Qed.

(** A response that parses as JSON behind a blocklisted extension: the
    verdict is false and the row is appended. *)
Lemma C3_witness_json_without_verdict :
  let st' := snd (process_entry (L := example_lib) (str "/out") false 7
                    source_map_entry initial) in
  process_entry (L := example_lib) (str "/out") false 7 source_map_entry initial
  = (Ok Appended, st') /\
  is_probable_api (L := example_lib) source_map_entry = Ok false /\
  response_is_json (L := example_lib) source_map_entry = Ok true /\
  exists r, summary_rows st' = summary_rows initial ++ [r] /\ row_index r = 7.
Proof.
  intros st'.
  assert (H : process_entry (L := example_lib) (str "/out") false 7
                source_map_entry initial = (Ok Appended, st')) by run.
  assert (Hv : is_probable_api (L := example_lib) source_map_entry = Ok false)
    by run.
  assert (Hj : response_is_json (L := example_lib) source_map_entry = Ok true)
    by run.
  split; [exact H | split; [exact Hv | split; [exact Hj|]]].
  destruct (C3_row_emitted_iff_included _ _ _ _ _ _ _ _ _ H Hv Hj)
    as (_ & Hok & _).
  destruct (Hok Appended eq_refl) as (_ & _ & Hrow).
  destruct (Hrow eq_refl) as (r & Hr & Hidx & _). eauto.
Defined.

(** C3 as stated fails for an entry that the decision includes and whose
    processing raises afterwards.  The entry below has a true verdict and a
    response that parses as JSON, so that the decision is to include it; its
    post data is a string, and reading the post data raises after the
    response file is written and counted.  The entry gets a warning and no
    row. *)
Lemma C3_counterexample_included_entry_without_row :
  is_probable_api (L := example_lib) malformed_post_entry = Ok true /\
  response_is_json (L := example_lib) malformed_post_entry = Ok true /\
  include_decision true true false = true /\
  fst (process_entry (L := example_lib) (str "/out") false 1
         malformed_post_entry initial) = Raise AttributeError /\
  fst (handle_entry (L := example_lib) (str "/out") false 1
         malformed_post_entry initial) = Ok tt /\
  summary_rows (snd (handle_entry (L := example_lib) (str "/out") false 1
                       malformed_post_entry initial)) = [] /\
  warnings (snd (handle_entry (L := example_lib) (str "/out") false 1
                   malformed_post_entry initial)) = [1] /\
  total_api (snd (handle_entry (L := example_lib) (str "/out") false 1
                    malformed_post_entry initial)) = 1 /\
  total_json_saved (snd (handle_entry (L := example_lib) (str "/out") false 1
                           malformed_post_entry initial)) = 1 /\
  map fst (files (snd (handle_entry (L := example_lib) (str "/out") false 1
                         malformed_post_entry initial)))
  = [str "/out/responses/00001_GET_example.com_-api-x_da39a3ee.response.json"].
Proof. run. Qed.

(** ** The loop *)

Lemma handle_entry_rows {L : Lib} (out_dir : pystr) (inc : bool)
    (idx : Z) (entry : json) (st : state) :
  summary_rows (snd (handle_entry out_dir inc idx entry st)) = summary_rows st \/
  exists r st1,
    summary_rows (snd (handle_entry out_dir inc idx entry st))
    = summary_rows st ++ [r]
    /\ row_index r = idx
    /\ process_entry out_dir inc idx entry st = (Ok Appended, st1)
    /\ summary_rows st1 = summary_rows st ++ [r].
Proof.
  unfold handle_entry.
  destruct (process_entry out_dir inc idx entry st) as [res st1] eqn:H.
  destruct (process_entry_cases _ _ _ _ _ _ _ H)
    as [(e & -> & Hrows) | (v & j & _ & _ &
         [(_ & -> & ->) | (_ & -> & r & Hr & Hidx & _)])].
  - left. destruct (printable e); exact Hrows.
  - left. reflexivity.
  - right. exists r, st1. auto.
Qed.

(** The rows the loop appends: their indices increase strictly, lie among
    the positions it visits, and each row was appended by the pass over the
    entry at its index. *)
Lemma process_entries_rows {L : Lib} (out_dir : pystr) (inc : bool)
    (entries : list json) :
  forall (k : Z) (st : state),
  exists new,
    summary_rows (snd (process_entries out_dir inc k entries st))
    = summary_rows st ++ new /\
    StronglySorted Z.lt (map row_index new) /\
    Forall (fun i => k <= i < k + Z.of_nat (List.length entries))
           (map row_index new) /\
    (forall r, In r new ->
       exists entry st0 st1,
         nth_error entries (Z.to_nat (row_index r - k)) = Some entry /\
         process_entry out_dir inc (row_index r) entry st0 = (Ok Appended, st1) /\
         summary_rows st1 = summary_rows st0 ++ [r]).
Proof.
  induction entries as [|entry rest IH]; intros k st.
  - exists []. simpl. rewrite app_nil_r. repeat split; try constructor.
    intros r [].
  - cbn [process_entries].
    destruct (handle_entry_rows out_dir inc k entry st)
      as [Hsame | (r & st1 & Hone & Hidx & Hp & Hst1)].
    + destruct (handle_entry out_dir inc k entry st) as [[u|e] st2];
        cbn [snd] in *.
      * destruct (IH (k + 1) st2) as (new & Hrows & Hsorted & Hrange & Hfrom).
        exists new. rewrite Hrows, Hsame. split; [reflexivity|].
        split; [exact Hsorted|]. split.
        -- eapply Forall_impl; [|exact Hrange]. cbn [List.length].
           cbv beta; intros; lia.
        -- intros r Hr. destruct (Hfrom r Hr) as (e & st0 & st1 & Hnth & Hp).
           exists e, st0, st1. split; [|exact Hp].
           assert (Hk : k + 1 <= row_index r).
           { rewrite Forall_forall in Hrange.
             apply (Hrange (row_index r)). now apply in_map. }
           replace (Z.to_nat (row_index r - k))
             with (S (Z.to_nat (row_index r - (k + 1)))) by lia.
           exact Hnth.
      * exists []. rewrite app_nil_r. split; [exact Hsame|].
        repeat split; try constructor. intros r [].
    + destruct (handle_entry out_dir inc k entry st) as [[u|e] st2];
        cbn [snd] in *.
      * destruct (IH (k + 1) st2) as (new & Hrows & Hsorted & Hrange & Hfrom).
        assert (Hrange' : Forall (fun i => k < i /\
                  k <= i < k + Z.of_nat (List.length (entry :: rest)))
                  (map row_index new)).
        { eapply Forall_impl; [|exact Hrange]. cbn [List.length].
          cbv beta; intros; lia. }
        exists (r :: new). rewrite Hrows, Hone, <- app_assoc.
        split; [reflexivity|]. cbn [map]. split; [|split].
        -- constructor; [exact Hsorted|]. rewrite Hidx.
           eapply Forall_impl; [|exact Hrange']. cbv beta; intros; lia.
        -- constructor; [rewrite Hidx; cbn [List.length]; lia|].
           eapply Forall_impl; [|exact Hrange']. cbv beta; intros; lia.
        -- intros r' [<- | Hr'].
           ++ exists entry, st, st1. rewrite Hidx, Z.sub_diag. auto.
           ++ destruct (Hfrom r' Hr') as (e & st0 & st3 & Hnth & Hp').
              exists e, st0, st3. split; [|exact Hp'].
              assert (Hk : k + 1 <= row_index r').
              { rewrite Forall_forall in Hrange.
                apply (Hrange (row_index r')). now apply in_map. }
              replace (Z.to_nat (row_index r' - k))
                with (S (Z.to_nat (row_index r' - (k + 1)))) by lia.
              exact Hnth.
      * exists [r]. split; [exact Hone|]. cbn [map]. split; [|split].
        -- repeat constructor.
        -- constructor; [rewrite Hidx; cbn [List.length]; lia | constructor].
        -- intros r' [<- | []]. exists entry, st, st1.
           rewrite Hidx, Z.sub_diag. auto.
Qed.

(** The rows that are written are the first rows. *)
Lemma written_rows_prefix {L : Lib} (rows : list row) :
  exists rest, rows = written_rows rows ++ rest.
Proof.
  induction rows as [|r rows [rest IH]]; [now exists []|].
  cbn [written_rows]. destruct (row_encodable r).
  - exists rest. cbn [app]. now f_equal.
  - now exists (r :: rows).
Qed.

Lemma written_rows_all {L : Lib} (rows : list row) :
  forallb row_encodable rows = true -> written_rows rows = rows.
Proof.
  induction rows as [|r rows IH]; [reflexivity|]. cbn [forallb written_rows].
  intros H. apply andb_true_iff in H as [Hr Hrest].
  now rewrite Hr, IH.
Qed.

(** The rows of the summary are the first of the rows that the loop has
    collected. *)
Lemma main_summary_prefix {L : Lib} (har_file : input_file) (out_dir : pystr)
    (inc : bool) (rows : list row) :
  summary_csv (main har_file out_dir inc) = Some rows ->
  exists entries st rest,
    capture_entries har_file = Some entries /\
    final (main har_file out_dir inc) = st /\
    st = snd (process_entries out_dir inc 1 entries initial) /\
    summary_rows st = rows ++ rest.
Proof.
  unfold main, capture_entries. intros H.
  destruct har_file as [|bytes]; [discriminate|].
  destruct (json_load bytes) as [har|]; [|discriminate]. cbn [bind].
  destruct (entries_of har) as [ev|]; [|discriminate]. cbn [bind].
  destruct (truthy ev); [|discriminate]. cbn [negb] in H.
  destruct (iterate ev) as [entries|]; [|discriminate].
  destruct (process_entries out_dir inc 1 entries initial) as [[u|e] st] eqn:Hp;
    [|discriminate].
  destruct (open_w (summary_path out_dir)); [|discriminate].
  destruct (forallb row_encodable (summary_rows st)) eqn:Henc;
    cbn [summary_csv final] in *; injection H as <-.
  - exists entries, st, []. rewrite app_nil_r, Hp. repeat split.
  - destruct (written_rows_prefix (summary_rows st)) as [rest Hrest].
    exists entries, st, rest. rewrite Hp. repeat split. exact Hrest.
Qed.

Lemma filter_none {A} (f : A -> bool) (l : list A) :
  (forall x, In x l -> f x = false) -> filter f l = [].
Proof.
  induction l as [|x l IH]; intros H; [reflexivity|].
  simpl. rewrite (H x (or_introl eq_refl)). apply IH. intros; apply H. now right.
Qed.

(** A strictly increasing list of positions is the positions filtered. *)
Lemma increasing_positions_filter (n : nat) :
  forall (a : nat) (l : list Z),
    StronglySorted Z.lt l ->
    Forall (fun i => Z.of_nat a <= i < Z.of_nat (a + n)) l ->
    l = filter (fun i => existsb (Z.eqb i) l) (map Z.of_nat (seq a n)).
Proof.
  induction n as [|n IH]; intros a l Hs Hr.
  - destruct l; [reflexivity|]. inversion Hr; subst. lia.
  - cbn [seq map filter].
    destruct l as [|h t].
    + cbn [existsb]. symmetry. apply filter_none. reflexivity.
    + inversion Hs as [|? ? Hts Hht]; subst. inversion Hr as [|? ? Hh Ht]; subst.
      rewrite Forall_forall in Hht, Ht.
      destruct (Z.eq_dec h (Z.of_nat a)) as [-> | Hne].
      * cbn [existsb]. rewrite Z.eqb_refl. cbn [orb]. f_equal.
        rewrite (IH (S a) t Hts) at 1.
        -- apply filter_ext_in. intros i Hi. apply in_map_iff in Hi
             as (x & <- & Hx). apply in_seq in Hx.
           cbn [existsb].
           replace (Z.of_nat x =? Z.of_nat a) with false; [reflexivity|].
           symmetry. apply Z.eqb_neq. lia.
        -- apply Forall_forall. intros x Hx.
           specialize (Hht x Hx). specialize (Ht x Hx). lia.
      * assert (Hmem : existsb (Z.eqb (Z.of_nat a)) (h :: t) = false).
        { apply not_true_is_false. intros Hex.
          apply existsb_exists in Hex as (x & Hx & Hax).
          apply Z.eqb_eq in Hax. subst x.
          destruct Hx as [-> | Hx]; [now apply Hne|].
          specialize (Hht _ Hx). lia. }
        rewrite Hmem. apply (IH (S a) (h :: t) Hs).
        apply Forall_forall. intros x [<- | Hx]; [lia|].
        specialize (Hht x Hx). specialize (Ht x Hx). lia.
Qed.

(** C4: the indices of the rows of the summary are positions of entries of
    the capture, counted from 1: they increase strictly, they are the
    positions 1..N filtered, and the row with index [i] was appended by the
    pass over the entry at position [i]; leaving entries out renumbers
    nothing. *)
Theorem C4_row_indices_are_entry_positions {L : Lib} (har_file : input_file)
    (out_dir : pystr) (include_nonjson : bool) (rows : list row) :
  summary_csv (main har_file out_dir include_nonjson) = Some rows ->
  exists entries,
    capture_entries har_file = Some entries /\
    StronglySorted Z.lt (map row_index rows) /\
    Forall (fun i => 1 <= i <= Z.of_nat (List.length entries))
           (map row_index rows) /\
    (exists keep, map row_index rows
                  = filter keep (map Z.of_nat (seq 1 (List.length entries)))) /\
    (forall r, In r rows ->
       exists entry st0 st1,
         nth_error entries (Z.to_nat (row_index r - 1)) = Some entry /\
         process_entry out_dir include_nonjson (row_index r) entry st0
         = (Ok Appended, st1) /\
         summary_rows st1 = summary_rows st0 ++ [r]).
Proof.
  intros H.
  destruct (main_summary_prefix _ _ _ _ H)
    as (entries & st & rest & Hcap & _ & -> & Hrows).
  exists entries. split; [exact Hcap|].
  destruct (process_entries_rows out_dir include_nonjson entries 1 initial)
    as (new & Hnew & Hs & Hr & Hfrom).
  rewrite Hnew in Hrows. cbn [summary_rows initial app] in Hrows. subst new.
  rewrite map_app in Hs, Hr.
  assert (Hs' : StronglySorted Z.lt (map row_index rows)).
  { clear - Hs. induction (map row_index rows) as [|x l IH]; [constructor|].
    cbn [app] in Hs. inversion Hs as [|? ? Hl Hx]; subst.
    constructor; [now apply IH|].
    apply Forall_app in Hx. tauto. }
  apply Forall_app in Hr as [Hr _].
  assert (Hr' : Forall (fun i => Z.of_nat 1 <= i
                                 < Z.of_nat (1 + List.length entries))
                       (map row_index rows)).
  { eapply Forall_impl; [|exact Hr]. cbv beta. intros; lia. }
  split; [exact Hs'|]. split; [|split].
  - eapply Forall_impl; [|exact Hr]. cbv beta. intros; lia.
  - eexists. apply increasing_positions_filter; assumption.
  - intros r Hin. apply Hfrom, in_app_iff. now left.
Qed.

(** Three entries of which the second is left out: the rows have the
    indices 1 and 3. *)
Lemma C4_witness_three_entries :
  exists rows,
    summary_csv (main (L := example_lib) (File three_entries) (str "/out") false)
    = Some rows /\
    map row_index rows = [1; 3] /\
    StronglySorted Z.lt (map row_index rows).
Proof.
  destruct (summary_csv (main (L := example_lib) (File three_entries)
                           (str "/out") false)) as [rows|] eqn:H;
    [|vm_compute in H; discriminate].
  exists rows. split; [reflexivity|].
  destruct (C4_row_indices_are_entry_positions _ _ _ _ H)
    as (entries & _ & Hs & _).
  split; [|exact Hs].
  vm_compute in H. injection H as <-. reflexivity.
Defined.


(** ** Slugs *)

Ltac bool_to_prop H :=
  repeat rewrite ?orb_true_iff, ?andb_true_iff, ?Z.leb_le, ?Z.ltb_lt,
    ?Z.eqb_eq in H.

Lemma slug_char_not_space (c : Z) : slug_char c = true -> is_space c = false.
Proof.
  unfold slug_char, is_space. intros H. bool_to_prop H.
  apply not_true_is_false. intros H2. bool_to_prop H2. lia.
Qed.

Lemma slug_char_lower (c : Z) : slug_char c = true -> lower_cp c = [c].
Proof.
  unfold slug_char, lower_cp. intros H. bool_to_prop H.
  replace ((65 <=? c) && (c <=? 90)) with false
    by (symmetry; apply not_true_is_false; intros H2; bool_to_prop H2; lia).
  replace (c =? 8490) with false by (symmetry; apply Z.eqb_neq; lia).
  replace (c =? 304) with false by (symmetry; apply Z.eqb_neq; lia).
  reflexivity.
Qed.

Lemma lower_cp_slash (c x : Z) : In x (lower_cp c) -> x = 47 -> c = 47.
Proof.
  unfold lower_cp.
  destruct ((65 <=? c) && (c <=? 90)) eqn:E1.
  { bool_to_prop E1. intros [<- | []] ?. lia. }
  destruct (c =? 8490); [intros [<- | []] ?; lia|].
  destruct (c =? 304); [intros [<- | [<- | []]] ?; lia|].
  intros [<- | []] ?. assumption.
Qed.

Lemma flat_map_singletons {A} (f : A -> list A) (l : list A) :
  (forall x, In x l -> f x = [x]) -> flat_map f l = l.
Proof.
  induction l as [|x l IH]; intros H; [reflexivity|]. simpl.
  rewrite (H x (or_introl eq_refl)), IH; [reflexivity|].
  intros y Hy. apply H. now right.
Qed.

Lemma collapse_hyphens_in (s : pystr) (c : Z) :
  In c (collapse_hyphens s) -> In c s.
Proof.
  induction s as [|x s IH]; [auto|]. cbn [collapse_hyphens].
  destruct (x =? 45).
  - destruct s as [|d s']; [auto|].
    destruct (d =? 45).
    + intros H. right. now apply IH.
    + intros [H | H]; [now left | right; now apply IH].
  - intros [H | H]; [now left | right; now apply IH].
Qed.

(** After [re.sub(r"[-]+", "-", text)] no two hyphens are adjacent. *)
Lemma collapse_hyphens_single (s : pystr) :
  contains (collapse_hyphens s) (str "--") = false.
Proof.
  change (str "--") with [45; 45].
  induction s as [|x s IH]; [reflexivity|]. cbn [collapse_hyphens].
  destruct (x =? 45) eqn:E.
  - destruct s as [|d s']; [cbn [contains startswith]; now rewrite andb_false_r|].
    destruct (d =? 45) eqn:E2; [exact IH|].
    rewrite contains_cons, IH, orb_false_r.
    cbn [collapse_hyphens]. rewrite E2. cbn [startswith].
    rewrite (Z.eqb_sym 45 d), E2. now rewrite andb_false_r.
  - rewrite contains_cons, IH, orb_false_r.
    destruct (collapse_hyphens s); cbn [startswith];
      now rewrite (Z.eqb_sym 45 x), E.
Qed.

Lemma collapse_hyphens_id (s : pystr) :
  contains s (str "--") = false -> collapse_hyphens s = s.
Proof.
  change (str "--") with [45; 45].
  induction s as [|x s IH]; [reflexivity|].
  rewrite contains_cons. intros H. apply orb_false_iff in H as [H1 H2].
  cbn [collapse_hyphens]. rewrite (IH H2).
  destruct (x =? 45) eqn:E; [|reflexivity].
  destruct s as [|d s']; [reflexivity|].
  destruct (d =? 45) eqn:E2; [|reflexivity].
  exfalso. apply Z.eqb_eq in E, E2. subst. destruct s'; discriminate H1.
Qed.

Lemma slug_text_chars (text : pystr) (c : Z) :
  In c (slug_text text) -> slug_char c = true.
Proof.
  unfold slug_text. intros H. apply collapse_hyphens_in in H.
  apply in_map_iff in H as (x & <- & _).
  destruct (slug_char x) eqn:E; [exact E | reflexivity].
Qed.

(** [text[:n]] is a prefix: the first [n] characters, or for a negative [n]
    all but the last [-n]. *)
Lemma slice_to_firstn (n : Z) (s : pystr) :
  exists m, slice_to n s = firstn m s /\
    (0 <= n -> m = Z.to_nat n) /\
    (n < 0 -> m = (List.length s - Z.to_nat (- n))%nat).
Proof.
  unfold slice_to. destruct (0 <=? n) eqn:E.
  - apply Z.leb_le in E. exists (Z.to_nat n). repeat split. lia.
  - apply Z.leb_gt in E. exists (List.length s - Z.to_nat (- n))%nat.
    repeat split. lia.
Qed.

(** [slugify] returns "untitled", or a non-empty prefix of the collapsed
    text: one no longer than [max_len], or for a negative [max_len] one that
    leaves out the last [- max_len] characters at least. *)
Lemma slugify_cases (text : pystr) (max_len : Z) :
  slugify text max_len = str "untitled" \/
  (slugify text max_len <> [] /\
   (0 <= max_len -> Z.of_nat (List.length (slugify text max_len)) <= max_len) /\
   (max_len < 0 ->
    Z.of_nat (List.length (slugify text max_len))
    <= Z.of_nat (List.length (slug_text text)) + max_len) /\
   exists b, slug_text text = slugify text max_len ++ b).
Proof.
  assert (E : slugify text max_len =
              let t := if max_len <? Z.of_nat (List.length (slug_text text))
                       then rstrip_chars (str "-_.:")
                              (slice_to max_len (slug_text text))
                       else slug_text text in
              match t with [] => str "untitled" | _ => t end) by reflexivity.
  rewrite E. clear E. cbv zeta.
  destruct (max_len <? Z.of_nat (List.length (slug_text text))) eqn:Hlen.
  - destruct (slice_to_firstn max_len (slug_text text)) as (m & -> & Hpos & Hneg).
    destruct (rstrip_chars_prefix (str "-_.:") (firstn m (slug_text text)))
      as [b Hb].
    pose proof (firstn_le_length m (slug_text text)) as Hn.
    assert (Hm : (List.length (firstn m (slug_text text)) <= m)%nat).
    { rewrite length_firstn. lia. }
    rewrite Hb, length_app in Hn, Hm.
    destruct (rstrip_chars (str "-_.:") (firstn m (slug_text text)))
      as [|c r]; [now left | right].
    cbn [List.length] in *.
    split; [discriminate | split; [|split]].
    + intros H0. specialize (Hpos H0). lia.
    + intros H0. specialize (Hneg H0). lia.
    + exists (b ++ skipn m (slug_text text)).
      now rewrite app_assoc, <- Hb, firstn_skipn.
  - apply Z.ltb_ge in Hlen.
    destruct (slug_text text) as [|c r]; [now left | right].
    split; [discriminate | split; [|split]].
    + intros _. exact Hlen.
    + intros H0. cbn [List.length] in *. lia.
    + exists []. now rewrite app_nil_r.
Qed.

Lemma slugify_shape (text : pystr) (max_len : Z) :
  slugify text max_len <> [] /\
  (forall c, In c (slugify text max_len) -> slug_char c = true) /\
  contains (slugify text max_len) (str "--") = false.
Proof.
  destruct (slugify_cases text max_len) as [-> | (Hne & _ & _ & b & Hb)].
  - split; [discriminate | split; [|reflexivity]].
    intros c Hc. simpl in Hc.
    repeat (destruct Hc as [<- | Hc]; [reflexivity|]). destruct Hc.
  - split; [exact Hne | split].
    + intros c Hc. apply (slug_text_chars text). rewrite Hb.
      apply in_app_iff. now left.
    + apply not_true_is_false. intros H. apply (contains_app_l _ b) in H.
      rewrite <- Hb in H. unfold slug_text in H.
      now rewrite collapse_hyphens_single in H.
Qed.

(** A text that already has the shape of a slug is returned as it is. *)
Lemma slugify_fixed (r : pystr) (n : Z) :
  r <> [] -> (forall c, In c r -> slug_char c = true) ->
  contains r (str "--") = false -> Z.of_nat (List.length r) <= n ->
  slugify r n = r.
Proof.
  intros Hne Hchars Hhy Hlen. unfold slugify. cbv zeta.
  rewrite strip_id by (intros c Hc; now apply slug_char_not_space, Hchars).
  assert (Hl : lower r = r).
  { apply flat_map_singletons. intros c Hc. now apply slug_char_lower, Hchars. }
  rewrite Hl.
  assert (Hm : map (fun c => if slug_char c then c else 45) r = r).
  { rewrite <- (map_id r) at 2. apply map_ext_in. intros c Hc.
    now rewrite (Hchars c Hc). }
  rewrite Hm, (collapse_hyphens_id _ Hhy).
  apply Z.ltb_ge in Hlen. rewrite Hlen.
  destruct r; [contradiction | reflexivity].
Qed.

(** X1: the slug that [slugify] returns is never empty, holds only the
    characters a-z, 0-9 and - _ . : / and has no two adjacent hyphens,
    whatever text it is given and whatever the length limit. *)
Theorem X1_slug_is_safe (text : pystr) (max_len : Z) :
  slugify text max_len <> [] /\
  forallb slug_char (slugify text max_len) = true /\
  contains (slugify text max_len) (str "--") = false.
Proof.
  destruct (slugify_shape text max_len) as (Hne & Hc & Hh).
  split; [exact Hne | split; [|exact Hh]].
  apply forallb_forall. exact Hc.
Qed.

(** X2: for a length limit [max_len] that is not negative a slug is not
    longer than [max_len], except that the default "untitled", of length 8,
    is returned uncut.  A negative limit is no limit on the length: the cut
    [text[:max_len]] then drops the last [- max_len] characters of the
    collapsed text, so that the slug is that much shorter than the collapsed
    text, or is "untitled". *)
Theorem X2_slug_length (text : pystr) (max_len : Z) :
  let slug := slugify text max_len in
  let len := Z.of_nat (List.length slug) in
  (0 <= max_len ->
   len <= Z.max max_len 8 /\ (slug <> str "untitled" -> len <= max_len)) /\
  (max_len < 0 ->
   len <= Z.max (Z.of_nat (List.length (slug_text text)) + max_len) 8 /\
   (slug <> str "untitled" ->
    len <= Z.of_nat (List.length (slug_text text)) + max_len)).
Proof.
  cbv zeta.
  destruct (slugify_cases text max_len) as [-> | (_ & Hpos & Hneg & _)].
  - change (Z.of_nat (List.length (str "untitled"))) with 8.
    split; intros _; (split; [lia | congruence]).
  - split; intros H0; [specialize (Hpos H0) | specialize (Hneg H0)];
      (split; [lia | auto]).
Qed.

(** A limit of 5 cuts to 5 characters or fewer; the limit -1 drops the last
    character only, and leaves a slug of 11 characters. *)
Lemma X2_witness_negative_limit :
  slugify (str "abcdefghijkl") 5 = str "abcde" /\
  slugify (str "abcd-efgh") 5 = str "abcd" /\
  slugify (str "abcdefghijkl") (-1) = str "abcdefghijk" /\
  slugify (str "abc") (-5) = str "untitled" /\
  Z.of_nat (List.length (slugify (str "abcdefghijkl") (-1)))
  <= Z.of_nat (List.length (slug_text (str "abcdefghijkl"))) + -1.
Proof.
  repeat (split; [reflexivity|]).
  destruct (X2_slug_length (str "abcdefghijkl") (-1)) as [_ H].
  apply H; [lia | discriminate].
Defined.

(** X3: [slugify] is idempotent for a length limit of 8 or more: the slug
    of a slug is that slug. *)
Theorem X3_slugify_idempotent (text : pystr) (max_len : Z) :
  8 <= max_len ->
  slugify (slugify text max_len) max_len = slugify text max_len.
Proof.
  intros Hn. destruct (slugify_shape text max_len) as (Hne & Hc & Hh).
  apply slugify_fixed; try assumption.
  destruct (slugify_cases text max_len) as [-> | (_ & Hpos & _)].
  - change (Z.of_nat (List.length (str "untitled"))) with 8. exact Hn.
  - apply Hpos. lia.
Qed.

Lemma X3_witness_slug_of_slug :
  slugify (str "  Wp-JSON//Posts & Pages.PHP ") 60 = str "wp-json//posts-pages.php" /\
  slugify (slugify (str "  Wp-JSON//Posts & Pages.PHP ") 60) 60
  = slugify (str "  Wp-JSON//Posts & Pages.PHP ") 60.
Proof.
  split; [reflexivity|].
  apply (X3_slugify_idempotent (str "  Wp-JSON//Posts & Pages.PHP ") 60). lia.
Defined.

(** X4: the slug of a path whose slashes were replaced, as the loop builds
    the path part of a file name, holds no slash. *)
Theorem X4_path_slug_has_no_slash (p : pystr) (max_len : Z) :
  ~ In 47 (slugify (replace_char 47 45 p) max_len).
Proof.
  intros H.
  destruct (slugify_cases (replace_char 47 45 p) max_len)
    as [E | (_ & _ & _ & b & Hb)].
  - rewrite E in H. simpl in H.
    repeat (destruct H as [H | H]; [discriminate H|]). destruct H.
  - assert (Ht : In 47 (slug_text (replace_char 47 45 p)))
      by (rewrite Hb; apply in_app_iff; now left).
    unfold slug_text in Ht. apply collapse_hyphens_in in Ht.
    apply in_map_iff in Ht as (x & Hx & Hin).
    destruct (slug_char x); [subst x | discriminate Hx].
    unfold lower in Hin. apply in_flat_map in Hin as (c & Hc & Hl).
    apply lower_cp_slash in Hl; [subst c | reflexivity].
    apply strip_in in Hc. unfold replace_char in Hc.
    apply in_map_iff in Hc as (y & Hy & _).
    destruct (y =? 47) eqn:E; [discriminate Hy|].
    apply Z.eqb_neq in E. congruence.
Qed.

(** ** What the hardening prefixes do *)

(** X5: the three hardening prefixes that end in a line feed are redundant:
    [strip_json_hardening_prefix] returns the same text when only the three
    prefixes without the line feed are tried. *)
Theorem X5_newline_prefixes_are_redundant (s : pystr) :
  strip_json_hardening_prefix s =
  match strip_first_prefix (lstrip s) short_prefixes with
  | Some r => r
  | None => s
  end.
Proof.
  unfold strip_json_hardening_prefix. cbv zeta.
  now rewrite hardening_prefixes_short.
Qed.

(** X6: a body that is white space, a hardening prefix and a text is parsed
    as that text: [try_parse_json] returns the JSON value of the text behind
    the prefix, or fails when that text is no JSON. *)
Theorem X6_body_parsed_behind_prefix (ws p body : pystr) :
  In p hardening_prefixes ->
  (forall c, In c ws -> is_space c = true) ->
  try_parse_json (JStr (ws ++ p ++ body)) =
  match json_loads (strip body) with
  | Some v => Ok (v, true)
  | None => Ok (JNull, false)
  end.
Proof.
  intros Hp Hws.
  destruct (strip_hardened ws p body Hp Hws) as [Hstrip Hne].
  unfold try_parse_json.
  assert (Ht : truthy (JStr (ws ++ p ++ body)) = true)
    by (destruct (ws ++ p ++ body); [congruence | reflexivity]).
  rewrite Ht. cbn [negb as_str bind]. rewrite Hstrip.
  destruct (strip body); [reflexivity|].
  now destruct (json_loads (z :: p0)).
Qed.

Lemma X6_witness_hardened_array :
  In (str "for(;;);") hardening_prefixes /\
  try_parse_json (JStr (str "  " ++ str "for(;;);" ++ str " [1, 2] "))
  = Ok (JList [JInt 1; JInt 2], true).
Proof.
  assert (Hp : In (str "for(;;);") hardening_prefixes)
    by (do 5 right; now left).
  split; [exact Hp|].
  rewrite (X6_body_parsed_behind_prefix (str "  ") (str "for(;;);")
             (str " [1, 2] ") Hp).
  - reflexivity.
  - intros c [<- | [<- | []]]; reflexivity.
Defined.

(** X7: stripping never costs a body that is JSON as it stands: when the
    trimmed text of a body is JSON, [try_parse_json] returns its value. *)
Theorem X7_json_body_parsed_as_it_stands (t : pystr) (v : json) :
  json_loads (strip t) = Some v ->
  try_parse_json (JStr t) = Ok (v, true).
Proof.
  intros H.
  assert (Hs : strip (strip_json_hardening_prefix t) = strip t).
  { unfold strip_json_hardening_prefix. cbv zeta.
    rewrite hardening_prefixes_short.
    destruct (strip_first_prefix (lstrip t) short_prefixes) as [r|] eqn:E;
      [|reflexivity].
    exfalso. apply strip_first_prefix_some in E as (q & Hq & Hst).
    apply startswith_spec in Hst as [b Hb].
    unfold strip in H. rewrite Hb, (prefixed_is_not_json _ _ Hq) in H.
    discriminate. }
  unfold try_parse_json.
  destruct t as [|c t']; [vm_compute in H; discriminate H|].
  cbn [truthy negb as_str bind]. rewrite Hs.
  destruct (strip (c :: t')); [vm_compute in H; discriminate H|].
  now rewrite H.
Qed.

Lemma X7_witness_false_literal :
  json_loads (strip (str " false ")) = Some (JBool false) /\
  try_parse_json (JStr (str " false ")) = Ok (JBool false, true).
Proof.
  split; [reflexivity|].
  apply (X7_json_body_parsed_as_it_stands (str " false ")). reflexivity.
Defined.

(** ** The body decoder and the classifier on any entry *)

(** X8: [decode_body_text] raises exactly when the content is no object;
    on an object it returns, and a text that is a string and not tagged as
    base64 is returned unchanged. *)
Theorem X8_body_decoder_raises_only_without_object {L : Lib} (content : json) :
  (raises (decode_body_text content) = true <-> forall d, content <> JDict d) /\
  (forall t enc,
     get content (str "text") = Ok (JStr t) ->
     get content (str "encoding") = Ok enc ->
     eq_str enc (str "base64") = false ->
     decode_body_text content = Ok (Some t)).
Proof.
  split.
  - destruct content; try (split; [intros _ d0; discriminate | reflexivity]).
    split; [|intros H; now destruct (H d)].
    unfold decode_body_text, get, get_default. cbn [bind].
    destruct (match dict_lookup d (JStr (str "text")) with
              | Some v => v | None => JNull end); discriminate.
  - intros t enc Ht Henc Hb. unfold decode_body_text.
    rewrite Ht. cbn [bind]. rewrite Henc. cbn [bind]. now rewrite Hb.
Qed.

(** X9: the classifier returns a verdict for every entry whose URL path,
    method and mime type can be read: nothing in the response body, be it
    no string or broken base64, makes it raise. *)
Theorem X9_classifier_returns_when_request_is_readable {L : Lib}
    (entry : json) (p method mime : pystr) :
  entry_path entry = Ok p ->
  entry_method entry = Ok method ->
  entry_mime entry = Ok mime ->
  exists v, is_probable_api entry = Ok v.
Proof.
  intros Hp Hm Hmime.
  assert (Hc : exists d, entry_content entry = Ok (JDict d)).
  { unfold entry_mime in Hmime.
    destruct (get_default entry (str "response") (JDict [])); [|discriminate].
    cbn [bind] in Hmime.
    destruct (entry_content entry) as [c|]; [|discriminate].
    cbn [bind] in Hmime. destruct c; try discriminate Hmime. eauto. }
  destruct Hc as [d Hc].
  rewrite (is_probable_api_unfold _ _ _ _ _ Hp Hm Hmime Hc).
  repeat match goal with
  | |- exists v, (if ?c then _ else _) = Ok v => destruct c
  end; eauto.
  unfold get, get_default. cbn [bind].
  destruct (truthy _); eauto.
Qed.

Lemma X9_witness_broken_base64 :
  let entry := parse "{`request`: {`url`: `https://example.com/page`, `method`: `GET`}, `response`: {`content`: {`mimeType`: `text/html`, `text`: `A`, `encoding`: `base64`}}}" in
  entry_path (L := example_lib) entry = Ok (str "/page") /\
  b64decode (str "A") = Raise BinasciiError /\
  is_probable_api (L := example_lib) entry = Ok false.
Proof.
  intros entry.
  assert (Hp : entry_path (L := example_lib) entry = Ok (str "/page")) by run.
  assert (Hm : entry_method entry = Ok (str "GET")) by run.
  assert (Hmime : entry_mime entry = Ok (str "text/html")) by run.
  split; [exact Hp | split; [reflexivity|]].
  destruct (X9_classifier_returns_when_request_is_readable (L := example_lib)
              entry _ _ _ Hp Hm Hmime) as [v Hv].
  rewrite Hv. vm_compute in Hv. injection Hv as <-. reflexivity.
Defined.

(** ** Entries are processed independently *)

Lemma combine_initial (st : state) : combine_state st initial = st.
Proof.
  destruct st. unfold combine_state. cbn.
  now rewrite !app_nil_r, !Z.add_0_r.
Qed.

Lemma combine_assoc (a b c : state) :
  combine_state a (combine_state b c) = combine_state (combine_state a b) c.
Proof.
  unfold combine_state. cbn. f_equal; try lia; now rewrite app_assoc.
Qed.

Lemma uniform_lift {A} (c : exc A) : uniform (lift c).
Proof. intros st. unfold lift. cbn. now rewrite combine_initial. Qed.

Lemma uniform_ret {A} (a : A) : uniform (ret a).
Proof. intros st. unfold ret. cbn. now rewrite combine_initial. Qed.

Lemma uniform_modify (f : state -> state) :
  (forall st, f st = combine_state st (f initial)) -> uniform (modify f).
Proof. intros Hf st. unfold modify. cbn. now rewrite <- Hf. Qed.

Lemma uniform_bind {A B} (c : M A) (k : A -> M B) :
  uniform c -> (forall a, uniform (k a)) -> uniform (mbind c k).
Proof.
  intros Hc Hk st. unfold mbind. rewrite (Hc st).
  destruct (c initial) as [[a|e] s0]; cbn [fst snd]; [|reflexivity].
  rewrite (Hk a (combine_state st s0)), (Hk a s0). cbn [fst snd].
  now rewrite combine_assoc.
Qed.

Lemma uniform_write_json {L : Lib} (path : pystr) (obj : json) :
  uniform (write_json path obj).
Proof.
  intros st. unfold write_json.
  destruct (open_w path); [destruct (json_encodable obj)|]; cbn [fst snd].
  - f_equal. destruct st. unfold add_file, combine_state. cbn.
    now rewrite !app_nil_r, !Z.add_0_r.
  - f_equal. destruct st. unfold add_file, combine_state. cbn.
    now rewrite !app_nil_r, !Z.add_0_r.
  - now rewrite combine_initial.
Qed.

Lemma uniform_update (f : state -> state) :
  f = incr_total_api \/ f = incr_total_json_saved \/
  f = incr_total_req_json_saved \/ (exists r, f = append_row r) ->
  forall st, f st = combine_state st (f initial).
Proof.
  intros [-> | [-> | [-> | [r ->]]]] st; destruct st;
    unfold incr_total_api, incr_total_json_saved, incr_total_req_json_saved,
      append_row, combine_state; cbn;
    now rewrite ?app_nil_r, ?Z.add_0_r.
Qed.

Ltac uniformly :=
  repeat first
    [ apply uniform_lift | apply uniform_ret | apply uniform_write_json
    | apply uniform_modify; apply uniform_update; eauto 6
    | apply uniform_bind; [|intros ?]
    | match goal with
      | |- uniform (if ?b then _ else _) => destruct b
      | |- uniform (match ?x with (_, _) => _ end) => destruct x
      end
    | progress cbv zeta ].

Lemma process_entry_uniform {L : Lib} (out_dir : pystr) (inc : bool)
    (idx : Z) (entry : json) :
  uniform (process_entry out_dir inc idx entry).
Proof. unfold process_entry. uniformly. Qed.

Lemma entries_of_truthy (har entries : json) :
  entries_of har = Ok entries -> truthy entries = true \/ entries = JList [].
Proof.
  unfold entries_of. intros H.
  destruct (get (or_ har (JDict [])) (str "log")) as [log|]; [|discriminate].
  cbn [bind] in H.
  destruct (get (or_ log (JDict [])) (str "entries")) as [x|]; [|discriminate].
  cbn [bind] in H. injection H as <-. unfold or_.
  destruct (truthy x) eqn:Hx; [now left | now right].
Qed.

Lemma handle_entry_uniform {L : Lib} (out_dir : pystr) (inc : bool)
    (idx : Z) (entry : json) :
  uniform (handle_entry out_dir inc idx entry).
Proof.
  intros st. unfold handle_entry.
  rewrite (process_entry_uniform out_dir inc idx entry st).
  destruct (process_entry out_dir inc idx entry initial) as [[p|e] s0];
    cbn [fst snd]; [reflexivity|].
  destruct (printable e); cbn [fst snd]; [|reflexivity].
  f_equal. unfold add_warning, combine_state. cbn. f_equal.
  now rewrite app_assoc.
Qed.

Lemma handle_entry_combine {L : Lib} (out_dir : pystr) (inc : bool)
    (idx : Z) (entry : json) (st : state) :
  handle_entry out_dir inc idx entry st
  = (fst (handle_entry out_dir inc idx entry initial),
     combine_state st (entry_outcome out_dir inc (idx, entry))).
Proof. apply handle_entry_uniform. Qed.

(** What the handler lets out is the error of its [print]. *)
Lemma handle_entry_raises {L : Lib} (out_dir : pystr) (inc : bool)
    (idx : Z) (entry : json) (st st' : state) (e : exn) :
  handle_entry out_dir inc idx entry st = (Raise e, st') -> e = UnicodeError.
Proof.
  unfold handle_entry.
  destruct (process_entry out_dir inc idx entry st) as [[p|e0] s];
    [discriminate|].
  destruct (printable e0); [discriminate|].
  intros H. now injection H as <- _.
Qed.

(** The loop puts together the outcomes of the entries it visits, and raises
    when one of them stops it. *)
Lemma process_entries_fold {L : Lib} (out_dir : pystr) (inc : bool)
    (entries : list json) :
  forall (k : Z) (st : state),
    process_entries out_dir inc k entries st
    = (if existsb (entry_stops out_dir inc) (enumerate k entries)
       then Raise UnicodeError else Ok tt,
       fold_left (fun st ie => combine_state st (entry_outcome out_dir inc ie))
         (visited (entry_stops out_dir inc) (enumerate k entries)) st).
Proof.
  induction entries as [|entry rest IH]; intros k st; [reflexivity|].
  cbn [process_entries enumerate existsb visited].
  rewrite handle_entry_combine.
  assert (Hs : entry_stops out_dir inc (k, entry)
               = raises (fst (handle_entry out_dir inc k entry initial)))
    by reflexivity.
  rewrite Hs.
  destruct (handle_entry out_dir inc k entry initial) as [[u|e] s0] eqn:H;
    cbn [fst snd raises orb].
  - rewrite IH. reflexivity.
  - now rewrite (handle_entry_raises _ _ _ _ _ _ _ H).
Qed.

Lemma visited_incl {A} (stops : A -> bool) (l : list A) (x : A) :
  In x (visited stops l) -> In x l.
Proof.
  induction l as [|y l IH]; [auto|]. cbn [visited].
  destruct (stops y).
  - intros [<- | []]. now left.
  - intros [<- | H]; [now left | right; auto].
Qed.

Lemma visited_prefix {A} (stops : A -> bool) (l : list A) :
  exists rest, l = visited stops l ++ rest.
Proof.
  induction l as [|y l [rest IH]]; [now exists []|]. cbn [visited].
  destruct (stops y).
  - now exists l.
  - exists rest. cbn [app]. now f_equal.
Qed.

Lemma visited_all {A} (stops : A -> bool) (l : list A) :
  existsb stops l = false -> visited stops l = l.
Proof.
  induction l as [|y l IH]; [reflexivity|]. cbn [existsb visited].
  intros H. apply orb_false_iff in H as [-> H]. now rewrite IH.
Qed.

Lemma visited_ext {A} (f g : A -> bool) (l : list A) :
  (forall x, f x = g x) -> visited f l = visited g l.
Proof.
  intros H. induction l as [|y l IH]; [reflexivity|]. cbn [visited].
  now rewrite H, IH.
Qed.

Lemma existsb_same {A} (f g : A -> bool) (l : list A) :
  (forall x, f x = g x) -> existsb f l = existsb g l.
Proof.
  intros H. induction l as [|y l IH]; [reflexivity|]. cbn [existsb].
  now rewrite H, IH.
Qed.

Lemma truthy_iterate_nil (v : json) (l : list json) :
  truthy v = false -> iterate v = Ok l -> l = [].
Proof.
  destruct v as [| | | |s|l0|d]; try discriminate.
  - destruct s; [|discriminate]. intros _ H. now injection H as <-.
  - destruct l0; [|discriminate]. intros _ H. now injection H as <-.
  - destruct d; [|discriminate]. intros _ H. now injection H as <-.
Qed.

Lemma truthy_iterate_cons (v : json) (l : list json) :
  truthy v = true -> iterate v = Ok l -> l <> [].
Proof.
  destruct v as [| | | |s|l0|d]; try discriminate.
  - destruct s; [discriminate|]. intros _ H. injection H as <-. discriminate.
  - destruct l0; [discriminate|]. intros _ H. injection H as <-. discriminate.
  - destruct d; [discriminate|]. intros _ H. injection H as <-. discriminate.
Qed.

(** [main] when the entries cannot be read: nothing is processed. *)
Lemma main_not_captured {L : Lib} (har_file : input_file) (out_dir : pystr)
    (inc : bool) :
  capture_entries har_file = None ->
  summary_csv (main har_file out_dir inc) = None /\
  final (main har_file out_dir inc) = initial /\
  ending_of (main har_file out_dir inc) <> Exit 0.
Proof.
  unfold main, capture_entries.
  destruct har_file as [|bytes]; [repeat split; discriminate|].
  destruct (json_load bytes) as [har|]; [|repeat split; discriminate].
  cbn [bind].
  destruct (entries_of har) as [ev|] eqn:He; [|repeat split; discriminate].
  cbn [bind].
  destruct (iterate ev) as [l|] eqn:Hl; [discriminate|]. intros _.
  destruct (entries_of_truthy _ _ He) as [-> | ->]; [|discriminate Hl].
  cbn [negb]. repeat split; discriminate.
Qed.

(** [main] on a capture without entries. *)
Lemma main_no_entries {L : Lib} (har_file : input_file) (out_dir : pystr)
    (inc : bool) :
  capture_entries har_file = Some [] ->
  main har_file out_dir inc
  = {| ending_of := Exit 0; summary_csv := None; final := initial |}.
Proof.
  unfold main, capture_entries.
  destruct har_file as [|bytes]; [discriminate|].
  destruct (json_load bytes) as [har|]; [|discriminate]. cbn [bind].
  destruct (entries_of har) as [ev|]; [|discriminate]. cbn [bind].
  destruct (iterate ev) as [l|] eqn:Hl; [|discriminate]. intros H.
  injection H as ->.
  destruct (truthy ev) eqn:Ht; cbn [negb]; [|reflexivity].
  now destruct (truthy_iterate_cons _ _ Ht Hl).
Qed.

(** [main] on a capture with entries: the loop, the summary and the closing
    message. *)
Lemma main_run {L : Lib} (har_file : input_file) (out_dir : pystr)
    (inc : bool) (entries : list json) :
  capture_entries har_file = Some entries -> entries <> [] ->
  main har_file out_dir inc
  = let st :=
      fold_left (fun st ie => combine_state st (entry_outcome out_dir inc ie))
        (visited (entry_stops out_dir inc) (enumerate 1 entries)) initial in
    if existsb (entry_stops out_dir inc) (enumerate 1 entries) then
      {| ending_of := Uncaught UnicodeError; summary_csv := None; final := st |}
    else if open_w (summary_path out_dir) then
      if forallb row_encodable (summary_rows st) then
        {| ending_of :=
             if utf8_encodable (closing_message out_dir (List.length entries) st)
             then Exit 0 else Uncaught UnicodeError;
           summary_csv := Some (summary_rows st); final := st |}
      else
        {| ending_of := Uncaught UnicodeError;
           summary_csv := Some (written_rows (summary_rows st)); final := st |}
    else
      {| ending_of := Uncaught OSError; summary_csv := None; final := st |}.
Proof.
  unfold main, capture_entries. intros H Hne.
  destruct har_file as [|bytes]; [discriminate|].
  destruct (json_load bytes) as [har|]; [|discriminate]. cbn [bind] in H.
  destruct (entries_of har) as [ev|]; [|discriminate]. cbn [bind] in H.
  destruct (iterate ev) as [l|] eqn:Hl; [|discriminate]. injection H as ->.
  destruct (truthy ev) eqn:Ht; cbn [negb].
  - rewrite process_entries_fold. cbv zeta.
    destruct (existsb (entry_stops out_dir inc) (enumerate 1 entries));
      reflexivity.
  - now destruct (Hne (truthy_iterate_nil _ _ Ht Hl)).
Qed.

(** The state [main] ends with is the outcomes of the entries that the loop
    visits, put together in the order of the entries. *)
Lemma main_final {L : Lib} (har_file : input_file) (out_dir : pystr)
    (inc : bool) :
  final (main har_file out_dir inc)
  = fold_left (fun st ie => combine_state st (entry_outcome out_dir inc ie))
      (visited (entry_stops out_dir inc) (enumerate 1 (captured har_file)))
      initial.
Proof.
  unfold captured.
  destruct (capture_entries har_file) as [[|entry rest]|] eqn:H.
  - now rewrite (main_no_entries _ _ _ H).
  - rewrite (main_run _ _ _ _ H) by discriminate. cbv zeta.
    destruct (existsb _ _); [reflexivity|].
    destruct (open_w _); [|reflexivity].
    destruct (forallb _ _); reflexivity.
  - now destruct (main_not_captured _ out_dir inc H) as (_ & -> & _).
Qed.

(** A run that an entry stops ends with the error of the [print], before the
    summary is written. *)
Lemma main_stops {L : Lib} (har_file : input_file) (out_dir : pystr)
    (inc : bool) :
  existsb (entry_stops out_dir inc) (enumerate 1 (captured har_file)) = true ->
  ending_of (main har_file out_dir inc) = Uncaught UnicodeError /\
  summary_csv (main har_file out_dir inc) = None.
Proof.
  unfold captured.
  destruct (capture_entries har_file) as [[|entry rest]|] eqn:H;
    try discriminate.
  intros Hs. rewrite (main_run _ _ _ _ H) by discriminate. cbv zeta.
  rewrite Hs. split; reflexivity.
Qed.

(** The summary holds the rows that could be written, of the rows that the
    loop has collected. *)
Lemma main_summary_written {L : Lib} (har_file : input_file) (out_dir : pystr)
    (inc : bool) (rows : list row) :
  summary_csv (main har_file out_dir inc) = Some rows ->
  rows = written_rows (summary_rows (final (main har_file out_dir inc))).
Proof.
  destruct (capture_entries har_file) as [[|entry rest]|] eqn:H.
  - now rewrite (main_no_entries _ _ _ H).
  - rewrite (main_run _ _ _ _ H) by discriminate. cbv zeta.
    destruct (existsb _ _); [discriminate|].
    destruct (open_w _); [|discriminate].
    destruct (forallb _ _) eqn:E; cbn [summary_csv final]; intros Hr;
      injection Hr as <-; [|reflexivity].
    symmetry. now apply written_rows_all.
  - destruct (main_not_captured _ out_dir inc H) as (-> & _). discriminate.
Qed.

Lemma fold_rows (g : Z * json -> state) (l : list (Z * json)) :
  forall st,
    summary_rows (fold_left (fun st ie => combine_state st (g ie)) l st)
    = summary_rows st ++ flat_map (fun ie => summary_rows (g ie)) l.
Proof.
  induction l as [|x l IH]; intros st; cbn [fold_left flat_map].
  - now rewrite app_nil_r.
  - rewrite IH. cbn [combine_state summary_rows]. now rewrite app_assoc.
Qed.

(** X10: the entries are processed independently of each other, up to the
    entry at which the run ends.  The loop visits all the entries, or the
    entries up to and including the first one that raises an exception whose
    warning cannot be printed.  The state [main] ends with is the outcomes
    that the visited entries have on their own, each at its position, put
    together in the order of the entries; so are the rows that the loop has
    collected.  A run that an entry stops ends with the uncaught error of the
    [print] and writes no summary. *)
Theorem X10_entries_are_processed_independently {L : Lib}
    (har_file : input_file) (out_dir : pystr) (include_nonjson : bool) :
  final (main har_file out_dir include_nonjson)
  = fold_left
      (fun st ie => combine_state st (entry_outcome out_dir include_nonjson ie))
      (visited (entry_stops out_dir include_nonjson)
         (enumerate 1 (captured har_file))) initial /\
  summary_rows (final (main har_file out_dir include_nonjson))
  = flat_map (fun ie => summary_rows (entry_outcome out_dir include_nonjson ie))
      (visited (entry_stops out_dir include_nonjson)
         (enumerate 1 (captured har_file))) /\
  (existsb (entry_stops out_dir include_nonjson)
     (enumerate 1 (captured har_file)) = false ->
   visited (entry_stops out_dir include_nonjson)
     (enumerate 1 (captured har_file))
   = enumerate 1 (captured har_file)) /\
  (existsb (entry_stops out_dir include_nonjson)
     (enumerate 1 (captured har_file)) = true ->
   ending_of (main har_file out_dir include_nonjson) = Uncaught UnicodeError /\
   summary_csv (main har_file out_dir include_nonjson) = None).
Proof.
  split; [apply main_final|]. split; [now rewrite main_final, fold_rows|].
  split; [apply visited_all | apply main_stops].
Qed.

(** ** The flag [--include-nonjson] *)

(** The flag is read once, in the decision to include the entry: with a
    response that is JSON both runs are the same; with another response the
    run without the flag skips the entry. *)
Lemma process_entry_flag {L : Lib} (out_dir : pystr) (idx : Z) (entry : json)
    (st : state) :
  process_entry out_dir true idx entry st
  = process_entry out_dir false idx entry st \/
  (process_entry out_dir false idx entry st = (Ok Skipped, st) /\
   response_is_json entry = Ok false).
Proof.
  unfold process_entry. rewrite !mbind_lift.
  destruct (get_entry_fields entry)
    as [[[[[method url] started] status] content]|e] eqn:Hf; [|now left].
  cbv beta iota. rewrite !mbind_lift.
  destruct (is_probable_api entry) as [v|e] eqn:Hv; [|now left].
  rewrite !mbind_lift.
  destruct (decode_body_text content) as [body|e] eqn:Hb; [|now left].
  cbv zeta. rewrite !mbind_lift.
  destruct (try_parse_json (JStr match body with Some s => s | None => [] end))
    as [[obj j]|e] eqn:Hj; [|now left].
  cbv beta iota.
  destruct j.
  - left. now destruct v.
  - right. split; [now destruct v|].
    unfold response_is_json.
    rewrite (get_entry_fields_content _ _ _ _ _ _ Hf). cbn [bind].
    rewrite Hb. cbn [bind]. now rewrite Hj.
Qed.

(** *** Exceptions whose text can be printed *)

Lemma plain_ok {A} (a : A) : plain (Ok a).
Proof. intros e H. discriminate H. Qed.

Lemma plain_raise {A} (e : exn) : printable e = true -> plain (@Raise A e).
Proof. intros He e' H. now injection H as <-. Qed.

Lemma plain_bind {A B} (c : exc A) (k : A -> exc B) :
  plain c -> (forall a, plain (k a)) -> plain (bind c k).
Proof.
  intros Hc Hk e. destruct c as [a|e0]; cbn [bind].
  - exact (Hk a e).
  - intros H. injection H as <-. now apply Hc.
Qed.

Lemma plain_get_default (o : json) (k : pystr) (d : json) :
  plain (get_default o k d).
Proof.
  unfold get_default.
  destruct o; first [apply plain_ok | now apply plain_raise].
Qed.

Lemma plain_get (o : json) (k : pystr) : plain (get o k).
Proof. apply plain_get_default. Qed.

Lemma plain_as_str (v : json) : plain (as_str v).
Proof. destruct v; first [apply plain_ok | now apply plain_raise]. Qed.

Ltac plainly :=
  repeat first
    [ apply plain_ok | apply plain_get | apply plain_get_default
    | apply plain_as_str | apply plain_raise; reflexivity
    | apply plain_bind; [|intros ?]
    | match goal with
      | |- plain (if ?b then _ else _) => destruct b
      | |- plain (match ?x with [] => _ | _ :: _ => _ end) => destruct x
      | |- plain (match ?x with Some _ => _ | None => _ end) => destruct x
      | |- plain (match ?x with JNull => _ | _ => _ end) => destruct x
      end
    | progress cbv zeta ].

Lemma plain_try_parse_json (text : json) : plain (try_parse_json text).
Proof. unfold try_parse_json. plainly. Qed.

Lemma plain_form_fields (params : list json) :
  forall acc, plain (form_fields params acc).
Proof.
  induction params as [|p rest IH]; intros acc; cbn [form_fields];
    [apply plain_ok|].
  plainly; apply IH.
Qed.

Lemma plain_try_extract_request_json (entry : json) :
  plain (try_extract_request_json entry).
Proof.
  unfold try_extract_request_json.
  plainly; first [apply plain_try_parse_json | apply plain_form_fields].
Qed.

Lemma plain_decode_body_text {L : Lib} (content : json) :
  plain (decode_body_text content).
Proof. unfold decode_body_text. plainly. Qed.

(** The loop body parses the URL after the classifier has parsed it. *)
Lemma is_probable_api_url {L : Lib} (entry method url started content : json)
    (status : Z) (v : bool) :
  get_entry_fields entry = Ok (method, url, started, status, content) ->
  is_probable_api entry = Ok v ->
  exists parsed, urlparse_value url = Ok parsed.
Proof.
  unfold get_entry_fields, is_probable_api. intros Hf Hv.
  destruct (get_default entry (str "request") (JDict [])) as [req|];
    [|discriminate].
  destruct (get_default entry (str "response") (JDict [])) as [res|];
    [|discriminate].
  cbn [bind] in *.
  destruct (get req (str "url")) as [u|]; [|discriminate].
  destruct (get req (str "method")) as [m|]; [|discriminate].
  cbn [bind] in *.
  destruct (get entry (str "startedDateTime")) as [sd|]; [|discriminate].
  destruct (get res (str "status")) as [sv|]; [|discriminate].
  cbn [bind] in *.
  destruct (int_ (or_ sv (JInt 0))) as [z|]; [|discriminate].
  cbn [bind] in *.
  destruct (get res (str "content")) as [c|]; [|discriminate].
  cbn [bind] in *. injection Hf as _ <- _ _ _.
  destruct (as_str (or_ m (JStr []))) as [ms|]; [|discriminate].
  cbn [bind] in *.
  destruct (get (or_ c (JDict [])) (str "mimeType")) as [cm|]; [|discriminate].
  destruct (get res (str "mimeType")) as [rm|]; [|discriminate].
  cbn [bind] in *.
  destruct (as_str (or_ (or_ cm rm) (JStr []))) as [mm|]; [|discriminate].
  cbn [bind] in *.
  destruct (urlparse_value (or_ u (JStr []))) as [parsed|]; [|discriminate].
  eauto.
Qed.

(** An exception of the loop body whose text cannot be printed comes from
    reading the fields of the entry (the status) or from the classifier (the
    URL): what the body does later raises exceptions with a plain text. *)
Lemma process_entry_raise {L : Lib} (out_dir : pystr) (inc : bool) (idx : Z)
    (entry : json) (st st' : state) (e : exn) :
  process_entry out_dir inc idx entry st = (Raise e, st') ->
  printable e = true \/
  (st' = st /\
   (get_entry_fields entry = Raise e \/
    (raises (get_entry_fields entry) = false /\
     is_probable_api entry = Raise e))).
Proof.
  unfold process_entry. rewrite mbind_lift.
  destruct (get_entry_fields entry)
    as [[[[[method url] started] status] content]|e0] eqn:Hf;
    [|intros H; injection H as <- <-; right; auto].
  cbv beta iota. rewrite mbind_lift.
  destruct (is_probable_api entry) as [v|e0] eqn:Hv;
    [|intros H; injection H as <- <-; right; auto].
  destruct (is_probable_api_url _ _ _ _ _ _ _ Hf Hv) as [parsed Hp].
  intros H. left. revert H. rewrite mbind_lift.
  destruct (decode_body_text content) as [body|e0] eqn:Hb;
    [|intros H; injection H as <- _; exact (plain_decode_body_text _ _ Hb)].
  cbv zeta. rewrite mbind_lift.
  destruct (try_parse_json (JStr match body with Some s => s | None => [] end))
    as [[obj j]|e0] eqn:Hj;
    [|intros H; injection H as <- _; exact (plain_try_parse_json _ _ Hj)].
  cbv beta iota.
  destruct (negb (include_decision v j inc)); [discriminate|].
  rewrite mbind_modify, mbind_lift, Hp. cbv zeta. rewrite mbind_lift.
  destruct (utf8_encodable _);
    [|intros H; now injection H as <- _].
  pose proof (plain_try_extract_request_json entry) as Hreq.
  pose proof (plain_get content (str "mimeType")) as Hmime.
  exec.
  all: intros H; try discriminate H; injection H as <- _.
  all: first [reflexivity | now apply Hreq | now apply Hmime].
Qed.

(** Whether the run ends at an entry does not depend on the flag. *)
Lemma entry_stops_flag {L : Lib} (out_dir : pystr) (ie : Z * json) :
  entry_stops out_dir true ie = entry_stops out_dir false ie.
Proof.
  destruct ie as [idx entry]. unfold entry_stops, handle_entry. cbn [fst snd].
  destruct (process_entry_flag out_dir idx entry initial) as [E | (E & Hj)].
  - now rewrite E.
  - rewrite E. cbn [fst raises].
    destruct (process_entry out_dir true idx entry initial) as [[p|e] s] eqn:H;
      [reflexivity|].
    destruct (process_entry_raise _ _ _ _ _ _ _ H) as [-> | (_ & [Hf | (_ & Hv)])];
      [reflexivity| |].
    + unfold process_entry in E. rewrite mbind_lift, Hf in E. discriminate E.
    + unfold process_entry in E. rewrite mbind_lift in E.
      destruct (get_entry_fields entry)
        as [[[[[method url] started] status] content]|e0]; [|discriminate E].
      cbv beta iota in E. rewrite mbind_lift, Hv in E. discriminate E.
Qed.

Lemma handle_entry_summary_rows {L : Lib} (out_dir : pystr) (inc : bool)
    (idx : Z) (entry : json) (st : state) :
  summary_rows (snd (handle_entry out_dir inc idx entry st))
  = summary_rows (snd (process_entry out_dir inc idx entry st)).
Proof.
  unfold handle_entry.
  destruct (process_entry out_dir inc idx entry st) as [[p|e] s];
    [reflexivity|].
  destruct (printable e); reflexivity.
Qed.

Lemma entry_rows_flag {L : Lib} (out_dir : pystr) (ie : Z * json) :
  summary_rows (entry_outcome out_dir false ie)
  = filter row_response_is_json (summary_rows (entry_outcome out_dir true ie)).
Proof.
  destruct ie as [idx entry]. unfold entry_outcome. cbn [fst snd].
  rewrite !handle_entry_summary_rows.
  destruct (process_entry_flag out_dir idx entry initial) as [E | (E & Hj)].
  - rewrite E.
    destruct (process_entry out_dir false idx entry initial) as [res s] eqn:H.
    destruct (process_entry_cases _ _ _ _ _ _ _ H)
      as [(e & -> & Hrows) | (v & j & _ & _ &
           [(_ & -> & ->) | (Hinc & -> & r & Hr & _ & _ & Hrj)])];
      cbn [snd].
    + now rewrite Hrows.
    + reflexivity.
    + rewrite Hr. cbn [initial summary_rows app filter].
      rewrite include_decision_eq, orb_false_r in Hinc.
      assert (j = true) as -> by (now destruct v, j).
      now rewrite Hrj.
  - rewrite E.
    destruct (process_entry out_dir true idx entry initial) as [res s] eqn:H.
    destruct (process_entry_cases _ _ _ _ _ _ _ H)
      as [(e & -> & Hrows) | (v & j & _ & Hj' &
           [(_ & -> & ->) | (_ & -> & r & Hr & _ & _ & Hrj)])];
      cbn [snd].
    + now rewrite Hrows.
    + reflexivity.
    + rewrite Hr. cbn [initial summary_rows app filter].
      rewrite Hj in Hj'. injection Hj' as <-. now rewrite Hrj.
Qed.

Lemma filter_flat_map {A B} (f : B -> bool) (g : A -> list B) (l : list A) :
  filter f (flat_map g l) = flat_map (fun x => filter f (g x)) l.
Proof.
  induction l as [|x l IH]; [reflexivity|]. cbn [flat_map].
  now rewrite filter_app, IH.
Qed.

(** The rows that the loop collects without the flag are the rows it
    collects with the flag whose response is JSON. *)
Lemma main_rows_flag {L : Lib} (har_file : input_file) (out_dir : pystr) :
  summary_rows (final (main har_file out_dir false))
  = filter row_response_is_json
      (summary_rows (final (main har_file out_dir true))).
Proof.
  rewrite !main_final, !fold_rows. cbn [initial summary_rows app].
  rewrite filter_flat_map.
  rewrite (visited_ext _ _ _ (entry_stops_flag out_dir)).
  apply flat_map_ext. intros ie. apply entry_rows_flag.
Qed.

(** Leaving rows out does not shorten what is written of the others. *)
Lemma written_rows_filter {L : Lib} (f : row -> bool) (rows : list row) :
  exists more,
    written_rows (filter f rows) = filter f (written_rows rows) ++ more.
Proof.
  induction rows as [|r rows [more IH]]; [now exists []|].
  cbn [filter written_rows].
  destruct (row_encodable r) eqn:Hr.
  - cbn [filter]. destruct (f r).
    + cbn [written_rows]. rewrite Hr, IH. now exists more.
    + now exists more.
  - cbn [filter]. eexists. reflexivity.
Qed.

Lemma forallb_filter {A} (p f : A -> bool) (l : list A) :
  forallb p l = true -> forallb p (filter f l) = true.
Proof.
  rewrite !forallb_forall. intros H x Hx. apply filter_In in Hx as [Hx _]. auto.
Qed.

(** X11: the flag [--include-nonjson] adds rows, and only rows without a
    JSON response.  The rows that the loop collects without the flag are the
    rows it collects with the flag, restricted to the rows whose response is
    JSON.  Both runs write a summary or neither does, and the run without the
    flag writes every JSON row that the run with the flag writes.  When the
    run with the flag ends with exit code 0, the summary without the flag is
    the summary with the flag restricted to the JSON rows.  (A row that the
    flag adds can be one that cannot be encoded: the summary with the flag is
    then cut at that row, and the summary without the flag is not.) *)
Theorem X11_flag_only_adds_rows_without_json {L : Lib}
    (har_file : input_file) (out_dir : pystr) :
  summary_rows (final (main har_file out_dir false))
  = filter row_response_is_json
      (summary_rows (final (main har_file out_dir true))) /\
  (summary_csv (main har_file out_dir false) = None <->
   summary_csv (main har_file out_dir true) = None) /\
  (forall with_flag without_flag,
     summary_csv (main har_file out_dir true) = Some with_flag ->
     summary_csv (main har_file out_dir false) = Some without_flag ->
     exists more,
       without_flag = filter row_response_is_json with_flag ++ more) /\
  (ending_of (main har_file out_dir true) = Exit 0 ->
   summary_csv (main har_file out_dir false)
   = option_map (filter row_response_is_json)
       (summary_csv (main har_file out_dir true))).
Proof.
  split; [apply main_rows_flag|]. split; [|split].
  - destruct (capture_entries har_file) as [[|entry rest]|] eqn:H.
    + now rewrite !(main_no_entries _ _ _ H).
    + rewrite !(main_run _ _ _ _ H) by discriminate. cbv zeta.
      rewrite (existsb_same _ _ _ (entry_stops_flag out_dir)).
      destruct (existsb _ _); [tauto|].
      destruct (open_w _); [|tauto].
      do 2 destruct (forallb _ _); cbn [summary_csv]; split; discriminate.
    + destruct (main_not_captured _ out_dir true H) as (-> & _).
      destruct (main_not_captured _ out_dir false H) as (-> & _). tauto.
  - intros with_flag without_flag Ht Hf.
    apply main_summary_written in Ht, Hf. subst.
    rewrite main_rows_flag. apply written_rows_filter.
  - intros Hend.
    destruct (capture_entries har_file) as [[|entry rest]|] eqn:H.
    + now rewrite !(main_no_entries _ _ _ H).
    + pose proof (main_rows_flag har_file out_dir) as Hrows.
      rewrite !main_final in Hrows. unfold captured in Hrows.
      rewrite H in Hrows. revert Hend.
      rewrite !(main_run _ _ _ _ H) by discriminate. cbv zeta.
      rewrite (existsb_same _ _ _ (entry_stops_flag out_dir)).
      destruct (existsb _ _); [discriminate|].
      destruct (open_w _); [|discriminate].
      rewrite Hrows.
      destruct (forallb row_encodable (summary_rows (fold_left _
                  (visited (entry_stops out_dir true) _) _))) eqn:E;
        [|discriminate].
      intros _. rewrite (forallb_filter _ _ _ E). reflexivity.
    + destruct (main_not_captured _ out_dir true H) as (-> & _).
      now destruct (main_not_captured _ out_dir false H) as (-> & _).
Qed.

(** The first of two entries is API-like, has a response that is no JSON and
    a mime type with a lone surrogate.  With the flag its row is collected
    and cannot be written: the summary is cut before it and the run ends
    with an uncaught error.  Without the flag the row is not collected, and
    the summary holds the row of the second entry. *)
Lemma X11_witness_summary_cut_by_the_flag :
  let har := File surrogate_mime_capture in
  map row_index
    (summary_rows (final (main (L := example_lib) har (str "/out") true)))
  = [1; 2] /\
  option_map (map row_index)
    (summary_csv (main (L := example_lib) har (str "/out") true)) = Some [] /\
  ending_of (main (L := example_lib) har (str "/out") true)
  = Uncaught UnicodeError /\
  option_map (map row_index)
    (summary_csv (main (L := example_lib) har (str "/out") false)) = Some [2] /\
  ending_of (main (L := example_lib) har (str "/out") false) = Exit 0 /\
  summary_rows (final (main (L := example_lib) har (str "/out") false))
  = filter row_response_is_json
      (summary_rows (final (main (L := example_lib) har (str "/out") true))).
Proof.
  intros har. repeat (split; [vm_compute; reflexivity|]).
  exact (proj1 (X11_flag_only_adds_rows_without_json (L := example_lib) har
                  (str "/out"))).
Defined.

(** ** Files and counters *)

Lemma path_join_suffix (a b : pystr) : exists x, path_join a b = x ++ b.
Proof.
  unfold path_join. destruct (startswith b (str "/")); [now exists []|].
  destruct (match a with [] => true | _ => endswith a (str "/") end).
  - now exists a.
  - exists (a ++ str "/"). now rewrite <- app_assoc.
Qed.

Lemma response_path_kind (a b : pystr) :
  is_response_file (path_join a (b ++ str ".response.json")) = true /\
  is_request_file (path_join a (b ++ str ".response.json")) = false.
Proof.
  destruct (path_join_suffix a (b ++ str ".response.json")) as [x ->].
  unfold is_response_file, is_request_file, endswith.
  rewrite !rev_app_distr, <- !app_assoc. split; [|reflexivity].
  apply startswith_spec. eexists. reflexivity.
Qed.

Lemma request_path_kind (a b : pystr) :
  is_request_file (path_join a (b ++ str ".request.json")) = true /\
  is_response_file (path_join a (b ++ str ".request.json")) = false.
Proof.
  destruct (path_join_suffix a (b ++ str ".request.json")) as [x ->].
  unfold is_response_file, is_request_file, endswith.
  rewrite !rev_app_distr, <- !app_assoc. split; [|reflexivity].
  apply startswith_spec. eexists. reflexivity.
Qed.

Lemma process_entry_counts {L : Lib} (out_dir : pystr) (inc : bool) (idx : Z)
    (entry : json) :
  counts_ok (snd (process_entry out_dir inc idx entry initial)).
Proof.
  unfold process_entry. exec.
  all: unfold counts_ok, count_files.
  all: cbn [ret snd fst total_json_saved total_req_json_saved files initial
            incr_total_api incr_total_json_saved incr_total_req_json_saved
            add_file append_row filter complete].
  all: rewrite ?(proj1 (response_path_kind _ _)), ?(proj2 (response_path_kind _ _)),
         ?(proj1 (request_path_kind _ _)), ?(proj2 (request_path_kind _ _)).
  all: split; reflexivity.
Qed.

Lemma counts_combine (a b : state) :
  counts_ok a -> counts_ok b -> counts_ok (combine_state a b).
Proof.
  unfold counts_ok, count_files. intros [Ha1 Ha2] [Hb1 Hb2].
  cbn [combine_state total_json_saved total_req_json_saved files].
  rewrite !filter_app, !length_app, !Nat2Z.inj_add. lia.
Qed.

Lemma entry_outcome_counts {L : Lib} (out_dir : pystr) (inc : bool)
    (ie : Z * json) :
  counts_ok (entry_outcome out_dir inc ie).
Proof.
  unfold entry_outcome, handle_entry.
  pose proof (process_entry_counts out_dir inc (fst ie) (snd ie)) as H.
  destruct (process_entry out_dir inc (fst ie) (snd ie) initial) as [[p|e] s];
    [|destruct (printable e)]; exact H.
Qed.

(** A property that holds of the empty state and of the outcome of every
    entry, and that is kept when outcomes are put together, holds at the end
    of the loop. *)
Lemma fold_invariant (I : state -> Prop) (g : Z * json -> state)
    (l : list (Z * json)) :
  (forall a b, I a -> I b -> I (combine_state a b)) ->
  (forall ie, In ie l -> I (g ie)) ->
  forall st, I st -> I (fold_left (fun st ie => combine_state st (g ie)) l st).
Proof.
  intros Hc. induction l as [|x l IH]; intros Hg st Hst; [exact Hst|].
  cbn [fold_left]. apply IH.
  - intros ie Hie. apply Hg. now right.
  - apply Hc; [exact Hst | apply Hg; now left].
Qed.

(** X12: the two numbers that [main] prints at its end are the numbers of
    files written to their end: [total_json_saved] counts the complete files
    named *.response.json and [total_req_json_saved] the complete files named
    *.request.json, whatever entries failed on the way. *)
Theorem X12_counters_count_the_written_files {L : Lib}
    (har_file : input_file) (out_dir : pystr) (include_nonjson : bool) :
  total_json_saved (final (main har_file out_dir include_nonjson))
  = count_files is_response_file (final (main har_file out_dir include_nonjson))
  /\
  total_req_json_saved (final (main har_file out_dir include_nonjson))
  = count_files is_request_file (final (main har_file out_dir include_nonjson)).
Proof.
  rewrite main_final.
  apply (fold_invariant counts_ok).
  - apply counts_combine.
  - intros ie _. apply entry_outcome_counts.
  - split; reflexivity.
Qed.

(** ** The files that the rows name *)

Ltac names_file_leaf :=
  unfold names_file; intros Hne; try (now elim Hne);
  match goal with
  | H : ?b && negb (is_none ?o) = true |- ?b = true /\ _ =>
      apply andb_prop in H as [-> Hnn]; split; [reflexivity|];
      split; [first [apply response_path_kind | apply request_path_kind]|];
      exists o; split; [intros ->; discriminate Hnn | cbn; auto]
  end.

Lemma process_entry_rows_ok {L : Lib} (out_dir : pystr) (inc : bool) (idx : Z)
    (entry : json) :
  rows_ok (snd (process_entry out_dir inc idx entry initial)).
Proof.
  unfold process_entry. exec.
  all: unfold rows_ok.
  all: cbn [ret snd fst summary_rows files initial app
            incr_total_api incr_total_json_saved incr_total_req_json_saved
            add_file append_row].
  all: intros r Hr; try (now destruct Hr).
  all: destruct Hr as [<- | []].
  all: cbn [row_response_is_json row_response_json_file row_request_is_json
            row_request_json_file].
  all: split; names_file_leaf.
Qed.

Lemma rows_ok_combine (a b : state) :
  rows_ok a -> rows_ok b -> rows_ok (combine_state a b).
Proof.
  assert (Hmono : forall flag name kind s,
            (forall f, In f (files s) -> In f (files (combine_state a b))) ->
            names_file flag name kind s ->
            names_file flag name kind (combine_state a b)).
  { intros flag name kind s Hs Hn Hne.
    destruct (Hn Hne) as (Hf & Hk & obj & Ho & Hin). eauto 8. }
  intros Ha Hb r Hr. cbn [combine_state summary_rows] in Hr.
  apply in_app_iff in Hr as [Hr | Hr].
  - destruct (Ha r Hr) as [H1 H2].
    split; (eapply Hmono; [|eassumption]); intros f Hf;
      cbn [combine_state files]; apply in_app_iff; now right.
  - destruct (Hb r Hr) as [H1 H2].
    split; (eapply Hmono; [|eassumption]); intros f Hf;
      cbn [combine_state files]; apply in_app_iff; now left.
Qed.

Lemma entry_outcome_rows_ok {L : Lib} (out_dir : pystr) (inc : bool)
    (ie : Z * json) :
  rows_ok (entry_outcome out_dir inc ie).
Proof.
  unfold entry_outcome, handle_entry.
  pose proof (process_entry_rows_ok out_dir inc (fst ie) (snd ie)) as H.
  destruct (process_entry out_dir inc (fst ie) (snd ie) initial) as [[p|e] s];
    [|destruct (printable e)]; exact H.
Qed.

Lemma main_rows_ok {L : Lib} (har_file : input_file) (out_dir : pystr)
    (inc : bool) :
  rows_ok (final (main har_file out_dir inc)).
Proof.
  rewrite main_final. apply (fold_invariant rows_ok).
  - apply rows_ok_combine.
  - intros ie _. apply entry_outcome_rows_ok.
  - intros r [].
Qed.

(** X13: a file that a row of the summary names exists: when the column
    [response_json_file] of a row is not empty, the row says that the
    response is JSON, the name ends in .response.json, and a file of that
    name was written to its end with a value that is not [None]; likewise
    for [request_json_file]. *)
Theorem X13_rows_name_written_files {L : Lib}
    (har_file : input_file) (out_dir : pystr) (include_nonjson : bool)
    (rows : list row) (r : row) :
  summary_csv (main har_file out_dir include_nonjson) = Some rows ->
  In r rows ->
  (row_response_json_file r <> [] ->
   row_response_is_json r = true /\
   is_response_file (row_response_json_file r) = true /\
   exists obj, obj <> JNull /\
     In (row_response_json_file r, Some obj)
        (files (final (main har_file out_dir include_nonjson)))) /\
  (row_request_json_file r <> [] ->
   row_request_is_json r = true /\
   is_request_file (row_request_json_file r) = true /\
   exists obj, obj <> JNull /\
     In (row_request_json_file r, Some obj)
        (files (final (main har_file out_dir include_nonjson)))).
Proof.
  intros Hsum Hr.
  destruct (main_summary_prefix _ _ _ _ Hsum)
    as (entries & st & rest & _ & Hfin & _ & Hrows).
  apply (main_rows_ok har_file out_dir include_nonjson r).
  rewrite Hfin, Hrows. apply in_app_iff. now left.
Qed.

Lemma X13_witness_first_entry :
  exists rows r obj,
    summary_csv (main (L := example_lib) (File three_entries) (str "/out") false)
    = Some rows /\
    In r rows /\
    row_response_json_file r
    = str "/out/responses/00001_GET_example.com_-api-users_da39a3ee.response.json" /\
    In (row_response_json_file r, Some obj)
       (files (final (main (L := example_lib) (File three_entries)
                        (str "/out") false))).
Proof.
  destruct (summary_csv (main (L := example_lib) (File three_entries)
                           (str "/out") false)) as [rows|] eqn:H;
    [|vm_compute in H; discriminate].
  destruct rows as [|r rows]; [vm_compute in H; discriminate|].
  assert (Hname : row_response_json_file r
    = str "/out/responses/00001_GET_example.com_-api-users_da39a3ee.response.json").
  { vm_compute in H. injection H as <- _. reflexivity. }
  destruct (X13_rows_name_written_files (L := example_lib) _ _ _ _ r H
              (or_introl eq_refl)) as [Hresp _].
  destruct Hresp as (_ & _ & obj & _ & Hin).
  { rewrite Hname. discriminate. }
  exists (r :: rows), r, obj.
  split; [reflexivity | split; [now left | split; [exact Hname | exact Hin]]].
Defined.

(** ** Warnings *)

Lemma process_entry_warnings {L : Lib} (out_dir : pystr) (inc : bool)
    (idx : Z) (entry : json) :
  warnings (snd (process_entry out_dir inc idx entry initial)) = [].
Proof. unfold process_entry. exec. all: reflexivity. Qed.

Lemma fold_warnings (g : Z * json -> state) (l : list (Z * json)) :
  forall st,
    warnings (fold_left (fun st ie => combine_state st (g ie)) l st)
    = warnings st ++ flat_map (fun ie => warnings (g ie)) l.
Proof.
  induction l as [|x l IH]; intros st; cbn [fold_left flat_map].
  - now rewrite app_nil_r.
  - rewrite IH. cbn [combine_state warnings]. now rewrite app_assoc.
Qed.

Lemma entry_outcome_warnings {L : Lib} (out_dir : pystr) (inc : bool)
    (ie : Z * json) :
  warnings (entry_outcome out_dir inc ie)
  = if entry_warns out_dir inc ie then [fst ie] else [].
Proof.
  unfold entry_outcome, handle_entry, entry_warns.
  pose proof (process_entry_warnings out_dir inc (fst ie) (snd ie)) as H.
  destruct (process_entry out_dir inc (fst ie) (snd ie) initial) as [[p|e] s];
    cbn [fst snd] in *; [|destruct (printable e)];
    cbn [fst snd add_warning warnings] in *; now rewrite H.
Qed.

Lemma entry_outcome_rows {L : Lib} (out_dir : pystr) (inc : bool)
    (ie : Z * json) (r : row) :
  In r (summary_rows (entry_outcome out_dir inc ie)) ->
  row_index r = fst ie /\ entry_warns out_dir inc ie = false /\
  entry_stops out_dir inc ie = false.
Proof.
  unfold entry_outcome, handle_entry, entry_warns, entry_stops, handle_entry.
  destruct (process_entry out_dir inc (fst ie) (snd ie) initial)
    as [res s] eqn:H.
  destruct (process_entry_cases _ _ _ _ _ _ _ H)
    as [(e & -> & Hrows) | (v & j & _ & _ &
         [(_ & -> & ->) | (_ & -> & r0 & Hr & Hidx & _)])].
  - destruct (printable e); cbn [snd add_warning summary_rows];
      rewrite Hrows; intros [].
  - intros [].
  - cbn [fst snd raises]. rewrite Hr. intros [<- | []]. auto.
Qed.

(** The entry at which the run ends is not warned about and has no row. *)
Lemma entry_stops_outcome {L : Lib} (out_dir : pystr) (inc : bool)
    (ie : Z * json) :
  entry_stops out_dir inc ie = true ->
  entry_warns out_dir inc ie = false /\
  summary_rows (entry_outcome out_dir inc ie) = [] /\
  warnings (entry_outcome out_dir inc ie) = [].
Proof.
  intros Hs.
  assert (Hw : entry_warns out_dir inc ie = false).
  { revert Hs. unfold entry_stops, entry_warns, handle_entry.
    destruct (process_entry out_dir inc (fst ie) (snd ie) initial)
      as [[p|e] s]; cbn [fst raises]; [reflexivity|].
    destruct (printable e); [discriminate | reflexivity]. }
  split; [exact Hw | split].
  - destruct (summary_rows (entry_outcome out_dir inc ie)) as [|r rows] eqn:E;
      [reflexivity|].
    destruct (entry_outcome_rows out_dir inc ie r) as (_ & _ & Hno);
      [rewrite E; now left | congruence].
  - now rewrite entry_outcome_warnings, Hw.
Qed.

Lemma flat_map_if {A B} (p : A -> bool) (f : A -> B) (l : list A) :
  flat_map (fun x => if p x then [f x] else []) l = map f (filter p l).
Proof.
  induction l as [|x l IH]; [reflexivity|]. cbn [flat_map filter].
  destruct (p x); cbn [app map]; now rewrite IH.
Qed.

Lemma enumerate_in (l : list json) :
  forall (k i : Z) (e : json),
    In (i, e) (enumerate k l) ->
    k <= i /\ nth_error l (Z.to_nat (i - k)) = Some e.
Proof.
  induction l as [|x l IH]; intros k i e; [intros []|].
  cbn [enumerate]. intros [H | H].
  - injection H as <- <-. rewrite Z.sub_diag. split; [lia | reflexivity].
  - destruct (IH _ _ _ H) as [Hk Hn]. split; [lia|].
    replace (Z.to_nat (i - k)) with (S (Z.to_nat (i - (k + 1)))) by lia.
    exact Hn.
Qed.

Lemma enumerate_length (l : list json) :
  forall k, List.length (enumerate k l) = List.length l.
Proof. induction l as [|x l IH]; intros k; [reflexivity|]. cbn. now rewrite IH. Qed.

(** X14: the entries that the loop warns about are the visited entries for
    which the loop body raises an exception whose text can be printed, in
    their order, and none of them has a row among the rows collected.  An
    entry whose exception cannot be printed (the error of [urlparse] that
    quotes a host with a lone surrogate) gets no warning and no row: the
    [print] of the handler raises, and the run ends there with that
    uncaught error. *)
Theorem X14_warned_entries_have_no_row {L : Lib}
    (har_file : input_file) (out_dir : pystr) (include_nonjson : bool) :
  warnings (final (main har_file out_dir include_nonjson))
  = map fst (filter (entry_warns out_dir include_nonjson)
               (visited (entry_stops out_dir include_nonjson)
                  (enumerate 1 (captured har_file)))) /\
  (forall i,
     In i (warnings (final (main har_file out_dir include_nonjson))) ->
     ~ In i (map row_index
               (summary_rows (final (main har_file out_dir include_nonjson))))) /\
  (forall ie,
     entry_stops out_dir include_nonjson ie = true ->
     entry_warns out_dir include_nonjson ie = false /\
     summary_rows (entry_outcome out_dir include_nonjson ie) = [] /\
     warnings (entry_outcome out_dir include_nonjson ie) = []) /\
  (existsb (entry_stops out_dir include_nonjson)
     (enumerate 1 (captured har_file)) = true ->
   ending_of (main har_file out_dir include_nonjson) = Uncaught UnicodeError).
Proof.
  assert (Hw : warnings (final (main har_file out_dir include_nonjson))
               = map fst (filter (entry_warns out_dir include_nonjson)
                            (visited (entry_stops out_dir include_nonjson)
                               (enumerate 1 (captured har_file))))).
  { rewrite main_final, fold_warnings. cbn [initial warnings app].
    rewrite <- flat_map_if. apply flat_map_ext. intros ie.
    apply entry_outcome_warnings. }
  split; [exact Hw|]. split; [|split].
  - intros i Hi Hrow. rewrite Hw in Hi.
    apply in_map_iff in Hi as ([i1 e1] & Hfst & Hin1). cbn [fst] in Hfst.
    subst i1. apply filter_In in Hin1 as [Hin1 Hraise].
    apply in_map_iff in Hrow as (r & Hidx & Hr).
    rewrite main_final, fold_rows in Hr. cbn [initial summary_rows app] in Hr.
    apply in_flat_map in Hr as ([i2 e2] & Hin2 & Hr).
    apply entry_outcome_rows in Hr as (Hidx2 & Hok & _). cbn [fst] in Hidx2.
    assert (i2 = i) by congruence. subst i2.
    apply visited_incl, enumerate_in in Hin1 as [_ Hn1].
    apply visited_incl, enumerate_in in Hin2 as [_ Hn2].
    assert (e1 = e2) by congruence. subst e2. congruence.
  - apply entry_stops_outcome.
  - intros Hs. now apply main_stops.
Qed.

(** The second of three entries has a URL whose host holds a full-width
    solidus and a lone surrogate: the loop warns about no entry, the row of
    the first entry is collected, and the run ends before the third entry
    and before the summary is written. *)
Lemma X14_witness_host_with_surrogate :
  let har := File surrogate_host_capture in
  let r := main (L := example_lib) har (str "/out") false in
  map (entry_stops (L := example_lib) (str "/out") false)
    (enumerate 1 (captured har)) = [false; true; false] /\
  warnings (final r) = [] /\
  map row_index (summary_rows (final r)) = [1] /\
  ending_of r = Uncaught UnicodeError /\
  summary_csv r = None.
Proof.
  intros har r. subst r.
  assert (Hs : map (entry_stops (L := example_lib) (str "/out") false)
                 (enumerate 1 (captured har)) = [false; true; false])
    by (vm_compute; reflexivity).
  split; [exact Hs|].
  destruct (X14_warned_entries_have_no_row (L := example_lib) har (str "/out")
              false) as (Hw & _ & _ & Hend).
  split; [rewrite Hw; vm_compute; reflexivity|].
  split; [vm_compute; reflexivity|].
  split; [|vm_compute; reflexivity].
  apply Hend. vm_compute. reflexivity.
Defined.

(** X15: an entry whose fields cannot be read, or that the classifier
    cannot judge, leaves no row, no file and no change of a counter.  When
    the text of the exception can be printed, it leaves a warning and the
    loop goes on; when it cannot, the [print] of the handler raises and the
    loop ends with that error, without a warning. *)
Theorem X15_unreadable_entry_leaves_only_a_warning {L : Lib}
    (out_dir : pystr) (include_nonjson : bool) (idx : Z) (entry : json)
    (st : state) (e : exn) :
  get_entry_fields entry = Raise e \/
  (raises (get_entry_fields entry) = false /\
   is_probable_api entry = Raise e) ->
  handle_entry out_dir include_nonjson idx entry st
  = if printable e then (Ok tt, add_warning idx st)
    else (Raise UnicodeError, st).
Proof.
  intros H. unfold handle_entry, process_entry. rewrite mbind_lift.
  destruct (get_entry_fields entry)
    as [[[[[method url] started] status] content]|e0].
  - destruct H as [H | [_ H]]; [discriminate H|].
    cbv beta iota. rewrite mbind_lift, H. reflexivity.
  - destruct H as [H | [H _]]; [|discriminate H].
    now injection H as ->.
Qed.

Lemma X15_witness_status_is_no_number :
  let entry := parse "{`request`: {`url`: `https://example.com/api`}, `response`: {`status`: `n/a`}}" in
  let odd := parse "{`request`: {`url`: `https://a\ud800\uff0fb.example.com/api`}}" in
  get_entry_fields (L := example_lib) entry = Raise ValueError /\
  handle_entry (L := example_lib) (str "/out") false 4 entry initial
  = (Ok tt, add_warning 4 initial) /\
  raises (get_entry_fields (L := example_lib) odd) = false /\
  handle_entry (L := example_lib) (str "/out") false 5 odd initial
  = (Raise UnicodeError, initial).
Proof.
  intros entry odd.
  assert (H : get_entry_fields (L := example_lib) entry = Raise ValueError)
    by reflexivity.
  assert (Hf : raises (get_entry_fields (L := example_lib) odd) = false)
    by reflexivity.
  assert (Hv : exists t, utf8_encodable t = false /\
                 is_probable_api (L := example_lib) odd = Raise (ValueErrorOf t)).
  { eexists. split; [|vm_compute; reflexivity]. vm_compute. reflexivity. }
  destruct Hv as (t & Ht & Hv).
  split; [exact H|]. split; [|split; [exact Hf|]].
  - apply (X15_unreadable_entry_leaves_only_a_warning (L := example_lib)
             (str "/out") false 4 entry initial ValueError).
    now left.
  - rewrite (X15_unreadable_entry_leaves_only_a_warning (L := example_lib)
               (str "/out") false 5 odd initial (ValueErrorOf t)) by auto.
    cbn [printable]. now rewrite Ht.
Defined.

(** ** How the run ends *)

(** X16: once the entries of the capture are read, the run never ends with
    exit code 2.  It ends with exit code 0, or with an uncaught
    [UnicodeEncodeError] or [OSError].  Exit code 0 is reached exactly when
    there are no entries, or when no entry stops the loop, the summary can be
    opened, every collected row can be encoded and the closing message can be
    printed.  No summary is written exactly when there are no entries, an
    entry stops the loop, or the summary cannot be opened; a summary that is
    written holds the collected rows before the first that cannot be
    encoded. *)
Theorem X16_how_the_run_ends_once_entries_are_read {L : Lib}
    (har_file : input_file) (out_dir : pystr) (include_nonjson : bool)
    (entries : list json) :
  capture_entries har_file = Some entries ->
  (ending_of (main har_file out_dir include_nonjson) = Exit 0 \/
   ending_of (main har_file out_dir include_nonjson) = Uncaught UnicodeError \/
   ending_of (main har_file out_dir include_nonjson) = Uncaught OSError) /\
  (ending_of (main har_file out_dir include_nonjson) = Exit 0 <->
   entries = [] \/
   (existsb (entry_stops out_dir include_nonjson) (enumerate 1 entries) = false /\
    open_w (summary_path out_dir) = true /\
    forallb row_encodable
      (summary_rows (final (main har_file out_dir include_nonjson))) = true /\
    utf8_encodable
      (closing_message out_dir (List.length entries)
         (final (main har_file out_dir include_nonjson))) = true)) /\
  (summary_csv (main har_file out_dir include_nonjson) = None <->
   entries = [] \/
   existsb (entry_stops out_dir include_nonjson) (enumerate 1 entries) = true \/
   open_w (summary_path out_dir) = false) /\
  (forall rows,
     summary_csv (main har_file out_dir include_nonjson) = Some rows ->
     rows = written_rows
              (summary_rows (final (main har_file out_dir include_nonjson)))).
Proof.
  intros H. split; [|split; [|split; [|apply main_summary_written]]].
  - destruct entries as [|entry rest].
    + rewrite (main_no_entries _ _ _ H). now left.
    + rewrite (main_run _ _ _ _ H) by discriminate. cbv zeta.
      destruct (existsb _ _); [auto|].
      destruct (open_w _); [|auto].
      destruct (forallb _ _); [|auto].
      cbn [ending_of]. destruct (utf8_encodable _); auto.
  - destruct entries as [|entry rest].
    + rewrite (main_no_entries _ _ _ H). cbn [ending_of]. tauto.
    + rewrite (main_run _ _ _ _ H) by discriminate. cbv zeta.
      destruct (existsb _ _).
      { cbn [ending_of]. split; [discriminate|].
        intros [E | (E & _)]; discriminate E. }
      destruct (open_w _).
      2:{ cbn [ending_of]. split; [discriminate|].
          intros [E | (_ & E & _)]; discriminate E. }
      destruct (forallb row_encodable _) eqn:Henc; cbn [ending_of final].
      2:{ rewrite Henc. split; [discriminate|].
          intros [E | (_ & _ & E & _)]; discriminate E. }
      rewrite Henc.
      destruct (utf8_encodable _).
      * split; [intros _; right; auto | reflexivity].
      * split; [discriminate|].
        intros [E | (_ & _ & _ & E)]; discriminate E.
  - destruct entries as [|entry rest].
    + rewrite (main_no_entries _ _ _ H). cbn [summary_csv]. tauto.
    + rewrite (main_run _ _ _ _ H) by discriminate. cbv zeta.
      destruct (existsb _ _); [cbn [summary_csv]; tauto|].
      destruct (open_w _); [|cbn [summary_csv]; tauto].
      destruct (forallb _ _); cbn [summary_csv];
        (split; [discriminate|]);
        intros [E | [E | E]]; discriminate E.
Qed.

Lemma X16_witness_three_entries :
  capture_entries (File three_entries) <> None /\
  ending_of (main (L := example_lib) (File three_entries) (str "/out") false)
  = Exit 0 /\
  ending_of (main (L := example_lib) (File three_entries) [47; 55296] false)
  = Uncaught UnicodeError.
Proof.
  destruct (capture_entries (File three_entries)) as [entries|] eqn:H;
    [|vm_compute in H; discriminate].
  split; [discriminate|].
  destruct (X16_how_the_run_ends_once_entries_are_read (L := example_lib)
              _ (str "/out") false entries H) as (_ & Hzero & _).
  split; [|vm_compute; reflexivity].
  apply Hzero. right. vm_compute in H. injection H as <-.
  repeat split; vm_compute; reflexivity.
Defined.

(** X17: a capture that is JSON but has the wrong shape is not reported
    with exit code 2: a top-level value, or a value of "log", that is truthy
    and no object ends the run with an uncaught [AttributeError]; a value of
    "entries" that cannot be iterated over ends it with an uncaught
    [TypeError]. *)
Theorem X17_wrong_shape_is_not_caught {L : Lib}
    (bytes : list Z) (har : json) (out_dir : pystr) (include_nonjson : bool) :
  json_load bytes = Ok har ->
  (truthy har = true -> (forall d, har <> JDict d) ->
   ending_of (main (File bytes) out_dir include_nonjson)
   = Uncaught AttributeError) /\
  (forall log,
     get (or_ har (JDict [])) (str "log") = Ok log ->
     truthy log = true -> (forall d, log <> JDict d) ->
     ending_of (main (File bytes) out_dir include_nonjson)
     = Uncaught AttributeError) /\
  (forall entries,
     entries_of har = Ok entries ->
     (forall l, iterate entries <> Ok l) ->
     ending_of (main (File bytes) out_dir include_nonjson)
     = Uncaught TypeError).
Proof.
  intros Hload. unfold main. rewrite Hload. split; [|split].
  - intros Ht Hn. unfold entries_of, or_. rewrite Ht.
    destruct har; try reflexivity. now destruct (Hn d).
  - intros log Hlog Ht Hn. unfold entries_of. rewrite Hlog. cbn [bind].
    unfold or_ at 1. rewrite Ht.
    destruct log; try reflexivity. now destruct (Hn d).
  - intros entries He Hit. rewrite He.
    destruct (entries_of_truthy _ _ He) as [Ht | ->];
      [|now destruct (Hit _ eq_refl)].
    rewrite Ht. cbn [negb].
    destruct entries; try reflexivity; now destruct (Hit _ eq_refl).
Qed.

Lemma X17_witness_top_level_array :
  json_load (str "[1]") = Ok (JList [JInt 1]) /\
  ending_of (main (L := example_lib) (File (str "[1]")) (str "/out") false)
  = Uncaught AttributeError.
Proof.
  assert (H : json_load (str "[1]") = Ok (JList [JInt 1])) by reflexivity.
  split; [exact H|].
  apply (proj1 (X17_wrong_shape_is_not_caught (L := example_lib)
                  _ _ (str "/out") false H)).
  - reflexivity.
  - discriminate.
Defined.

(** ** File names *)

Lemma kinds_exclusive (p : pystr) :
  is_response_file p = true -> is_request_file p = false.
Proof.
  unfold is_response_file, is_request_file, endswith. intros H.
  apply startswith_spec in H as [b ->]. reflexivity.
Qed.

Lemma path_join_inj (d b b' : pystr) :
  startswith b (str "/") = false -> startswith b' (str "/") = false ->
  path_join d b = path_join d b' -> b = b'.
Proof.
  unfold path_join. intros -> ->.
  destruct (match d with [] => true | _ => endswith d (str "/") end).
  - apply app_inv_head.
  - intros H. apply app_inv_head in H. now apply app_inv_head in H.
Qed.

Lemma name_no_slash (idx : Z) (rest : pystr) :
  0 <= idx ->
  startswith (zfill 5 (str_of_int idx) ++ str "_" ++ rest) (str "/") = false.
Proof.
  intros Hi. pose proof (zfill_digits 5 idx Hi) as Hd.
  destruct (zfill 5 (str_of_int idx)) as [|c z]; [reflexivity|].
  assert (Hc : 48 <= c <= 57) by (apply is_digit_range, Hd; now left).
  change (str "/") with [47]. cbn [app startswith].
  replace (47 =? c) with false by (symmetry; apply Z.eqb_neq; lia).
  reflexivity.
Qed.

Lemma position_of_name (i j : Z) (x y : pystr) :
  0 <= i -> 0 <= j ->
  zfill 5 (str_of_int i) ++ str "_" ++ x = zfill 5 (str_of_int j) ++ str "_" ++ y ->
  i = j.
Proof.
  intros Hi Hj H. change (str "_") with [95] in H. cbn [app] in H.
  apply split_at_first in H.
  - rewrite <- (zfill_value 5 i Hi), <- (zfill_value 5 j Hj). now rewrite H.
  - intros Hin. apply (zfill_digits 5 i Hi) in Hin. discriminate.
  - intros Hin. apply (zfill_digits 5 j Hj) in Hin. discriminate.
Qed.

(** A file name tells the position of its entry. *)
Lemma file_at_position (out_dir : pystr) (i j : Z) (p : pystr) :
  0 <= i -> 0 <= j -> file_at out_dir i p -> file_at out_dir j p -> i = j.
Proof.
  intros Hi Hj [x [[Hk Hp] | [Hk Hp]]] [y [[Hk' Hp'] | [Hk' Hp']]].
  - rewrite Hp in Hp'. apply path_join_inj in Hp';
      try (now apply name_no_slash). exact (position_of_name _ _ _ _ Hi Hj Hp').
  - apply kinds_exclusive in Hk. congruence.
  - apply kinds_exclusive in Hk'. congruence.
  - rewrite Hp in Hp'. apply path_join_inj in Hp';
      try (now apply name_no_slash). exact (position_of_name _ _ _ _ Hi Hj Hp').
Qed.

Lemma file_at_response (out_dir : pystr) (idx : Z) (x : pystr) :
  file_at out_dir idx
    (path_join (responses_dir out_dir)
       ((zfill 5 (str_of_int idx) ++ str "_" ++ x) ++ str ".response.json")).
Proof.
  exists (x ++ str ".response.json"). left.
  split; [apply response_path_kind | now rewrite <- !app_assoc].
Qed.

Lemma file_at_request (out_dir : pystr) (idx : Z) (x : pystr) :
  file_at out_dir idx
    (path_join (requests_dir out_dir)
       ((zfill 5 (str_of_int idx) ++ str "_" ++ x) ++ str ".request.json")).
Proof.
  exists (x ++ str ".request.json"). right.
  split; [apply request_path_kind | now rewrite <- !app_assoc].
Qed.

Lemma request_is_no_response (a b a' b' : pystr) :
  path_join a (b ++ str ".request.json")
  <> path_join a' (b' ++ str ".response.json").
Proof.
  intros H. pose proof (proj2 (request_path_kind a b)) as H1.
  rewrite H in H1. now rewrite (proj1 (response_path_kind a' b')) in H1.
Qed.

Lemma process_entry_files_at {L : Lib} (out_dir : pystr) (inc : bool)
    (idx : Z) (entry : json) :
  files_at out_dir idx (snd (process_entry out_dir inc idx entry initial)).
Proof.
  unfold process_entry. exec.
  all: unfold files_at.
  all: cbn [ret snd fst files initial map
            incr_total_api incr_total_json_saved incr_total_req_json_saved
            add_file append_row].
  all: split;
    [ repeat match goal with
      | |- NoDup [] => constructor
      | |- NoDup (_ :: _) => constructor
      | |- ~ In _ [] => intros []
      | |- ~ In _ [_] =>
          let H := fresh in
          intros [H | []];
          first [ now apply request_is_no_response in H
                | symmetry in H; now apply request_is_no_response in H ]
      end
    | intros f Hf; cbn [In] in Hf;
      repeat (destruct Hf as [<- | Hf];
              [cbn [fst]; first [apply file_at_response | apply file_at_request]|]);
      now destruct Hf ].
Qed.

Lemma entry_outcome_files_at {L : Lib} (out_dir : pystr) (inc : bool)
    (ie : Z * json) :
  files_at out_dir (fst ie) (entry_outcome out_dir inc ie).
Proof.
  unfold entry_outcome, handle_entry.
  pose proof (process_entry_files_at out_dir inc (fst ie) (snd ie)) as H.
  destruct (process_entry out_dir inc (fst ie) (snd ie) initial) as [[p|e] s];
    [|destruct (printable e)]; exact H.
Qed.

Lemma nodup_app {A} (l l' : list A) :
  NoDup l -> NoDup l' -> (forall a, In a l -> ~ In a l') -> NoDup (l ++ l').
Proof.
  induction 1 as [|x l Hx Hl IH]; intros Hl' Hd; [exact Hl'|].
  cbn [app]. constructor.
  - rewrite in_app_iff. intros [H | H]; [now apply Hx|].
    apply (Hd x); [now left | exact H].
  - apply IH; [exact Hl'|]. intros a Ha. apply Hd. now right.
Qed.

Lemma fold_files_at {L : Lib} (out_dir : pystr) (inc : bool) (k0 : Z)
    (l : list json) :
  forall (k : Z) (st : state) (ps rest : list (Z * json)),
    enumerate k l = ps ++ rest ->
    0 <= k0 <= k ->
    NoDup (map fst (files st)) ->
    (forall f, In f (files st) ->
       exists i, k0 <= i < k /\ file_at out_dir i (fst f)) ->
    NoDup (map fst (files (fold_left
             (fun st ie => combine_state st (entry_outcome out_dir inc ie))
             ps st))) /\
    (forall f, In f (files (fold_left
             (fun st ie => combine_state st (entry_outcome out_dir inc ie))
             ps st)) ->
       exists i, k0 <= i < k + Z.of_nat (List.length l)
                 /\ file_at out_dir i (fst f)).
Proof.
  assert (Hstay : forall (k : Z) (n : nat) (st : state),
            NoDup (map fst (files st)) ->
            (forall f, In f (files st) ->
               exists i, k0 <= i < k /\ file_at out_dir i (fst f)) ->
            NoDup (map fst (files st)) /\
            (forall f, In f (files st) ->
               exists i, k0 <= i < k + Z.of_nat n /\ file_at out_dir i (fst f))).
  { intros k n st Hnd Hat. split; [exact Hnd|].
    intros f Hf. destruct (Hat f Hf) as (i & Hi & Hfi).
    exists i. split; [lia | exact Hfi]. }
  induction l as [|entry rest0 IH]; intros k st ps rest E Hk Hnd Hat.
  - cbn [enumerate] in E. symmetry in E. apply app_eq_nil in E as [-> _].
    cbn [fold_left]. now apply Hstay.
  - destruct ps as [|p ps]; [cbn [fold_left]; now apply Hstay|].
    cbn [enumerate app] in E. injection E as <- E. cbn [fold_left].
    destruct (entry_outcome_files_at out_dir inc (k, entry)) as [Hnd1 Hat1].
    cbn [fst] in Hat1.
    destruct (IH (k + 1)
                (combine_state st (entry_outcome out_dir inc (k, entry)))
                ps rest E)
      as [Hnd' Hat'].
    + lia.
    + cbn [combine_state files]. rewrite map_app. apply nodup_app.
      * exact Hnd1.
      * exact Hnd.
      * intros q Hq Hq'.
        apply in_map_iff in Hq as (f & <- & Hf).
        apply in_map_iff in Hq' as (f' & E' & Hf').
        destruct (Hat f' Hf') as (i & Hi & Hfi). rewrite E' in Hfi.
        assert (Hi0 : 0 <= i) by lia. assert (Hk0 : 0 <= k) by lia.
        pose proof (file_at_position out_dir i k (fst f) Hi0 Hk0 Hfi
                      (Hat1 f Hf)). lia.
    + intros f Hf. cbn [combine_state files] in Hf.
      apply in_app_iff in Hf as [Hf | Hf].
      * exists k. split; [lia | now apply Hat1].
      * destruct (Hat f Hf) as (i & Hi & Hfi).
        exists i. split; [lia | exact Hfi].
    + split; [exact Hnd'|]. intros f Hf.
      destruct (Hat' f Hf) as (i & Hi & Hfi). exists i.
      split; [cbn [List.length]; lia | exact Hfi].
Qed.

(** X18: no file is written twice: the files that a run writes, to their
    end or not, have pairwise different names, and the name of each tells
    the position of its entry in the capture. *)
Theorem X18_file_names_are_distinct {L : Lib}
    (har_file : input_file) (out_dir : pystr) (include_nonjson : bool) :
  NoDup (map fst (files (final (main har_file out_dir include_nonjson)))) /\
  (forall f,
     In f (files (final (main har_file out_dir include_nonjson))) ->
     exists i, 1 <= i <= Z.of_nat (List.length (captured har_file)) /\
               file_at out_dir i (fst f)).
Proof.
  rewrite main_final.
  assert (H : forall f, In f (files initial) ->
                exists i, 1 <= i < 1 /\ file_at out_dir i (fst f))
    by (intros f []).
  assert (H1 : 0 <= 1 <= 1) by lia.
  destruct (visited_prefix (entry_stops out_dir include_nonjson)
              (enumerate 1 (captured har_file))) as [rest E].
  destruct (fold_files_at out_dir include_nonjson 1 (captured har_file) 1
              initial _ rest E H1 (NoDup_nil _) H) as [Hnd Hat].
  split; [exact Hnd|]. intros f Hf.
  destruct (Hat f Hf) as (i & Hi & Hfi).
  exists i. split; [lia | exact Hfi].
Qed.

(** ** The columns of a row *)

Lemma or_default (a d : json) : truthy (or_ a d) = true \/ or_ a d = d.
Proof. unfold or_. destruct (truthy a) eqn:E; auto. Qed.

(** What the classifier has read as text, the fields hold as text. *)
Lemma fields_are_text {L : Lib} (entry method url started content : json)
    (status : Z) (v : bool) :
  get_entry_fields entry = Ok (method, url, started, status, content) ->
  is_probable_api entry = Ok v ->
  is_str method /\
  (truthy started = true \/ started = JStr []) /\
  (forall cm, get content (str "mimeType") = Ok cm ->
              is_str (or_ cm (JStr []))).
Proof.
  unfold get_entry_fields, is_probable_api. intros H1 H2.
  destruct (get_default entry (str "request") (JDict [])) as [req|];
    [|discriminate].
  destruct (get_default entry (str "response") (JDict [])) as [res|];
    [|discriminate].
  cbn [bind] in *.
  destruct (get req (str "url")) as [u0|]; [|discriminate].
  destruct (get req (str "method")) as [m0|]; [|discriminate].
  cbn [bind] in *.
  destruct (get entry (str "startedDateTime")) as [s0|]; [|discriminate].
  destruct (get res (str "status")) as [st0|]; [|discriminate].
  cbn [bind] in *.
  destruct (int_ (or_ st0 (JInt 0))) as [z|]; [|discriminate].
  destruct (get res (str "content")) as [c0|]; [|discriminate].
  cbn [bind] in *. injection H1 as <- <- <- <- <-.
  destruct (as_str (or_ m0 (JStr []))) as [ms|] eqn:Em; [|discriminate].
  cbn [bind] in H2.
  split; [|split; [apply or_default|]].
  - destruct (or_ m0 (JStr [])); try discriminate Em. now eexists.
  - intros cm Hcm. rewrite Hcm in H2. cbn [bind] in H2.
    destruct (get res (str "mimeType")) as [rm|]; [|discriminate].
    cbn [bind] in H2.
    destruct (as_str (or_ (or_ cm rm) (JStr []))) as [mm|] eqn:Emm;
      [|discriminate].
    unfold or_ in *. destruct (truthy cm) eqn:Ec; [|now eexists].
    rewrite Ec in Emm. destruct cm; try discriminate Emm. now eexists.
Qed.

Lemma process_entry_rows_typed {L : Lib} (out_dir : pystr) (inc : bool)
    (idx : Z) (entry : json) :
  rows_typed (snd (process_entry out_dir inc idx entry initial)).
Proof.
  unfold process_entry. exec.
  all: unfold rows_typed.
  all: cbn [ret snd fst summary_rows initial app
            incr_total_api incr_total_json_saved incr_total_req_json_saved
            add_file append_row].
  all: intros r Hr; try (now destruct Hr).
  all: destruct Hr as [<- | []].
  all: cbn [row_method row_url row_response_mimeType row_startedDateTime].
  all: match goal with
       | Hf : get_entry_fields _ = Ok _, Hv : is_probable_api _ = Ok _,
         Hu : urlparse_value ?u = Ok _, Hm : get _ (str "mimeType") = Ok _ |- _ =>
           destruct (fields_are_text _ _ _ _ _ _ _ Hf Hv) as (H1 & H2 & H3);
           split; [exact H1|]; split;
           [destruct u; try discriminate Hu; now eexists|];
           split; [exact (H3 _ Hm) | exact H2]
       end.
Qed.

Lemma rows_typed_combine (a b : state) :
  rows_typed a -> rows_typed b -> rows_typed (combine_state a b).
Proof.
  intros Ha Hb r Hr. cbn [combine_state summary_rows] in Hr.
  apply in_app_iff in Hr as [Hr | Hr]; [now apply Ha | now apply Hb].
Qed.

Lemma entry_outcome_rows_typed {L : Lib} (out_dir : pystr) (inc : bool)
    (ie : Z * json) :
  rows_typed (entry_outcome out_dir inc ie).
Proof.
  unfold entry_outcome, handle_entry.
  pose proof (process_entry_rows_typed out_dir inc (fst ie) (snd ie)) as H.
  destruct (process_entry out_dir inc (fst ie) (snd ie) initial) as [[p|e] s];
    [|destruct (printable e)]; exact H.
Qed.

(** X19: in every row of the summary the method, the URL and the mime type
    of the response are strings, whatever the capture holds in their place:
    an entry with another value gets no row; a start time that is absent or
    falsy is written as the empty string. *)
Theorem X19_text_columns_hold_text {L : Lib}
    (har_file : input_file) (out_dir : pystr) (include_nonjson : bool)
    (rows : list row) (r : row) :
  summary_csv (main har_file out_dir include_nonjson) = Some rows ->
  In r rows ->
  is_str (row_method r) /\ is_str (row_url r) /\
  is_str (row_response_mimeType r) /\
  (truthy (row_startedDateTime r) = true \/ row_startedDateTime r = JStr []).
Proof.
  intros Hsum Hr.
  destruct (main_summary_prefix _ _ _ _ Hsum)
    as (entries & st & rest & _ & Hfin & _ & Hrows).
  assert (Hin : In r (summary_rows (final (main har_file out_dir
                                             include_nonjson))))
    by (rewrite Hfin, Hrows; apply in_app_iff; now left).
  clear - Hin. revert r Hin.
  change (rows_typed (final (main har_file out_dir include_nonjson))).
  rewrite main_final. apply (fold_invariant rows_typed).
  - apply rows_typed_combine.
  - intros ie _. apply entry_outcome_rows_typed.
  - intros r [].
Qed.

Lemma X19_witness_first_row :
  exists rows r,
    summary_csv (main (L := example_lib) (File three_entries) (str "/out") false)
    = Some rows /\
    In r rows /\ row_method r = JStr (str "GET") /\ is_str (row_url r).
Proof.
  destruct (summary_csv (main (L := example_lib) (File three_entries)
                           (str "/out") false)) as [rows|] eqn:H;
    [|vm_compute in H; discriminate].
  destruct rows as [|r rows]; [vm_compute in H; discriminate|].
  exists (r :: rows), r.
  split; [reflexivity | split; [now left | split]].
  - vm_compute in H. injection H as <- _. reflexivity.
  - exact (proj1 (proj2 (X19_text_columns_hold_text (L := example_lib)
                           _ _ _ _ r H (or_introl eq_refl)))).
Defined.

(** ** Request recovery and the mime type *)

Lemma try_parse_json_failed (text v : json) :
  try_parse_json text = Ok (v, false) -> v = JNull.
Proof.
  unfold try_parse_json. destruct (truthy text); cbn [negb].
  - destruct (as_str text) as [t|]; [|discriminate]. cbn [bind].
    destruct (strip (strip_json_hardening_prefix t)); [congruence|].
    destruct (json_loads (z :: p)); [discriminate | congruence].
  - congruence.
Qed.

(** X20: unless the mime type of the post data contains
    "x-www-form-urlencoded", the mime type plays no part: the request body
    is recovered exactly as [try_parse_json] parses its text, whether the
    mime type contains "json" or not. *)
Theorem X20_mime_type_is_immaterial_without_form
    (entry post : json) (mime : pystr) (text : json) :
  post_data entry = Ok post ->
  post_mime post = Ok mime ->
  get post (str "text") = Ok text ->
  contains mime (str "x-www-form-urlencoded") = false ->
  try_extract_request_json entry = try_parse_json text.
Proof.
  intros Hp Hm Ht Hform.
  rewrite (request_recovery_unfold _ _ _ _ Hp Hm Ht), Hform.
  destruct (truthy text) eqn:Htruthy; cbn [negb].
  - destruct (try_parse_json text) as [[v b]|e] eqn:E.
    + destruct b.
      * destruct (contains mime (str "json")); reflexivity.
      * rewrite (try_parse_json_failed _ _ E).
        destruct (contains mime (str "json")); reflexivity.
    + destruct (contains mime (str "json")); reflexivity.
  - unfold try_parse_json. now rewrite Htruthy.
Qed.

Lemma X20_witness_plain_text_request :
  let entry := parse "{`request`: {`postData`: {`mimeType`: `text/plain`, `text`: `[1, 2]`}}}" in
  post_mime (parse "{`mimeType`: `text/plain`, `text`: `[1, 2]`}")
  = Ok (str "text/plain") /\
  try_extract_request_json entry = Ok (JList [JInt 1; JInt 2], true).
Proof.
  intros entry.
  assert (Hm : post_mime (parse "{`mimeType`: `text/plain`, `text`: `[1, 2]`}")
               = Ok (str "text/plain")) by reflexivity.
  split; [exact Hm|].
  rewrite (X20_mime_type_is_immaterial_without_form entry
             (parse "{`mimeType`: `text/plain`, `text`: `[1, 2]`}")
             (str "text/plain") (JStr (str "[1, 2]")));
    reflexivity.
Defined.

End ExtractHarJsonProps.


(* ================================================================== *)
(** * Properties of url_aggregate.py *)
(* ================================================================== *)

Module UrlAggregateProps.
Import Py PyFacts UrlAggregate.

(** ** Sets and the map of URLs *)

Lemma nonempty_true (s : pystr) : nonempty s = true <-> s <> [].
Proof. destruct s; simpl; split; congruence. Qed.

Lemma existsb_str_eqb (x : pystr) (l : list pystr) :
  existsb (str_eqb x) l = true <-> In x l.
Proof.
  rewrite existsb_exists. split.
  - intros (y & Hy & E). apply str_eqb_eq in E. now subst.
  - intros H. exists x. split; [exact H | apply str_eqb_refl].
Qed.

Lemma set_add_in (x s : pystr) (l : list pystr) :
  In s (set_add x l) <-> s = x \/ In s l.
Proof.
  unfold set_add. destruct (existsb (str_eqb x) l) eqn:E.
  - apply existsb_str_eqb in E. split; [auto | intros [-> | H]; auto].
  - rewrite in_app_iff. simpl. split; intros [H | H]; auto.
    destruct H as [<- | []]. now left.
Qed.

Lemma set_add_NoDup (x : pystr) (l : list pystr) :
  NoDup l -> NoDup (set_add x l).
Proof.
  intros H. unfold set_add. destruct (existsb (str_eqb x) l) eqn:E; [exact H|].
  assert (Hx : ~ In x l) by (rewrite <- existsb_str_eqb; congruence).
  clear E. induction H as [|y l Hy Hl IH]; simpl.
  - constructor; [intros [] | constructor].
  - constructor.
    + rewrite in_app_iff. simpl. intros [H | [-> | []]]; [now apply Hy|].
      apply Hx. now left.
    + apply IH. intros H. apply Hx. now right.
Qed.

Lemma first_seen_snoc (l : list pystr) (x : pystr) :
  first_seen (l ++ [x]) = set_add x (first_seen l).
Proof. unfold first_seen. now rewrite fold_left_app. Qed.

Lemma first_seen_in (l : list pystr) (x : pystr) :
  In x (first_seen l) <-> In x l.
Proof.
  induction l as [|y l IH] using rev_ind; [reflexivity|].
  rewrite first_seen_snoc, set_add_in, in_app_iff, IH. simpl.
  split.
  - intros [-> | H]; [right; now left | now left].
  - intros [H | [-> | []]]; [now right | now left].
Qed.

Lemma first_seen_NoDup (l : list pystr) : NoDup (first_seen l).
Proof.
  induction l as [|y l IH] using rev_ind; [constructor|].
  rewrite first_seen_snoc. now apply set_add_NoDup.
Qed.

Lemma has_key_spec (m : url_map) (u : pystr) :
  has_key m u = existsb (str_eqb u) (map fst m).
Proof.
  induction m as [|[k d] r IH]; [reflexivity|]. simpl. rewrite IH. f_equal.
  destruct (str_eqb k u) eqn:E.
  - apply str_eqb_eq in E. subst. now rewrite str_eqb_refl.
  - symmetry. apply str_eqb_neq. apply str_eqb_neq in E. congruence.
Qed.

Lemma update_keys (m : url_map) (u : pystr) (f : data -> data) :
  map fst (update m u f) = map fst m.
Proof.
  induction m as [|[k d] r IH]; [reflexivity|]. simpl.
  destruct (str_eqb k u); simpl; congruence.
Qed.

Lemma update_in (m : url_map) (u : pystr) (f : data -> data)
    (u' : pystr) (d' : data) :
  NoDup (map fst m) ->
  In (u', d') (update m u f) <->
  (u' <> u /\ In (u', d') m) \/ (u' = u /\ exists d, In (u, d) m /\ d' = f d).
Proof.
  induction m as [|[k d] r IH]; intros Hnd.
  - simpl. split; [intros [] | intros [(_ & []) | (_ & x & [] & _)]].
  - inversion Hnd as [|? ? Hk Hr]; subst. simpl.
    destruct (str_eqb k u) eqn:E.
    + apply str_eqb_eq in E. subst k. simpl. split.
      * intros [H | H].
        -- injection H as <- <-. right. split; [reflexivity|]. eauto.
        -- left. split; [|now right]. intros ->. apply Hk.
           now apply (in_map fst) in H.
      * intros [(Hne & [H | H]) | (-> & x & [H | H] & ->)].
        -- injection H as -> _. contradiction.
        -- now right.
        -- injection H as <-. now left.
        -- exfalso. apply Hk. now apply (in_map fst) in H.
    + apply str_eqb_neq in E. simpl. rewrite (IH Hr). split.
      * intros [H | [(Hne & H) | (-> & x & H & ->)]].
        -- injection H as <- <-. left. split; [exact E | now left].
        -- left. split; [exact Hne | now right].
        -- right. split; [reflexivity|]. exists x. split; [now right | reflexivity].
      * intros [(Hne & [H | H]) | (-> & x & [H | H] & ->)].
        -- now left.
        -- right. left. auto.
        -- injection H as -> _. contradiction.
        -- right. right. split; [reflexivity|]. eauto.
Qed.

(** ** The invariant of the scan *)

Lemma collected_other (cell : csv_row -> pystr) (rows : list csv_row)
    (row : csv_row) (u : pystr) (S : list pystr) :
  url_of row <> u ->
  collected cell rows u S -> collected cell (rows ++ [row]) u S.
Proof.
  intros Hne HS s. rewrite (HS s). split.
  - intros (Hn & r & Hr & Hu & Hv). split; [exact Hn|].
    exists r. rewrite in_app_iff. auto.
  - intros (Hn & r & Hr & Hu & Hv). split; [exact Hn|].
    apply in_app_iff in Hr as [Hr | [<- | []]]; [eauto | contradiction].
Qed.

Lemma collected_same (cell : csv_row -> pystr) (rows : list csv_row)
    (row : csv_row) (S : list pystr) :
  collected cell rows (url_of row) S ->
  collected cell (rows ++ [row]) (url_of row)
    (if nonempty (cell row) then set_add (cell row) S else S).
Proof.
  intros HS s. destruct (nonempty (cell row)) eqn:E.
  - rewrite set_add_in, (HS s). apply nonempty_true in E. split.
    + intros [-> | (Hn & r & Hr & Hu & Hv)].
      * split; [exact E|]. exists row. rewrite in_app_iff. simpl. auto.
      * split; [exact Hn|]. exists r. rewrite in_app_iff. auto.
    + intros (Hn & r & Hr & Hu & Hv).
      apply in_app_iff in Hr as [Hr | [<- | []]]; [right; eauto | now left].
  - rewrite (HS s). split.
    + intros (Hn & r & Hr & Hu & Hv). split; [exact Hn|].
      exists r. rewrite in_app_iff. auto.
    + intros (Hn & r & Hr & Hu & Hv). split; [exact Hn|].
      apply in_app_iff in Hr as [Hr | [<- | []]]; [eauto|].
      exfalso. apply nonempty_true in Hn. congruence.
Qed.

Lemma collected_none (cell : csv_row -> pystr) (rows : list csv_row)
    (u : pystr) :
  (forall r, In r rows -> url_of r <> u) -> collected cell rows u [].
Proof.
  intros Hnone s. split; [intros [] | intros (_ & r & Hr & E & _)].
  exact (Hnone r Hr E).
Qed.

Lemma data_ok_other (rows : list csv_row) (row : csv_row) (u : pystr) (d : data) :
  url_of row <> u -> data_ok rows u d -> data_ok (rows ++ [row]) u d.
Proof.
  intros Hne (Hs & Hf & Hst & Hfl).
  split; [exact Hs | split; [exact Hf | split]]; now apply collected_other.
Qed.

Lemma data_ok_collect (rows : list csv_row) (row : csv_row) (d : data) :
  data_ok rows (url_of row) d ->
  data_ok (rows ++ [row]) (url_of row) (collect row d).
Proof.
  intros (Hs & Hf & Hst & Hfl).
  assert (Hstat : statuses (collect row d)
                  = if nonempty (status_of row)
                    then set_add (status_of row) (statuses d) else statuses d).
  { unfold collect. destruct (nonempty (status_of row)),
      (nonempty (file_of row)); reflexivity. }
  assert (Hfile : files (collect row d)
                  = if nonempty (file_of row)
                    then set_add (file_of row) (files d) else files d).
  { unfold collect. destruct (nonempty (status_of row)),
      (nonempty (file_of row)); reflexivity. }
  unfold data_ok. rewrite Hstat, Hfile. split; [|split; [|split]].
  - destruct (nonempty (status_of row)); [now apply set_add_NoDup | exact Hs].
  - destruct (nonempty (file_of row)); [now apply set_add_NoDup | exact Hf].
  - now apply collected_same.
  - now apply collected_same.
Qed.

Lemma update_twice (m : url_map) (u : pystr) (f g : data -> data) :
  update (update m u f) u g = update m u (fun d => g (f d)).
Proof.
  induction m as [|[k d] r IH]; [reflexivity|]. simpl.
  destruct (str_eqb k u) eqn:E; simpl; rewrite E; [reflexivity | now rewrite IH].
Qed.

Lemma update_id (m : url_map) (u : pystr) : update m u (fun d => d) = m.
Proof.
  induction m as [|[k d] r IH]; [reflexivity|]. simpl.
  destruct (str_eqb k u); [reflexivity | now rewrite IH].
Qed.

(** The loop body for a row with a URL: the URL gets a value if it has
    none, and the value collects the row. *)
Lemma scan_row_eq (m : url_map) (row : csv_row) :
  scan_row m row =
  if nonempty (url_of row) then
    update (if has_key m (url_of row) then m
            else m ++ [(url_of row, {| statuses := []; files := [] |})])
           (url_of row) (collect row)
  else m.
Proof.
  unfold scan_row, collect, url_of, status_of, file_of.
  destruct (nonempty (strip (or_empty (url row)))); [|reflexivity].
  cbn [negb].
  destruct (nonempty (strip (or_empty (status row)))),
    (nonempty (strip (or_empty (response_json_file row))));
    rewrite ?update_twice, ?update_id; reflexivity.
Qed.

Lemma scan_rows_snoc (rows : list csv_row) (row : csv_row) :
  scan_rows (rows ++ [row]) = scan_row (scan_rows rows) row.
Proof. unfold scan_rows. now rewrite fold_left_app. Qed.

Lemma scan_rows_ok (rows : list csv_row) : scan_ok rows (scan_rows rows).
Proof.
  induction rows as [|row rows IH] using rev_ind.
  - split; [reflexivity | intros u d []].
  - destruct IH as (Hkeys & Hdata).
    assert (Hnd : NoDup (map fst (scan_rows rows)))
      by (rewrite Hkeys; apply first_seen_NoDup).
    assert (Hkey : forall u, In u (map fst (scan_rows rows)) <->
                             u <> [] /\ exists r, In r rows /\ url_of r = u).
    { intros u. rewrite Hkeys, first_seen_in, filter_In, in_map_iff.
      rewrite nonempty_true. split.
      - intros ((r & Hr & Hin) & Hn). eauto.
      - intros (Hn & r & Hin & Hr). eauto. }
    rewrite scan_rows_snoc, scan_row_eq. unfold scan_ok.
    rewrite map_app, filter_app. cbn [map filter].
    destruct (nonempty (url_of row)) eqn:Hu.
    + rewrite first_seen_snoc, <- Hkeys.
      set (m := scan_rows rows) in *.
      set (m1 := if has_key m (url_of row) then m
                 else m ++ [(url_of row, {| statuses := []; files := [] |})]).
      assert (Hm1 : map fst m1 = set_add (url_of row) (map fst m)).
      { unfold m1, set_add. rewrite has_key_spec.
        destruct (existsb (str_eqb (url_of row)) (map fst m)); [reflexivity|].
        now rewrite map_app. }
      assert (Hnd1 : NoDup (map fst m1))
        by (rewrite Hm1; now apply set_add_NoDup).
      assert (Hdata1 : forall u d, In (u, d) m1 ->
                (u <> url_of row /\ data_ok rows u d) \/
                (u = url_of row /\ data_ok rows (url_of row) d)).
      { intros u d Hin.
        assert (Hcase : In (u, d) m \/
                  (has_key m (url_of row) = false /\ u = url_of row /\
                   d = {| statuses := []; files := [] |})).
        { unfold m1 in Hin. destruct (has_key m (url_of row)); [now left|].
          apply in_app_iff in Hin as [H | [H | []]]; [now left|].
          injection H as <- <-. right. auto. }
        destruct Hcase as [H | (Hno & -> & ->)].
        - destruct (list_eq_dec Z.eq_dec u (url_of row)) as [-> | Hne];
            [right | left]; auto.
        - right. split; [reflexivity|].
          assert (Hnone : forall r, In r rows -> url_of r <> url_of row).
          { intros r Hr E. rewrite has_key_spec in Hno.
            assert (In (url_of row) (map fst m)) as Hk.
            { apply Hkey. split; [now apply nonempty_true | eauto]. }
            apply existsb_str_eqb in Hk. congruence. }
          split; [constructor | split; [constructor | split]];
            now apply collected_none. }
      split; [now rewrite update_keys|].
      intros u d Hin. apply (update_in _ _ _ _ _ Hnd1) in Hin
        as [(Hne & Hin) | (-> & d0 & Hin & ->)].
      * destruct (Hdata1 _ _ Hin) as [(_ & Hok) | (E & _)]; [|contradiction].
        apply data_ok_other; [congruence | exact Hok].
      * destruct (Hdata1 _ _ Hin) as [(Hne & _) | (_ & Hok)]; [contradiction|].
        now apply data_ok_collect.
    + rewrite app_nil_r. split; [exact Hkeys|].
      intros u d Hin. apply data_ok_other; [|now apply Hdata].
      intros E. assert (Hk : In u (map fst (scan_rows rows)))
        by (apply (in_map fst) in Hin; exact Hin).
      apply Hkey in Hk as (Hn & _). apply nonempty_true in Hn. congruence.
Qed.

(** ** Sorting *)

Section Sorting.
Variable leb : pystr -> pystr -> bool.
Variable lt : pystr -> pystr -> Prop.
Hypothesis leb_false : forall a b, leb a b = false -> lt b a.
Hypothesis leb_true : forall a b, leb a b = true -> a <> b -> lt a b.
Hypothesis lt_trans : forall a b c, lt a b -> lt b c -> lt a c.
Hypothesis lt_irrefl : forall a, ~ lt a a.

Lemma insert_sorted_in (x z : pystr) (l : list pystr) :
  In z (insert_sorted leb x l) <-> z = x \/ In z l.
Proof.
  induction l as [|y l IH]; simpl.
  - split; intros [H | H]; auto.
  - destruct (leb x y); simpl; [split; intros [H | H]; auto|].
    rewrite IH. split; intros [H | [H | H]]; auto.
Qed.

Lemma insert_sorted_strongly (x : pystr) (l : list pystr) :
  StronglySorted lt l -> ~ In x l ->
  StronglySorted lt (insert_sorted leb x l).
Proof.
  induction 1 as [|y l Hl IH Hy]; intros Hx; simpl.
  - constructor; constructor.
  - destruct (leb x y) eqn:E.
    + assert (Hxy : lt x y).
      { apply leb_true; [exact E|]. intros ->. apply Hx. now left. }
      constructor; [now constructor|].
      constructor; [exact Hxy|].
      eapply Forall_impl; [|exact Hy]. intros z Hz. eauto.
    + constructor.
      * apply IH. intros H. apply Hx. now right.
      * apply Forall_forall. intros z Hz. apply insert_sorted_in in Hz
          as [-> | Hz]; [now apply leb_false|].
        rewrite Forall_forall in Hy. now apply Hy.
Qed.

Lemma sorted_in (z : pystr) (l : list pystr) :
  In z (sorted leb l) <-> In z l.
Proof.
  induction l as [|x l IH]; simpl; [reflexivity|].
  rewrite insert_sorted_in, IH. split; intros [H | H]; auto.
Qed.

Lemma sorted_strongly (l : list pystr) :
  NoDup l -> StronglySorted lt (sorted leb l).
Proof.
  induction 1 as [|x l Hx Hl IH]; simpl; [constructor|].
  apply insert_sorted_strongly; [exact IH|]. now rewrite sorted_in.
Qed.

(** A set has one sorted listing. *)
Lemma strongly_sorted_unique (l1 l2 : list pystr) :
  StronglySorted lt l1 -> StronglySorted lt l2 ->
  (forall x, In x l1 <-> In x l2) -> l1 = l2.
Proof.
  intros H1. revert l2. induction H1 as [|h1 t1 Ht1 IH Hh1];
    intros l2 H2 Hin.
  - destruct l2 as [|h2 t2]; [reflexivity|].
    destruct (proj2 (Hin h2) (or_introl eq_refl)).
  - destruct H2 as [|h2 t2 Ht2 Hh2].
    + destruct (proj1 (Hin h1) (or_introl eq_refl)).
    + rewrite Forall_forall in Hh1, Hh2.
      assert (E : h1 = h2).
      { destruct (proj1 (Hin h1) (or_introl eq_refl)) as [E | Hi1]; [auto|].
        destruct (proj2 (Hin h2) (or_introl eq_refl)) as [E | Hi2]; [auto|].
        exfalso. apply (lt_irrefl h1). eauto. }
      subst h2. f_equal. apply IH; [exact Ht2|].
      intros x. split; intros Hx.
      * destruct (proj1 (Hin x) (or_intror Hx)) as [<- | H]; [|exact H].
        exfalso. apply (lt_irrefl h1). auto.
      * destruct (proj2 (Hin x) (or_intror Hx)) as [<- | H]; [|exact H].
        exfalso. apply (lt_irrefl h1). auto.
Qed.

(** [sorted] does not depend on the order in which a set lists its
    elements. *)
Lemma sorted_of_set (l l' : list pystr) :
  NoDup l -> Permutation l l' -> sorted leb l = sorted leb l'.
Proof.
  intros Hl Hp. apply strongly_sorted_unique.
  - now apply sorted_strongly.
  - apply sorted_strongly. eapply Permutation_NoDup; eassumption.
  - intros x. rewrite !sorted_in. split; apply Permutation_in;
      [exact Hp | now apply Permutation_sym].
Qed.

End Sorting.

Lemma str_leb_false (a b : pystr) : str_leb a b = false -> lex_lt b a.
Proof.
  unfold str_leb, lex_lt. rewrite (str_compare_antisym a b).
  destruct (str_compare a b); simpl; congruence.
Qed.

Lemma str_leb_true (a b : pystr) : str_leb a b = true -> a <> b -> lex_lt a b.
Proof.
  unfold str_leb, lex_lt. intros H Hne.
  destruct (str_compare a b) eqn:E; try congruence.
  apply str_compare_eq in E. contradiction.
Qed.

Lemma lex_lt_irrefl (a : pystr) : ~ lex_lt a a.
Proof.
  unfold lex_lt. rewrite (proj2 (str_compare_eq a a) eq_refl). discriminate.
Qed.

Lemma len_then_lex_leb_false (a b : pystr) :
  len_then_lex_leb a b = false -> len_then_lex_lt b a.
Proof.
  unfold len_then_lex_leb, len_then_lex_lt. intros H.
  apply orb_false_iff in H as [H1 H2]. apply Nat.ltb_ge in H1.
  destruct (Nat.eqb (List.length a) (List.length b)) eqn:E.
  - apply Nat.eqb_eq in E. right. split; [auto|].
    now apply str_leb_false.
  - apply Nat.eqb_neq in E. left. lia.
Qed.

Lemma len_then_lex_leb_true (a b : pystr) :
  len_then_lex_leb a b = true -> a <> b -> len_then_lex_lt a b.
Proof.
  unfold len_then_lex_leb, len_then_lex_lt. intros H Hne.
  apply orb_true_iff in H as [H | H].
  - left. now apply Nat.ltb_lt.
  - apply andb_true_iff in H as [H1 H2]. apply Nat.eqb_eq in H1.
    right. split; [exact H1 | now apply str_leb_true].
Qed.

Lemma len_then_lex_lt_trans (a b c : pystr) :
  len_then_lex_lt a b -> len_then_lex_lt b c -> len_then_lex_lt a c.
Proof.
  unfold len_then_lex_lt.
  intros [H1 | [H1 H1']] [H2 | [H2 H2']]; try (left; lia).
  right. split; [congruence|]. eapply str_compare_lt_trans; eassumption.
Qed.

Lemma len_then_lex_lt_irrefl (a : pystr) : ~ len_then_lex_lt a a.
Proof.
  intros [H | [_ H]]; [lia | now apply (lex_lt_irrefl a)].
Qed.

(** ** The claims *)

Lemma main_urls (rows : list csv_row) (sep : pystr) :
  map out_url (main rows sep) = map fst (scan_rows rows).
Proof.
  unfold main. rewrite map_map. apply map_ext. now intros [u d].
Qed.

(** C6 (as amended): the output has one record per distinct non-empty
    trimmed URL, in the order the URLs are first seen; the statuses of a
    record are the distinct non-empty trimmed statuses of the rows of its
    URL in the order (length, then code points), its files are their distinct
    non-empty trimmed files in the order of code points, and each group is
    joined with the separator.  On the rows (A, 200, f1), (A, 200, f2),
    (A, 404, "") the record of A has statuses "200|404" and files
    "f1|f2". *)
Theorem C6_one_record_per_trimmed_url (rows : list csv_row) (sep : pystr) :
  map out_url (main rows sep)
  = first_seen (filter nonempty (map url_of rows)) /\
  NoDup (map out_url (main rows sep)) /\
  (forall o, In o (main rows sep) ->
     exists S F,
       out_statuses o = join sep S /\
       out_response_files o = join sep F /\
       StronglySorted len_then_lex_lt S /\
       StronglySorted lex_lt F /\
       (forall s, In s S <->
          s <> [] /\ exists r, In r rows /\ url_of r = out_url o
                               /\ status_of r = s) /\
       (forall f, In f F <->
          f <> [] /\ exists r, In r rows /\ url_of r = out_url o
                               /\ file_of r = f)) /\
  main three_rows default_sep
  = [{| out_url := str "A"; out_statuses := str "200|404";
        out_response_files := str "f1|f2" |}].
Proof.
  destruct (scan_rows_ok rows) as (Hkeys & Hdata).
  split; [now rewrite main_urls|].
  split; [rewrite main_urls, Hkeys; apply first_seen_NoDup|].
  split; [|reflexivity].
  intros o Ho. unfold main in Ho. apply in_map_iff in Ho as ([u d] & <- & Hin).
  destruct (Hdata u d Hin) as (Hs & Hf & Hst & Hfl).
  exists (sorted len_then_lex_leb (statuses d)), (sorted str_leb (files d)).
  cbn [write_row out_url out_statuses out_response_files].
  split; [reflexivity | split; [reflexivity|]].
  split; [|split; [|split]].
  - apply (sorted_strongly _ _ len_then_lex_leb_false len_then_lex_leb_true
             len_then_lex_lt_trans); exact Hs.
  - apply (sorted_strongly _ _ str_leb_false str_leb_true str_compare_lt_trans);
      exact Hf.
  - intros s. rewrite sorted_in. apply Hst.
  - intros f. rewrite sorted_in. apply Hfl.
Qed.

(** C6 as stated fails: the two rows below have two distinct non-empty
    URLs, " A" and "A"; the output has the one record "A". *)
Lemma C6_counterexample_padded_url_merged :
  first_seen (filter nonempty (map (fun r => or_empty (url r)) padded_rows))
  = [str " A"; str "A"] /\
  main padded_rows default_sep
  = [{| out_url := str "A"; out_statuses := str "200|404";
        out_response_files := str "f1" |}].
Proof. vm_compute. split; reflexivity. Qed.

(** C7 (as amended): for a row whose trimmed URL is not empty, the URL has
    a value in the map; the trimmed status of the row is in its status set
    if it is not empty, and the trimmed file of the row is in its file set
    if it is not empty; neither set ever holds the empty string. *)
Theorem C7_cells_collected_when_not_empty
    (rows : list csv_row) (r : csv_row) :
  In r rows ->
  url_of r <> [] ->
  exists d,
    In (url_of r, d) (scan_rows rows) /\
    (status_of r <> [] -> In (status_of r) (statuses d)) /\
    (file_of r <> [] -> In (file_of r) (files d)) /\
    ~ In [] (statuses d) /\ ~ In [] (files d).
Proof.
  intros Hr Hu. destruct (scan_rows_ok rows) as (Hkeys & Hdata).
  assert (Hk : In (url_of r) (map fst (scan_rows rows))).
  { rewrite Hkeys, first_seen_in, filter_In, in_map_iff, nonempty_true.
    split; [eauto | exact Hu]. }
  apply in_map_iff in Hk as ([u d] & E & Hin). simpl in E. subst u.
  exists d. split; [exact Hin|].
  destruct (Hdata _ _ Hin) as (_ & _ & Hst & Hfl).
  split; [|split; [|split]].
  - intros Hs. apply Hst. split; [exact Hs | eauto].
  - intros Hf. apply Hfl. split; [exact Hf | eauto].
  - intros H. apply Hst in H as (Hn & _). now apply Hn.
  - intros H. apply Hfl in H as (Hn & _). now apply Hn.
Qed.

Lemma C7_witness_three_rows :
  In (row_of "A" "404" "") three_rows /\
  url_of (row_of "A" "404" "") <> [] /\
  exists d, In (str "A", d) (scan_rows three_rows) /\
            In (str "404") (statuses d) /\ ~ In [] (files d).
Proof.
  assert (Hin : In (row_of "A" "404" "") three_rows) by (right; right; now left).
  assert (Hu : url_of (row_of "A" "404" "") <> []) by discriminate.
  split; [exact Hin | split; [exact Hu|]].
  destruct (C7_cells_collected_when_not_empty _ _ Hin Hu)
    as (d & Hd & Hs & _ & _ & Hf).
  exists d. split; [exact Hd | split; [|exact Hf]].
  apply Hs. discriminate.
Defined.

(** C7 as stated fails: the row below has the URL "A" and an empty status;
    the status set of "A" stays empty, the status is not collected. *)
Lemma C7_counterexample_empty_status_not_collected :
  url_of row_without_status = str "A" /\
  or_empty (status row_without_status) = [] /\
  scan_rows [row_without_status]
  = [(str "A", {| statuses := []; files := [str "f1"] |})].
Proof. vm_compute. repeat split; reflexivity. Qed.


(** ** The output does not depend on how the rows are listed *)

Lemma scan_key (rows : list csv_row) (u : pystr) :
  In u (map fst (scan_rows rows)) <->
  u <> [] /\ exists r, In r rows /\ url_of r = u.
Proof.
  destruct (scan_rows_ok rows) as (Hkeys & _).
  rewrite Hkeys, first_seen_in, filter_In, in_map_iff, nonempty_true. split.
  - intros ((r & Hr & Hin) & Hn). eauto.
  - intros (Hn & r & Hin & Hr). eauto.
Qed.

Lemma collected_same_rows (cell : csv_row -> pystr) (rows rows' : list csv_row)
    (u : pystr) (S S' : list pystr) :
  (forall r, In r rows <-> In r rows') ->
  collected cell rows u S -> collected cell rows' u S' ->
  forall s, In s S <-> In s S'.
Proof.
  intros Hrows HS HS' s. rewrite (HS s), (HS' s). split.
  - intros (Hn & r & Hr & Hu). split; [exact Hn|]. exists r.
    split; [now apply Hrows | exact Hu].
  - intros (Hn & r & Hr & Hu). split; [exact Hn|]. exists r.
    split; [now apply Hrows | exact Hu].
Qed.

(** The record of a URL is determined by the set of the rows. *)
Lemma record_of_cells (rows rows' : list csv_row) (u : pystr) (d d' : data)
    (sep : pystr) :
  (forall r, In r rows <-> In r rows') ->
  data_ok rows u d -> data_ok rows' u d' ->
  write_row sep (u, d) = write_row sep (u, d').
Proof.
  intros Hrows (Hs & Hf & Hst & Hfl) (Hs' & Hf' & Hst' & Hfl').
  unfold write_row.
  assert (E1 : sorted len_then_lex_leb (statuses d)
               = sorted len_then_lex_leb (statuses d')).
  { apply (strongly_sorted_unique len_then_lex_lt len_then_lex_lt_trans
             len_then_lex_lt_irrefl).
    - now apply (sorted_strongly _ _ len_then_lex_leb_false
                   len_then_lex_leb_true len_then_lex_lt_trans).
    - now apply (sorted_strongly _ _ len_then_lex_leb_false
                   len_then_lex_leb_true len_then_lex_lt_trans).
    - intros x. rewrite !sorted_in.
      exact (collected_same_rows _ _ _ _ _ _ Hrows Hst Hst' x). }
  assert (E2 : sorted str_leb (files d) = sorted str_leb (files d')).
  { apply (strongly_sorted_unique lex_lt str_compare_lt_trans lex_lt_irrefl).
    - now apply (sorted_strongly _ _ str_leb_false str_leb_true
                   str_compare_lt_trans).
    - now apply (sorted_strongly _ _ str_leb_false str_leb_true
                   str_compare_lt_trans).
    - intros x. rewrite !sorted_in.
      exact (collected_same_rows _ _ _ _ _ _ Hrows Hfl Hfl' x). }
  now rewrite E1, E2.
Qed.

Lemma records_incl (rows rows' : list csv_row) (sep : pystr) :
  (forall r, In r rows <-> In r rows') ->
  forall o, In o (main rows sep) -> In o (main rows' sep).
Proof.
  intros Hrows o Ho. unfold main in *.
  apply in_map_iff in Ho as ([u d] & <- & Hin).
  assert (Hk : In u (map fst (scan_rows rows'))).
  { apply scan_key.
    assert (Hk : In u (map fst (scan_rows rows)))
      by (apply (in_map fst) in Hin; exact Hin).
    apply scan_key in Hk as (Hn & r & Hr & Hu).
    split; [exact Hn|]. exists r. split; [now apply Hrows | exact Hu]. }
  apply in_map_iff in Hk as ([u' d'] & E & Hin'). cbn [fst] in E. subst u'.
  apply in_map_iff. exists (u, d'). split; [|exact Hin'].
  symmetry. apply (record_of_cells rows rows'); [exact Hrows | |].
  - now apply (proj2 (scan_rows_ok rows)).
  - now apply (proj2 (scan_rows_ok rows')).
Qed.

(** X21: the records of the output do not depend on the order of the rows
    of the input, nor on how often a row occurs: two inputs with the same
    rows give the same records. *)
Theorem X21_records_depend_on_the_set_of_rows
    (rows rows' : list csv_row) (sep : pystr) :
  (forall r, In r rows <-> In r rows') ->
  forall o, In o (main rows sep) <-> In o (main rows' sep).
Proof.
  intros Hrows o. split; apply records_incl; [exact Hrows|].
  intros r. symmetry. apply Hrows.
Qed.

Lemma X21_witness_rows_reversed :
  (forall r, In r three_rows <-> In r (rev three_rows)) /\
  In {| out_url := str "A"; out_statuses := str "200|404";
        out_response_files := str "f1|f2" |}
     (main (rev three_rows) default_sep).
Proof.
  assert (H : forall r, In r three_rows <-> In r (rev three_rows))
    by (intros r; apply in_rev).
  split; [exact H|].
  apply (proj1 (X21_records_depend_on_the_set_of_rows three_rows
                  (rev three_rows) default_sep H _)).
  now left.
Defined.

Lemma first_seen_app_seen (a b : list pystr) :
  (forall x, In x b -> In x a) -> first_seen (a ++ b) = first_seen a.
Proof.
  induction b as [|x b IH] using rev_ind; intros H.
  - now rewrite app_nil_r.
  - rewrite app_assoc, first_seen_snoc, IH.
    + unfold set_add.
      assert (Hx : In x (first_seen a)).
      { apply first_seen_in, H, in_app_iff. right. now left. }
      apply existsb_str_eqb in Hx. now rewrite Hx.
    + intros y Hy. apply H, in_app_iff. now left.
Qed.

Lemma map_by_key {A B C} (F : A * B -> C) (m m' : list (A * B)) :
  map fst m = map fst m' ->
  (forall u d d', In (u, d) m -> In (u, d') m' -> F (u, d) = F (u, d')) ->
  map F m = map F m'.
Proof.
  revert m'. induction m as [|[u d] m IH]; intros [|[u' d'] m'] Hk HF;
    try discriminate; [reflexivity|].
  cbn [map fst] in *. injection Hk as <- Hk. f_equal.
  - apply HF; now left.
  - apply IH; [exact Hk|]. intros x y y' Hy Hy'. apply HF; now right.
Qed.

(** X22: rows that repeat rows already read change nothing: the output for
    an input followed by rows that occur in it is the output for the
    input. *)
Theorem X22_repeated_rows_change_nothing
    (rows extra : list csv_row) (sep : pystr) :
  (forall r, In r extra -> In r rows) ->
  main (rows ++ extra) sep = main rows sep.
Proof.
  intros Hex.
  assert (Hrows : forall r, In r (rows ++ extra) <-> In r rows).
  { intros r. rewrite in_app_iff. split; [intros [H | H]; auto | auto]. }
  unfold main. apply map_by_key.
  - rewrite (proj1 (scan_rows_ok (rows ++ extra))), (proj1 (scan_rows_ok rows)).
    rewrite map_app, filter_app. apply first_seen_app_seen.
    intros x Hx. apply filter_In in Hx as [Hx Hn].
    apply in_map_iff in Hx as (r & <- & Hr).
    apply filter_In. split; [|exact Hn]. apply in_map, Hex, Hr.
  - intros u d d' Hd Hd'. apply (record_of_cells (rows ++ extra) rows).
    + exact Hrows.
    + now apply (proj2 (scan_rows_ok (rows ++ extra))).
    + now apply (proj2 (scan_rows_ok rows)).
Qed.

Lemma X22_witness_rows_twice :
  (forall r, In r three_rows -> In r three_rows) /\
  main (three_rows ++ three_rows) default_sep
  = [{| out_url := str "A"; out_statuses := str "200|404";
        out_response_files := str "f1|f2" |}].
Proof.
  split; [auto|].
  rewrite (X22_repeated_rows_change_nothing three_rows three_rows default_sep);
    [reflexivity | auto].
Defined.

(** ** The order of the statuses *)

Lemma decimal_digits (s : pystr) :
  decimal s = true ->
  (forall c, In c s -> is_digit c = true) /\
  (1 <= List.length s)%nat /\
  ((2 <= List.length s)%nat ->
   10 ^ Z.of_nat (List.length s - 1) <= Z_of_digits s).
Proof.
  destruct s as [|c r]; [discriminate|]. unfold decimal.
  intros H. apply andb_true_iff in H as [Hd Hz].
  assert (Hall : forall x, In x (c :: r) -> is_digit x = true)
    by (now apply forallb_forall).
  split; [exact Hall | split; [cbn; lia|]].
  intros Hlen. destruct r as [|c' r']; [cbn in Hlen; lia|].
  rewrite orb_false_r in Hz. apply negb_true_iff, Z.eqb_neq in Hz.
  assert (Hc : 48 <= c <= 57) by (apply is_digit_range, Hall; now left).
  rewrite Z_of_digits_cons.
  replace (List.length (c :: c' :: r') - 1)%nat with (List.length (c' :: r'))
    by (cbn; lia).
  assert (Hr : 0 <= Z_of_digits (c' :: r')
               < 10 ^ Z.of_nat (List.length (c' :: r')))
    by (apply Z_of_digits_bound; intros x Hx; apply Hall; now right).
  nia.
Qed.

(** For numerals, the order (length, then code points) is the order of the
    numbers. *)
Lemma len_then_lex_numeric (a b : pystr) :
  decimal a = true -> decimal b = true ->
  len_then_lex_lt a b -> numerically_lt a b.
Proof.
  intros Ha Hb. unfold numerically_lt.
  destruct (decimal_digits a Ha) as (Hda & Hla & Hlow_a).
  destruct (decimal_digits b Hb) as (Hdb & Hlb & Hlow_b).
  intros [Hlt | [Hlen Hcmp]].
  - pose proof (Z_of_digits_bound a Hda) as Hbound.
    assert (Hpow : 10 ^ Z.of_nat (List.length a)
                   <= 10 ^ Z.of_nat (List.length b - 1))
      by (apply Z.pow_le_mono_r; lia).
    assert (10 ^ Z.of_nat (List.length b - 1) <= Z_of_digits b)
      by (apply Hlow_b; lia).
    lia.
  - pose proof (digits_compare a b 0 0 Hlen Hda Hdb) as H.
    rewrite Z.compare_refl, Hcmp in H. now apply Z.compare_lt_iff.
Qed.

Lemma strongly_sorted_among {A} (R R' : A -> A -> Prop) (l : list A) :
  (forall a b, In a l -> In b l -> R a b -> R' a b) ->
  StronglySorted R l -> StronglySorted R' l.
Proof.
  intros H Hs. induction Hs as [|x l Hl IH Hx]; [constructor|].
  constructor.
  - apply IH. intros a b Ha Hb. apply H; now right.
  - rewrite Forall_forall in *. intros y Hy.
    apply H; [now left | now right | now apply Hx].
Qed.

Lemma len_then_lex_leb_numeric (a b : pystr) :
  decimal a = true -> decimal b = true ->
  len_then_lex_leb a b = (Z_of_digits a <=? Z_of_digits b).
Proof.
  intros Ha Hb. destruct (len_then_lex_leb a b) eqn:E; symmetry.
  - apply Z.leb_le.
    destruct (list_eq_dec Z.eq_dec a b) as [-> | Hne]; [lia|].
    apply len_then_lex_leb_true in E; [|exact Hne].
    apply len_then_lex_numeric in E; [|assumption..].
    unfold numerically_lt in E. lia.
  - apply Z.leb_gt. apply len_then_lex_leb_false in E.
    apply len_then_lex_numeric in E; [|assumption..].
    exact E.
Qed.

(** X23: statuses that are decimal numerals come out in ascending order of
    their numbers, as the header of the program says: sorting by (length,
    then code points) puts 99 before 100, where the order of the code points
    alone would not. *)
Theorem X23_numeric_statuses_ascend (l : list pystr) :
  NoDup l ->
  (forall s, In s l -> decimal s = true) ->
  StronglySorted numerically_lt (sorted len_then_lex_leb l) /\
  (forall a b, In a l -> In b l ->
     len_then_lex_leb a b = (Z_of_digits a <=? Z_of_digits b)).
Proof.
  intros Hnd Hdec. split.
  - apply (strongly_sorted_among len_then_lex_lt).
    + intros a b Ha Hb. apply sorted_in in Ha, Hb.
      apply len_then_lex_numeric; now apply Hdec.
    + now apply (sorted_strongly _ _ len_then_lex_leb_false
                   len_then_lex_leb_true len_then_lex_lt_trans).
  - intros a b Ha Hb. apply len_then_lex_leb_numeric; now apply Hdec.
Qed.

Lemma X23_witness_three_statuses :
  str_leb (str "1000") (str "99") = true /\
  sorted len_then_lex_leb [str "404"; str "1000"; str "99"]
  = [str "99"; str "404"; str "1000"] /\
  StronglySorted numerically_lt
    (sorted len_then_lex_leb [str "404"; str "1000"; str "99"]).
Proof.
  split; [reflexivity | split; [reflexivity|]].
  apply (X23_numeric_statuses_ascend [str "404"; str "1000"; str "99"]).
  - repeat constructor; cbn [In]; intuition discriminate.
  - intros s [<- | [<- | [<- | []]]]; reflexivity.
Defined.

(** The text of a non-negative integer is a numeral without leading
    zeros. *)
Lemma str_of_int_decimal (n : Z) : 0 <= n -> decimal (str_of_int n) = true.
Proof.
  intros Hn. destruct (Z.eq_dec n 0) as [-> | Hne]; [reflexivity|].
  pose proof (str_of_int_digits n Hn) as Hd.
  assert (Hhead : exists c r, str_of_int n = c :: r /\ c <> 48).
  { unfold str_of_int.
    replace (n <? 0) with false by (symmetry; apply Z.ltb_ge; lia).
    apply digits_of_pos_head. lia. }
  destruct Hhead as (c & r & E & Hc). rewrite E in *.
  unfold decimal. apply andb_true_iff. split.
  - now apply forallb_forall.
  - apply orb_true_iff. left. now apply negb_true_iff, Z.eqb_neq.
Qed.

(** X24: on statuses as the extractor writes them, the texts of
    non-negative integers, the order by which the aggregator sorts is the
    order of the integers. *)
Theorem X24_written_statuses_sort_as_integers (m n : Z) :
  0 <= m -> 0 <= n ->
  len_then_lex_leb (str_of_int m) (str_of_int n) = (m <=? n).
Proof.
  intros Hm Hn.
  rewrite len_then_lex_leb_numeric by (now apply str_of_int_decimal).
  now rewrite !str_of_int_value.
Qed.

Lemma X24_witness_99_before_100 :
  str_leb (str_of_int 99) (str_of_int 100) = false /\
  len_then_lex_leb (str_of_int 99) (str_of_int 100) = true.
Proof.
  split; [reflexivity|].
  rewrite (X24_written_statuses_sort_as_integers 99 100); [reflexivity | lia | lia].
Defined.

End UrlAggregateProps.
